(** * pa11y-backend: scan runner, evidence capture and public-tier rate limit

  A shallow embedding of [src/utils/scanRunner.js] (the stealth version
  with [getElementScreenshot], [runScan] and [isPrivateIp]), of
  [canScanToday] from [src/utils/db.js] and of the two scan routes of
  [src/index.js], followed by the properties of the specification that
  are settled on it. Further properties of the same code come after
  them, together with [getAllReports], [getReportById] and
  [connectWithRetry] of [src/utils/db.js] and the write-back of the scan
  routes.

  Conventions of the embedding.
  - JavaScript strings are read as sequences of ASCII code units.
  - Pixel quantities (bounding boxes, padding, [minSize]) are integers.
  - Everything the code asks of the outside (DNS, the browser, the page,
    the two audit engines) is answered by a [World]: a record of oracles.
    Page-level oracles take the logical clock, so the same call may
    answer differently each time it is made (flaky selectors, transient
    failures).
  - Asynchronous code is run in submission order; [console.*] output is
    not modelled. *)

From Stdlib Require Import String Ascii List ZArith NArith Bool Lia Arith PeanoNat.
From Stdlib Require Import Sorting.Sorted Sorting.Permutation.
Import ListNotations.
Open Scope string_scope.

(* ===================================================================== *)
(** ** JavaScript values, errors and strings *)
(* ===================================================================== *)

Inductive JsValue :=
| JsUndefined
| JsNull
| JsBoolean (b : bool)
| JsNumber (n : Z)
| JsString (s : string)
| JsObject.

(** An [Error] object: the optional [code] property (set by Node on system
  errors) and the [message]. *)
Record JsError := mkError { err_code : option string; err_message : string }.

Definition newError (message : string) : JsError :=
{| err_code := None; err_message := message |}.

(** What an external call answers: a value, or a thrown error. *)
Inductive Result (A : Type) :=
| Ok (a : A)
| Err (e : JsError).
Arguments Ok {A} a.
Arguments Err {A} e.

Definition isOk {A} (r : Result A) : bool :=
match r with Ok _ => true | Err _ => false end.

Module Js.

Definition isUpper (c : ascii) : bool :=
  let n := nat_of_ascii c in (65 <=? n)%nat && (n <=? 90)%nat.

Definition lowerChar (c : ascii) : ascii :=
  if isUpper c then ascii_of_nat (nat_of_ascii c + 32) else c.

(** [String.prototype.toLowerCase] *)
Fixpoint toLowerCase (s : string) : string :=
  match s with
  | EmptyString => EmptyString
  | String c s' => String (lowerChar c) (toLowerCase s')
  end.

(** [s.startsWith(p)] *)
Definition startsWith (s p : string) : bool := String.prefix p s.

(** [s.includes(sub)] *)
Fixpoint includes (s sub : string) : bool :=
  String.prefix sub s ||
  match s with
  | EmptyString => false
  | String _ s' => includes s' sub
  end.

(** [a >= b] and [a <= b] on two strings: code-unit lexicographic order. *)
Definition ge (a b : string) : bool := String.leb b a.
Definition le (a b : string) : bool := String.leb a b.

(** [s.split(sep)] for a one-character separator. *)
Fixpoint splitOn (sep : ascii) (s : string) : list string :=
  match s with
  | EmptyString => [EmptyString]
  | String c s' =>
      if Ascii.eqb c sep then EmptyString :: splitOn sep s'
      else match splitOn sep s' with
           | [] => [String c EmptyString]
           | w :: ws => String c w :: ws
           end
  end.

(** Truthiness of an optional string property. *)
Definition truthy (s : option string) : bool :=
  match s with
  | Some EmptyString | None => false
  | Some _ => true
  end.

End Js.

(* ===================================================================== *)
(** ** Regular expressions (the subset used by the challenge detector) *)
(* ===================================================================== *)

Module Regex.

Inductive t :=
| Empty                      (* matches nothing *)
| Eps                        (* matches the empty string *)
| Chr (p : ascii -> bool)    (* one character satisfying [p] *)
| Cat (r1 r2 : t)
| Alt (r1 r2 : t)
| Star (r : t).

Fixpoint nullable (r : t) : bool :=
  match r with
  | Empty => false
  | Eps => true
  | Chr _ => false
  | Cat r1 r2 => nullable r1 && nullable r2
  | Alt r1 r2 => nullable r1 || nullable r2
  | Star _ => true
  end.

Definition cat (r1 r2 : t) : t :=
  match r1, r2 with
  | Empty, _ | _, Empty => Empty
  | Eps, r | r, Eps => r
  | _, _ => Cat r1 r2
  end.

Definition alt (r1 r2 : t) : t :=
  match r1, r2 with
  | Empty, r | r, Empty => r
  | _, _ => Alt r1 r2
  end.

(** Brzozowski derivative. *)
Fixpoint deriv (c : ascii) (r : t) : t :=
  match r with
  | Empty | Eps => Empty
  | Chr p => if p c then Eps else Empty
  | Cat r1 r2 =>
      if nullable r1 then alt (cat (deriv c r1) r2) (deriv c r2)
      else cat (deriv c r1) r2
  | Alt r1 r2 => alt (deriv c r1) (deriv c r2)
  | Star r1 => cat (deriv c r1) (Star r1)
  end.

(** Whether some prefix of [s] matches [r]. *)
Fixpoint matchesPrefix (r : t) (s : string) : bool :=
  nullable r ||
  match s with
  | EmptyString => false
  | String c s' => matchesPrefix (deriv c r) s'
  end.

(** [re.test(s)] for an unanchored expression: a match at some offset. *)
Fixpoint test (r : t) (s : string) : bool :=
  matchesPrefix r s ||
  match s with
  | EmptyString => false
  | String _ s' => test r s'
  end.

(** Builders; letters are compared without case (the [i] flag). *)
Definition chrI (c : ascii) : t :=
  Chr (fun d => Ascii.eqb (Js.lowerChar d) (Js.lowerChar c)).

Fixpoint litI (s : string) : t :=
  match s with
  | EmptyString => Eps
  | String c s' => Cat (chrI c) (litI s')
  end.

Definition noneOf (cs : list ascii) : t :=
  Chr (fun d => negb (existsb (Ascii.eqb d) cs)).

Definition oneOf (cs : list ascii) : t :=
  Chr (fun d => existsb (Ascii.eqb d) cs).

Definition plus (r : t) : t := Cat r (Star r).
Definition opt (r : t) : t := Alt Eps r.

End Regex.

(* ===================================================================== *)
(** ** Findings and engine results *)
(* ===================================================================== *)

(** The [screenshot] property of a finding, and [pageScreenshot] of a scan
    result: not set, [null], or a data URI. *)
Inductive Shot :=
| ShotAbsent
| ShotNull
| ShotData (uri : string).

(** A Pa11y issue (or passed check). *)
Record Issue := {
  issue_code : string;
  issue_message : string;
  issue_selector : option string;
  issue_screenshot : Shot
}.

(** The object Pa11y resolves to; an absent property is [None]. *)
Record Pa11yResult := {
  issues : option (list Issue);
  passed : option (list Issue);
  notices : option (list Issue);
  warnings : option (list Issue);
  pa11y_error : option string
}.

(** An axe node result: [target] is the selector path. *)
Record Node := {
  target : option (list string);
  html : string;
  node_screenshot : Shot
}.

Record Violation := {
  rule_id : string;
  nodes : list Node
}.

Record AxeResults := {
  violations : option (list Violation);
  passes : option (list Violation);
  incomplete : option (list Violation);
  axe_error : option string
}.

Record ScanResult := {
  pa11y : Pa11yResult;
  axe : AxeResults;
  pageScreenshot : Shot
}.

(** [x || []] *)
Definition orEmpty {A} (x : option (list A)) : list A :=
match x with Some l => l | None => [] end.

(** [{ ...r }] where [r] may still be [null]. *)
Definition spreadPa11y (r : option Pa11yResult) : Pa11yResult :=
match r with
| Some r => r
| None => {| issues := None; passed := None; notices := None;
             warnings := None; pa11y_error := None |}
end.

Definition spreadAxe (r : option AxeResults) : AxeResults :=
match r with
| Some r => r
| None => {| violations := None; passes := None; incomplete := None;
             axe_error := None |}
end.

Definition withIssueShot (i : Issue) (s : Shot) : Issue :=
{| issue_code := issue_code i; issue_message := issue_message i;
   issue_selector := issue_selector i; issue_screenshot := s |}.

Definition withNodeShot (n : Node) (s : Shot) : Node :=
{| target := target n; html := html n; node_screenshot := s |}.

Definition withNodes (v : Violation) (ns : list Node) : Violation :=
{| rule_id := rule_id v; nodes := ns |}.

(* ===================================================================== *)
(** ** The page, the browser and the log of what was asked of them *)
(* ===================================================================== *)

Definition Handle := nat.

(** What [page.evaluateHandle] resolves to: an element handle, or a plain
    handle wrapping a non-element value (here [null] or [undefined]), which
    has no [boundingBox] method. *)
Inductive JSHandle :=
| ElementHandle (h : Handle)
| ValueHandle.

Record Box := { box_x : Z; box_y : Z; width : Z; height : Z }.

Record LookupAddress := { address : string; family : nat }.

Inductive Event :=
| EvParseUrl (url : string)
| EvDnsLookup (hostname : string)
| EvLaunch
| EvNewPage
| EvSetViewport
| EvSetUserAgent (ua : string)
| EvSetHeaders
| EvGoto (url : string)
| EvMouseMove
| EvKeyPress
| EvWait (ms : nat)
| EvPa11yTest (standard : string)
| EvAxeInject
| EvAxeRun (tag : string)
| EvContent
| EvBodyText
| EvBrowserClose
| EvCapture (selector : string) (includeParent : bool)  (* entry of getElementScreenshot *)
| EvQuery (selector : string)                           (* page.$ *)
| EvBoundingBox (h : JSHandle)
| EvParentHandle (selector : string)
| EvDispose (h : JSHandle)
| EvScroll (selector : string) (padding : Z)
| EvHighlight (selector : string)
| EvUnhighlight (selector : string)
| EvScreenshotClip (clip : Box)
| EvScreenshotViewport.

Record World := {
  url_hostname : string -> Result string;             (* new URL(url).hostname *)
  dns_lookup : string -> Result (list LookupAddress); (* dns.lookup(h, {all}) *)
  math_random : nat;                                  (* floor(random() * 5) *)
  puppeteer_launch : Result unit;
  browser_newPage : Result unit;
  page_setViewport : Result unit;
  page_setUserAgent : string -> Result unit;
  page_setExtraHTTPHeaders : Result unit;
  page_goto : string -> Result unit;
  mouse_move : Result unit;
  keyboard_press : Result unit;
  pa11y_test : string -> Result Pa11yResult;
  page_addScriptTag : Result unit;
  axe_run : string -> Result AxeResults;
  page_content : Result string;
  page_bodyText : Result string;
  browser_close : Result unit;
  page_query : nat -> string -> Result (option Handle);
  element_boundingBox : nat -> Handle -> Result (option Box);
  page_parentHandle : nat -> string -> Result JSHandle;
  handle_dispose : nat -> JSHandle -> Result unit;
  page_scroll : nat -> string -> Z -> Result unit;
  page_highlight : nat -> string -> Result unit;
  page_unhighlight : nat -> string -> Result unit;
  page_screenshotClip : nat -> Box -> Result string;
  page_screenshotViewport : nat -> Result string
}.

(** The [let] variables of [runScan] that its [catch] block reads. *)
Record Locals := {
  pa11yResult : option Pa11yResult;
  axeResults : option AxeResults;
  pa11yIssuesWithScreens : list Issue;
  axeViolationsWithScreens : list Violation;
  pa11yPassedWithScreens : list Issue
}.

(** [log] holds the most recent event first. *)
Record State := {
  clock : nat;
  log : list Event;
  locals : Locals
}.

Definition initialLocals : Locals :=
{| pa11yResult := None; axeResults := None; pa11yIssuesWithScreens := [];
   axeViolationsWithScreens := []; pa11yPassedWithScreens := [] |}.

Definition initialState : State :=
{| clock := 0; log := []; locals := initialLocals |}.

(* ===================================================================== *)
(** ** Computations: state, exceptions, and running out of fuel *)
(* ===================================================================== *)

Inductive Completion (A : Type) :=
| Normal (a : A)
| Throw (e : JsError)
| Diverge.
Arguments Normal {A} a.
Arguments Throw {A} e.
Arguments Diverge {A}.

Definition M (A : Type) : Type := State -> Completion A * State.

Definition ret {A} (a : A) : M A := fun s => (Normal a, s).

Definition bind {A B} (m : M A) (k : A -> M B) : M B :=
fun s =>
  match m s with
  | (Normal a, s') => k a s'
  | (Throw e, s') => (Throw e, s')
  | (Diverge, s') => (Diverge, s')
  end.

Definition throw {A} (e : JsError) : M A := fun s => (Throw e, s).

Definition diverge {A} : M A := fun s => (Diverge, s).

(** [try { body } catch (e) { handler e }]; the state reached when [body]
    threw is the one the handler starts from. *)
Definition tryCatch {A} (body : M A) (handler : JsError -> M A) : M A :=
fun s =>
  match body s with
  | (Throw e, s') => handler e s'
  | r => r
  end.

(** [try { body } finally { fin }] *)
Definition tryFinally {A} (body : M A) (fin : M unit) : M A :=
fun s =>
  match body s with
  | (Diverge, s') => (Diverge, s')
  | (c, s') =>
      match fin s' with
      | (Normal _, s'') => (c, s'')
      | (Throw e, s'') => (Throw e, s'')
      | (Diverge, s'') => (Diverge, s'')
      end
  end.

Declare Scope js_scope.
Delimit Scope js_scope with js.
Notation "x <- m ;; k" := (bind m (fun x => k))
  (at level 61, m at next level, right associativity) : js_scope.
Notation "m ;; k" := (bind m (fun _ => k))
  (at level 61, right associativity) : js_scope.
Open Scope js_scope.

Definition record (ev : Event) (s : State) : State :=
{| clock := clock s; log := ev :: log s; locals := locals s |}.

Definition tick (ev : Event) (s : State) : State :=
{| clock := S (clock s); log := ev :: log s; locals := locals s |}.

(** Ghost step: note [ev] in the log. *)
Definition note (ev : Event) : M unit := fun s => (Normal tt, record ev s).

(** An awaited external call: logged, answered by the oracle at the current
    clock, and the clock advances. *)
Definition perform {A} (ev : Event) (oracle : nat -> Result A) : M A :=
fun s =>
  match oracle (clock s) with
  | Ok a => (Normal a, tick ev s)
  | Err e => (Throw e, tick ev s)
  end.

(** [await new Promise(resolve => setTimeout(resolve, ms))] *)
Definition wait (ms : nat) : M unit := perform (EvWait ms) (fun _ => Ok tt).

Definition getLocals : M Locals := fun s => (Normal (locals s), s).

Definition setLocals (f : Locals -> Locals) : M unit :=
fun s => (Normal tt, {| clock := clock s; log := log s; locals := f (locals s) |}).

(** [await Promise.all(xs.map(async x => f x))], run in submission order. *)
Fixpoint mapM {A B} (f : A -> M B) (xs : list A) : M (list B) :=
match xs with
| [] => ret []
| x :: xs' => y <- f x ;; ys <- mapM f xs' ;; ret (y :: ys)
end.

(* ===================================================================== *)
(** ** Evidence capture: [getElementScreenshot] *)
(* ===================================================================== *)

Record Options := {
  minSize : Z;
  maxAttempts : nat;
  viewportPadding : Z;
  includeParent : bool
}.

(** The defaults of the destructuring at the head of the function. *)
Definition defaultOptions : Options :=
{| minSize := 10; maxAttempts := 3; viewportPadding := 20; includeParent := true |}.

(** [{ ...options, includeParent: false }] *)
Definition withoutParent (o : Options) : Options :=
{| minSize := minSize o; maxAttempts := maxAttempts o;
   viewportPadding := viewportPadding o; includeParent := false |}.

Definition dataUri (base64 : string) : string := "data:image/png;base64," ++ base64.

(** [`${selector} > ..`] *)
Definition parentSelector (selector : string) : string := selector ++ " > ..".

(** The clip rectangle of the element screenshot. *)
Definition paddedClip (box : Box) (padding : Z) : Box :=
{| box_x := Z.max 0 (box_x box - padding);
   box_y := Z.max 0 (box_y box - padding);
   width := width box + padding * 2;
   height := height box + padding * 2 |}.

Definition typeError (message : string) : JsError := newError message.

(** [handle.boundingBox()]: only element handles have the method. *)
Definition boundingBox (w : World) (h : JSHandle) : M (option Box) :=
match h with
| ElementHandle e => perform (EvBoundingBox h) (fun t => element_boundingBox w t e)
| ValueHandle => throw (typeError "parent.boundingBox is not a function")
end.

Definition dispose (w : World) (h : JSHandle) : M unit :=
perform (EvDispose h) (fun t => handle_dispose w t h).

(** How one pass through the loop body leaves it. *)
Inductive AttemptExit :=
| Return (v : option string)                        (* return v *)
| ReturnCall (selector : string) (options : Options) (* return getElementScreenshot(...) *)
| NextAttempt.                                      (* fall out of the catch block *)

(** The [try] block of one attempt. *)
Definition attemptBody (w : World) (selector : string) (o : Options) : M AttemptExit :=
  element <- perform (EvQuery selector) (fun t => page_query w t selector) ;;
  match element with
  | None => ret (Return None)
  | Some el =>
    box <- boundingBox w (ElementHandle el) ;;
    match box with
    | None => ret (Return None)
    | Some box =>
      if (width box <? minSize o)%Z || (height box <? minSize o)%Z then
        if includeParent o then
          parent <- perform (EvParentHandle selector)
                      (fun t => page_parentHandle w t selector) ;;
          (* a handle object is always truthy *)
          parentBox <- boundingBox w parent ;;
          match parentBox with
          | Some parentBox =>
              if (width parentBox >? width box)%Z || (height parentBox >? height box)%Z
              then dispose w parent ;;
                   ret (ReturnCall (parentSelector selector) (withoutParent o))
              else dispose w parent ;; ret (Return None)
          | None => dispose w parent ;; ret (Return None)
          end
        else ret (Return None)
      else
        perform (EvScroll selector (viewportPadding o))
          (fun t => page_scroll w t selector (viewportPadding o)) ;;
        wait 100 ;;
        perform (EvHighlight selector) (fun t => page_highlight w t selector) ;;
        screenshot <- perform (EvScreenshotClip (paddedClip box (viewportPadding o)))
          (fun t => page_screenshotClip w t (paddedClip box (viewportPadding o))) ;;
        perform (EvUnhighlight selector) (fun t => page_unhighlight w t selector) ;;
        dispose w (ElementHandle el) ;;
        ret (Return (Some (dataUri screenshot)))
    end
  end.

(** The [catch] block of one attempt. *)
Definition attemptCatch (w : World) (o : Options) (attempt : nat) (error : JsError)
  : M AttemptExit :=
  if (attempt =? maxAttempts o - 1)%nat then
    tryCatch
      (fullScreenshot <- perform EvScreenshotViewport (page_screenshotViewport w) ;;
       ret (Return (Some (dataUri fullScreenshot))))
      (fun e => ret (Return None))
  else ret NextAttempt.

(** The [for] loop, from iteration [attempt] on, with [remaining] iterations
    left before [attempt < maxAttempts] fails. [self] is the function itself,
    for the call in the parent fallback; that call is returned, not awaited,
    so the [catch] block does not cover it. *)
Fixpoint attempts (self : string -> Options -> M (option string))
  (w : World) (selector : string) (o : Options) (remaining attempt : nat)
  : M (option string) :=
match remaining with
| O => ret None
| S remaining' =>
    exit <- tryCatch (attemptBody w selector o) (attemptCatch w o attempt) ;;
    match exit with
    | Return v => ret v
    | ReturnCall selector' o' => self selector' o'
    | NextAttempt => attempts self w selector o remaining' (S attempt)
    end
end.

(** [getElementScreenshot(page, selector, options)]. The function calls
    itself; [fuel] bounds the depth of these calls. *)
Fixpoint getElementScreenshot (fuel : nat) (w : World) (selector : string) (o : Options)
  : M (option string) :=
match fuel with
| O => diverge
| S fuel' =>
    note (EvCapture selector (includeParent o)) ;;
    attempts (getElementScreenshot fuel' w) w selector o (maxAttempts o) 0
end.

(** Counting in the log. *)
Fixpoint countEvents (p : Event -> bool) (l : list Event) : nat :=
match l with
| [] => 0
| e :: l' => if p e then S (countEvents p l') else countEvents p l'
end.

Definition isQuery (e : Event) : bool :=
match e with EvQuery _ => true | _ => false end.

Definition isQueryOf (selector : string) (e : Event) : bool :=
match e with EvQuery s => String.eqb s selector | _ => false end.

Definition isCapture (e : Event) : bool :=
match e with EvCapture _ _ => true | _ => false end.

Definition isViewportShot (e : Event) : bool :=
match e with EvScreenshotViewport => true | _ => false end.

Definition isClipShot (e : Event) : bool :=
match e with EvScreenshotClip _ => true | _ => false end.

(* ===================================================================== *)
(** ** Target validation: [net.isIPv4], [net.isIPv6], [isPrivateIp] *)
(* ===================================================================== *)

Module Net.

Definition isDigit (c : ascii) : bool :=
  let n := nat_of_ascii c in (48 <=? n)%nat && (n <=? 57)%nat.

Definition isHexDigit (c : ascii) : bool :=
  let n := nat_of_ascii c in
  isDigit c || ((65 <=? n)%nat && (n <=? 70)%nat) || ((97 <=? n)%nat && (n <=? 102)%nat).

Fixpoint allChars (p : ascii -> bool) (s : string) : bool :=
  match s with
  | EmptyString => true
  | String c s' => p c && allChars p s'
  end.

(** Value of a string of decimal digits, most significant first. *)
Fixpoint decimalFrom (acc : N) (s : string) : N :=
  match s with
  | EmptyString => acc
  | String c s' => decimalFrom (acc * 10 + (N.of_nat (nat_of_ascii c) - 48)) s'
  end.

(** One dotted-quad segment: 0..255 in decimal without a leading zero. *)
Definition octet (s : string) : option N :=
  match s with
  | EmptyString => None
  | String c rest =>
      if allChars isDigit s && (String.length s <=? 3)%nat
         && (negb (Ascii.eqb c "0") || (String.length s =? 1)%nat)
         && (decimalFrom 0 s <=? 255)%N
      then Some (decimalFrom 0 s) else None
  end.

Fixpoint octets (parts : list string) : option (list N) :=
  match parts with
  | [] => Some []
  | p :: ps =>
      match octet p, octets ps with
      | Some n, Some ns => Some (n :: ns)
      | _, _ => None
      end
  end.

(** The four octets of a dotted-quad address, if it is one. *)
Definition parseIPv4 (ip : string) : option (list N) :=
  let parts := Js.splitOn "." ip in
  if (List.length parts =? 4)%nat then octets parts else None.

(** [net.isIPv4] *)
Definition isIPv4 (ip : string) : bool :=
  match parseIPv4 ip with Some _ => true | None => false end.

(** One colon-separated group: one to four hexadecimal digits. *)
Definition isGroup (s : string) : bool :=
  (1 <=? String.length s)%nat && (String.length s <=? 4)%nat && allChars isHexDigit s.

(** Number of 16-bit groups a colon-separated list stands for; a dotted
    quad is allowed in last position when [v4Last] and counts for two. *)
Fixpoint groupCount (v4Last : bool) (parts : list string) : option nat :=
  match parts with
  | [] => Some 0%nat
  | [p] => if isGroup p then Some 1%nat
           else if v4Last && isIPv4 p then Some 2%nat else None
  | p :: ps =>
      if isGroup p then option_map S (groupCount v4Last ps) else None
  end.

Definition groupsOf (v4Last : bool) (s : string) : option nat :=
  match s with
  | EmptyString => Some 0%nat
  | _ => groupCount v4Last (Js.splitOn ":" s)
  end.

(** Position of the first [::] in [s], as the text before and after it. *)
Fixpoint splitDoubleColon (s : string) : option (string * string) :=
  match s with
  | String ":" (String ":" rest) => Some (EmptyString, rest)
  | String c s' =>
      match splitDoubleColon s' with
      | Some (l, r) => Some (String c l, r)
      | None => None
      end
  | EmptyString => None
  end.

(** [net.isIPv6], without zone identifiers: eight groups, or fewer around
    a single [::]. *)
Definition isIPv6 (ip : string) : bool :=
  match splitDoubleColon ip with
  | None =>
      match groupsOf true ip with
      | Some n => (n =? 8)%nat
      | None => false
      end
  | Some (l, r) =>
      match splitDoubleColon r, groupsOf false l, groupsOf true r with
      | None, Some n, Some m => (n + m <=? 7)%nat
      | _, _, _ => false
      end
  end.

End Net.

(** [isPrivateIp(ip)] *)
Definition isPrivateIp (ip : string) : bool :=
  if Net.isIPv4 ip then
    Js.startsWith ip "10." ||
    Js.startsWith ip "192.168." ||
    Js.startsWith ip "127." ||
    Js.startsWith ip "169.254." ||
    (Js.ge ip "172.16.0.0" && Js.le ip "172.31.255.255")
  else if Net.isIPv6 ip then
    String.eqb ip "::1" ||
    Js.startsWith ip "fc" ||
    Js.startsWith ip "fd"
  else false.

(** The ranges the specification lists, on the octets of an IPv4 address:
    10/8, 172.16/12, 192.168/16, 127/8 and 169.254/16. *)
Definition inPrivateRangeV4 (o : list N) : bool :=
  match o with
  | [a; b; _; _] =>
      ((a =? 10) || ((a =? 172) && (16 <=? b) && (b <=? 31)) ||
       ((a =? 192) && (b =? 168)) || (a =? 127) || ((a =? 169) && (b =? 254)))%N
  | _ => false
  end.

(* ===================================================================== *)
(** ** The challenge detector (the Cloudflare check of [runScan]) *)
(* ===================================================================== *)

Definition dquote : ascii := "034"%char.
Definition squote : ascii := "039"%char.
Definition gt : ascii := ">"%char.

(** The pattern [<meta[^>]+http-equiv=Q?refresh] with flag [i], where [Q]
    is the class of the two quote characters. *)
Definition reMetaRefresh : Regex.t :=
  Regex.Cat (Regex.litI "<meta")
  (Regex.Cat (Regex.plus (Regex.noneOf [gt]))
  (Regex.Cat (Regex.litI "http-equiv=")
  (Regex.Cat (Regex.opt (Regex.oneOf [dquote; squote]))
             (Regex.litI "refresh")))).

(** The pattern [<div[^>]+id=Q?cf-spinner] with flag [i]. *)
Definition reSpinnerDiv : Regex.t :=
  Regex.Cat (Regex.litI "<div")
  (Regex.Cat (Regex.plus (Regex.noneOf [gt]))
  (Regex.Cat (Regex.litI "id=")
  (Regex.Cat (Regex.opt (Regex.oneOf [dquote; squote]))
             (Regex.litI "cf-spinner")))).

(** The pattern [<div[^>]+class=Q[^Q]*cf-[^Q]*Q] with flag [i]. *)
Definition reCfClassDiv : Regex.t :=
  Regex.Cat (Regex.litI "<div")
  (Regex.Cat (Regex.plus (Regex.noneOf [gt]))
  (Regex.Cat (Regex.litI "class=")
  (Regex.Cat (Regex.oneOf [dquote; squote])
  (Regex.Cat (Regex.Star (Regex.noneOf [dquote; squote]))
  (Regex.Cat (Regex.litI "cf-")
  (Regex.Cat (Regex.Star (Regex.noneOf [dquote; squote]))
             (Regex.oneOf [dquote; squote]))))))).

(** The pattern [cf-spinner|cloudflare] with flag [i]. *)
Definition reSpinnerOrCloudflare : Regex.t :=
  Regex.Alt (Regex.litI "cf-spinner") (Regex.litI "cloudflare").

Definition isCloudflare (pageContent : string) : bool :=
  let lowerContent := Js.toLowerCase pageContent in
  Js.includes lowerContent "cf-browser-verification" ||
  Js.includes lowerContent "attention required! | cloudflare" ||
  Js.includes lowerContent "challenge-form" ||
  Js.includes lowerContent "cloudflare ray id" ||
  Js.includes lowerContent "just a moment..." ||
  Js.includes lowerContent "checking your browser before accessing" ||
  Js.includes lowerContent "data-cf-settings" ||
  Js.includes lowerContent "data-cf-beacon" ||
  Js.includes lowerContent "ray id:" ||
  Js.includes lowerContent "please enable javascript and cookies to continue" ||
  Regex.test reMetaRefresh pageContent ||
  Regex.test reSpinnerDiv pageContent ||
  Regex.test reCfClassDiv pageContent.

Definition onlySpinner (pageContent bodyText : string) : bool :=
  Regex.test reSpinnerOrCloudflare pageContent && (String.length bodyText <? 20)%nat.

Definition isSuspiciouslyEmpty (pageContent bodyText : string) : bool :=
  (String.length bodyText <? 20)%nat && (String.length pageContent <? 2000)%nat.

(** The verdict: [true] is "blocked". *)
Definition challengeDetected (pageContent bodyText : string) : bool :=
  isCloudflare pageContent || onlySpinner pageContent bodyText
  || isSuspiciouslyEmpty pageContent bodyText.

(* ===================================================================== *)
(** ** The scan: [runScan] *)
(* ===================================================================== *)

Definition USER_AGENTS : list string := [
  "Mozilla/5.0 (Windows NT 10.0; Win64; x64) AppleWebKit/537.36 (KHTML, like Gecko) Chrome/122.0.0.0 Safari/537.36";
  "Mozilla/5.0 (Macintosh; Intel Mac OS X 10_15_7) AppleWebKit/537.36 (KHTML, like Gecko) Chrome/122.0.0.0 Safari/537.36";
  "Mozilla/5.0 (Windows NT 10.0; Win64; x64) AppleWebKit/537.36 (KHTML, like Gecko) Chrome/121.0.0.0 Safari/537.36";
  "Mozilla/5.0 (Macintosh; Intel Mac OS X 10_15_7) AppleWebKit/537.36 (KHTML, like Gecko) Chrome/121.0.0.0 Safari/537.36";
  "Mozilla/5.0 (X11; Linux x86_64) AppleWebKit/537.36 (KHTML, like Gecko) Chrome/122.0.0.0 Safari/537.36"
].

Definition getRandomUserAgent (w : World) : string :=
  nth (math_random w mod List.length USER_AGENTS) USER_AGENTS EmptyString.

Definition privateTargetError : JsError :=
  newError "Scanning internal/private IP addresses is not allowed for security reasons.".

Definition invalidDomainError : JsError :=
  newError "Invalid or unreachable domain.".

Definition cloudflareError : JsError :=
  newError "Cloudflare protection detected. Automated scans are not possible for this site. Please whitelist the Google Cloud Platform (GCP) IP range in your Cloudflare dashboard to allow scans.".

(** [e.code === c] *)
Definition codeIs (e : JsError) (c : string) : bool :=
  match err_code e with
  | Some c' => String.eqb c' c
  | None => false
  end.

(** The [for ... of addresses] loop of the SSRF guard. *)
Fixpoint checkAddresses (addresses : list LookupAddress) : M unit :=
  match addresses with
  | [] => ret tt
  | addr :: rest =>
      if isPrivateIp (address addr) then throw privateTargetError
      else checkAddresses rest
  end.

(** The first [try]/[catch] of [runScan]. *)
Definition validateTarget (w : World) (url : string) : M unit :=
  tryCatch
    (hostname <- perform (EvParseUrl url) (fun _ => url_hostname w url) ;;
     addresses <- perform (EvDnsLookup hostname) (fun _ => dns_lookup w hostname) ;;
     checkAddresses addresses)
    (fun e => if codeIs e "ENOTFOUND" then throw invalidDomainError else throw e).

(** The default of the [wcagLevel] parameter applies to [undefined] only. *)
Definition defaultLevel (wcagLevel : JsValue) : JsValue :=
  match wcagLevel with
  | JsUndefined => JsString "AA"
  | v => v
  end.

(** [wcagLevel === 'AAA'] *)
Definition isAAA (wcagLevel : JsValue) : bool :=
  match wcagLevel with
  | JsString s => String.eqb s "AAA"
  | _ => false
  end.

Definition pa11yStandardOf (wcagLevel : JsValue) : string :=
  if isAAA wcagLevel then "WCAG2AAA" else "WCAG2AA".

Definition axeTagOf (wcagLevel : JsValue) : string :=
  if isAAA wcagLevel then "wcag2aaa" else "wcag2aa".

Definition pa11yFallback (message : string) : Pa11yResult :=
  {| issues := Some []; passed := Some []; notices := Some [];
     warnings := Some []; pa11y_error := Some message |}.

Definition axeFallback (message : string) : AxeResults :=
  {| violations := Some []; passes := Some []; incomplete := Some [];
     axe_error := Some message |}.

Definition setPa11yResult (r : Pa11yResult) (l : Locals) : Locals :=
  {| pa11yResult := Some r; axeResults := axeResults l;
     pa11yIssuesWithScreens := pa11yIssuesWithScreens l;
     axeViolationsWithScreens := axeViolationsWithScreens l;
     pa11yPassedWithScreens := pa11yPassedWithScreens l |}.

Definition setAxeResults (r : AxeResults) (l : Locals) : Locals :=
  {| pa11yResult := pa11yResult l; axeResults := Some r;
     pa11yIssuesWithScreens := pa11yIssuesWithScreens l;
     axeViolationsWithScreens := axeViolationsWithScreens l;
     pa11yPassedWithScreens := pa11yPassedWithScreens l |}.

Definition setIssuesWithScreens (v : list Issue) (l : Locals) : Locals :=
  {| pa11yResult := pa11yResult l; axeResults := axeResults l;
     pa11yIssuesWithScreens := v;
     axeViolationsWithScreens := axeViolationsWithScreens l;
     pa11yPassedWithScreens := pa11yPassedWithScreens l |}.

Definition setViolationsWithScreens (v : list Violation) (l : Locals) : Locals :=
  {| pa11yResult := pa11yResult l; axeResults := axeResults l;
     pa11yIssuesWithScreens := pa11yIssuesWithScreens l;
     axeViolationsWithScreens := v;
     pa11yPassedWithScreens := pa11yPassedWithScreens l |}.

Definition setPassedWithScreens (v : list Issue) (l : Locals) : Locals :=
  {| pa11yResult := pa11yResult l; axeResults := axeResults l;
     pa11yIssuesWithScreens := pa11yIssuesWithScreens l;
     axeViolationsWithScreens := axeViolationsWithScreens l;
     pa11yPassedWithScreens := v |}.

(** The Pa11y [try]/[catch]: assigns [pa11yResult] and yields it. *)
Definition runPa11y (w : World) (pa11yStandard : string) : M Pa11yResult :=
  tryCatch
    (r <- perform (EvPa11yTest pa11yStandard) (fun _ => pa11y_test w pa11yStandard) ;;
     setLocals (setPa11yResult r) ;;
     ret r)
    (fun pa11yError =>
       setLocals (setPa11yResult (pa11yFallback (err_message pa11yError))) ;;
       ret (pa11yFallback (err_message pa11yError))).

(** The axe [try]/[catch]: assigns [axeResults] and yields it. *)
Definition runAxe (w : World) (axeTag : string) : M AxeResults :=
  tryCatch
    (perform EvAxeInject (fun _ => page_addScriptTag w) ;;
     r <- perform (EvAxeRun axeTag) (fun _ => axe_run w axeTag) ;;
     setLocals (setAxeResults r) ;;
     ret r)
    (fun axeError =>
       setLocals (setAxeResults (axeFallback (err_message axeError))) ;;
       ret (axeFallback (err_message axeError))).

Definition shotOf (screenshot : option string) : Shot :=
  match screenshot with
  | Some uri => ShotData uri
  | None => ShotNull
  end.

(** The callback mapped over the Pa11y issues. *)
Definition issueWithScreen (fuel : nat) (w : World) (issue : Issue) : M Issue :=
  match issue_selector issue with
  | Some selector =>
      if Js.truthy (Some selector) then
        screenshot <- getElementScreenshot fuel w selector defaultOptions ;;
        ret (withIssueShot issue (shotOf screenshot))
      else ret (withIssueShot issue ShotNull)
  | None => ret (withIssueShot issue ShotNull)
  end.

(** [(node.target && node.target[0]) || null] *)
Definition nodeSelector (node : Node) : option string :=
  match target node with
  | Some (s :: _) => if Js.truthy (Some s) then Some s else None
  | _ => None
  end.

Definition nodeWithScreen (fuel : nat) (w : World) (node : Node) : M Node :=
  match nodeSelector node with
  | None => ret (withNodeShot node ShotNull)
  | Some selector =>
      screenshot <- getElementScreenshot fuel w selector defaultOptions ;;
      ret (withNodeShot node (shotOf screenshot))
  end.

Definition violationWithScreens (fuel : nat) (w : World) (violation : Violation)
  : M Violation :=
  nodesWithScreens <- mapM (nodeWithScreen fuel w) (nodes violation) ;;
  ret (withNodes violation nodesWithScreens).

(** Passed checks get [screenshot: null] without any capture. *)
Definition passedWithoutScreen (p : Issue) : Issue := withIssueShot p ShotNull.

Definition passWithoutScreens (pass : Violation) : Violation :=
  withNodes pass (map (fun node => withNodeShot node ShotNull) (nodes pass)).

(** The Cloudflare check at the end of the [try] block. *)
Definition detectChallenge (w : World) : M unit :=
  wait 4000 ;;
  pageContent <- perform EvContent (fun _ => page_content w) ;;
  bodyText <- perform EvBodyText (fun _ => page_bodyText w) ;;
  if challengeDetected pageContent bodyText then throw cloudflareError
  else ret tt.

Definition withIssuesPassed (r : Pa11yResult) (i p : list Issue) : Pa11yResult :=
  {| issues := Some i; passed := Some p; notices := notices r;
     warnings := warnings r; pa11y_error := pa11y_error r |}.

Definition withViolations (r : AxeResults) (v : list Violation) : AxeResults :=
  {| violations := Some v; passes := passes r; incomplete := incomplete r;
     axe_error := axe_error r |}.

Definition withViolationsPasses (r : AxeResults) (v p : list Violation) : AxeResults :=
  {| violations := Some v; passes := Some p; incomplete := incomplete r;
     axe_error := axe_error r |}.

(** [pageScreenshot ? `data:image/png;base64,${pageScreenshot}` : null] *)
Definition pageShot (pageScreenshot : option string) : Shot :=
  match pageScreenshot with
  | Some s => if Js.truthy (Some s) then ShotData (dataUri s) else ShotNull
  | None => ShotNull
  end.

(** The object returned at the end of the [try] block. *)
Definition fullResult (pa11yResult : Pa11yResult) (axeResults : AxeResults)
  (pa11yIssuesWithScreens pa11yPassedWithScreens : list Issue)
  (axeViolationsWithScreens axePassesWithScreens : list Violation)
  (pageScreenshot : option string) : ScanResult :=
  {| pa11y := withIssuesPassed pa11yResult pa11yIssuesWithScreens pa11yPassedWithScreens;
     axe := withViolationsPasses axeResults axeViolationsWithScreens axePassesWithScreens;
     pageScreenshot := pageShot pageScreenshot |}.

(** The object returned by the [catch] block. *)
Definition partialResult (l : Locals) : ScanResult :=
  {| pa11y := withIssuesPassed (spreadPa11y (pa11yResult l))
                (pa11yIssuesWithScreens l) (pa11yPassedWithScreens l);
     axe := withViolations (spreadAxe (axeResults l)) (axeViolationsWithScreens l);
     pageScreenshot := ShotAbsent |}.

(** The page set-up and navigation at the head of the [try] block. *)
Definition openPage (w : World) (url : string) : M unit :=
  perform EvNewPage (fun _ => browser_newPage w) ;;
  perform EvSetViewport (fun _ => page_setViewport w) ;;
  perform (EvSetUserAgent (getRandomUserAgent w))
    (fun _ => page_setUserAgent w (getRandomUserAgent w)) ;;
  perform EvSetHeaders (fun _ => page_setExtraHTTPHeaders w) ;;
  perform (EvGoto url) (fun _ => page_goto w url) ;;
  wait 3000 ;;
  perform EvMouseMove (fun _ => mouse_move w) ;;
  perform EvKeyPress (fun _ => keyboard_press w) ;;
  wait 1000 ;;
  wait 2000.

(** The engines, the evidence, the challenge check and the returned
    object: the rest of the [try] block. *)
Definition auditPage (fuel : nat) (w : World) (wcagLevel : JsValue) : M ScanResult :=
  pageScreenshot <-
    tryCatch (s <- perform EvScreenshotViewport (page_screenshotViewport w) ;;
              ret (Some s))
             (fun _ => ret None) ;;
  let pa11yStandard := pa11yStandardOf wcagLevel in
  let axeTag := axeTagOf wcagLevel in
  pa11yResult <- runPa11y w pa11yStandard ;;
  axeResults <- runAxe w axeTag ;;
  pa11yIssuesWithScreens <-
    mapM (issueWithScreen fuel w) (orEmpty (issues pa11yResult)) ;;
  setLocals (setIssuesWithScreens pa11yIssuesWithScreens) ;;
  let pa11yPassedWithScreens := map passedWithoutScreen (orEmpty (passed pa11yResult)) in
  setLocals (setPassedWithScreens pa11yPassedWithScreens) ;;
  axeViolationsWithScreens <-
    mapM (violationWithScreens fuel w) (orEmpty (violations axeResults)) ;;
  setLocals (setViolationsWithScreens axeViolationsWithScreens) ;;
  let axePassesWithScreens := map passWithoutScreens (orEmpty (passes axeResults)) in
  detectChallenge w ;;
  ret (fullResult pa11yResult axeResults pa11yIssuesWithScreens pa11yPassedWithScreens
         axeViolationsWithScreens axePassesWithScreens pageScreenshot).

(** The [try] block. *)
Definition scanPage (fuel : nat) (w : World) (url : string) (wcagLevel : JsValue)
  : M ScanResult :=
  openPage w url ;;
  auditPage fuel w wcagLevel.

(** The [catch] block: whatever was gathered so far is returned. *)
Definition scanCatch (e : JsError) : M ScanResult :=
  setLocals (fun l =>
    match axeResults l with
    | Some _ => l
    | None => setAxeResults {| violations := None; passes := None; incomplete := None;
                               axe_error := Some (err_message e) |} l
    end) ;;
  l <- getLocals ;;
  ret (partialResult l).

(** [runScan(url, wcagLevel)] *)
Definition runScan (fuel : nat) (w : World) (url : string) (wcagLevel : JsValue)
  : M ScanResult :=
  let wcagLevel := defaultLevel wcagLevel in
  validateTarget w url ;;
  perform EvLaunch (fun _ => puppeteer_launch w) ;;
  setLocals (fun _ => initialLocals) ;;
  tryFinally
    (tryCatch (scanPage fuel w url wcagLevel) scanCatch)
    (perform EvBrowserClose (fun _ => browser_close w)).

(* ===================================================================== *)
(** ** The report store and the scan routes *)
(* ===================================================================== *)

(** A document of the [Report] collection; [createdAt] in milliseconds. *)
Record Report := {
  report_url : string;
  report_email : string;
  report_type : string;
  report_status : string;
  createdAt : Z
}.

Definition Store := list Report.

(** The filter [{ email, type: 'public' }]. *)
Definition isPublicBy (email : string) (r : Report) : bool :=
  String.eqb (report_email r) email && String.eqb (report_type r) "public".

(** First document of a list under [.sort({ createdAt: -1 })]. *)
Fixpoint newest (rs : list Report) : option Report :=
  match rs with
  | [] => None
  | r :: rs' =>
      match newest rs' with
      | Some r' => if (createdAt r <? createdAt r')%Z then Some r' else Some r
      | None => Some r
      end
  end.

(** [Report.findOne({ email, type: 'public' }).sort({ createdAt: -1 })] *)
Definition findLastPublic (db : Store) (email : string) : option Report :=
  newest (filter (isPublicBy email) db).

Definition DAY_MS : Z := 24 * 60 * 60 * 1000.

(** [canScanToday(email)], with the store and [new Date()] made explicit. *)
Definition canScanToday (db : Store) (now : Z) (email : string) : bool :=
  match findLastPublic db email with
  | None => true
  | Some last => (now - createdAt last >? DAY_MS)%Z
  end.

(** [saveReport(data)]: the document is appended, stamped by [Date.now]. *)
Definition saveReport (db : Store) (now : Z) (url email type : string) : Store :=
  (db ++ [{| report_url := url; report_email := email; report_type := type;
             report_status := "pending"; createdAt := now |}])%list.

Inductive Response :=
| BadRequest         (* 400, Missing URL or email *)
| TooManyRequests    (* 429, Scan limit reached for today *)
| ReportId (id : nat).

(** [POST /api/public-scan], up to the response; the document's identifier
    is its position in the store. *)
Definition publicScan (db : Store) (now : Z) (url email : option string)
  : Response * Store :=
  match url, email with
  | Some u, Some e =>
      if negb (Js.truthy url) || negb (Js.truthy email) then (BadRequest, db)
      else if negb (canScanToday db now e) then (TooManyRequests, db)
      else (ReportId (List.length db), saveReport db now u e "public")
  | _, _ => (BadRequest, db)
  end.

(** [POST /api/admin-scan], past the authentication middleware. *)
Definition adminScan (db : Store) (now : Z) (url email : option string)
  : Response * Store :=
  match url, email with
  | Some u, Some e =>
      if negb (Js.truthy url) || negb (Js.truthy email) then (BadRequest, db)
      else (ReportId (List.length db), saveReport db now u e "admin")
  | _, _ => (BadRequest, db)
  end.

(* ===================================================================== *)
(** ** Conditions on a world, and the worlds of the scenarios *)
(* ===================================================================== *)

Definition isLaunch (e : Event) : bool :=
  match e with EvLaunch => true | _ => false end.

Definition isEngineCall (e : Event) : bool :=
  match e with EvPa11yTest _ | EvAxeInject | EvAxeRun _ => true | _ => false end.

Definition anyPrivate (addresses : list LookupAddress) : bool :=
  existsb (fun a => isPrivateIp (address a)) addresses.

(** The validator lets the target through. *)
Definition targetAccepted (w : World) (url : string) : Prop :=
  exists hostname addresses,
    url_hostname w url = Ok hostname /\
    dns_lookup w hostname = Ok addresses /\
    anyPrivate addresses = false.

(** The browser starts and the page is set up, loaded and prodded. *)
Definition pageOpens (w : World) (url : string) : Prop :=
  puppeteer_launch w = Ok tt /\
  browser_newPage w = Ok tt /\
  page_setViewport w = Ok tt /\
  page_setUserAgent w (getRandomUserAgent w) = Ok tt /\
  page_setExtraHTTPHeaders w = Ok tt /\
  page_goto w url = Ok tt /\
  mouse_move w = Ok tt /\
  keyboard_press w = Ok tt.

(** As [pageOpens], but [page.goto] throws [e]. *)
Definition navigationFails (w : World) (url : string) (e : JsError) : Prop :=
  puppeteer_launch w = Ok tt /\
  browser_newPage w = Ok tt /\
  page_setViewport w = Ok tt /\
  page_setUserAgent w (getRandomUserAgent w) = Ok tt /\
  page_setExtraHTTPHeaders w = Ok tt /\
  page_goto w url = Err e.

Definition emptyPa11y : Pa11yResult :=
  {| issues := Some []; passed := None; notices := None; warnings := None;
     pa11y_error := None |}.

Definition emptyAxe : AxeResults :=
  {| violations := Some []; passes := Some []; incomplete := Some [];
     axe_error := None |}.

Definition publicAddress : list LookupAddress :=
  [{| address := "93.184.216.34"; family := 4 |}].

(** A world in which every call succeeds, built from the answers that the
    scenarios vary. *)
Definition mkWorld
  (dns : Result (list LookupAddress))
  (goto : Result unit)
  (pa11yAnswer : Result Pa11yResult)
  (axeAnswer : Result AxeResults)
  (content bodyText : string)
  (query : string -> Result (option Handle))
  (boxOf : Handle -> option Box)
  (parentOf : string -> JSHandle) : World :=
  {| url_hostname := fun _ => Ok "target.example";
     dns_lookup := fun _ => dns;
     math_random := 0;
     puppeteer_launch := Ok tt;
     browser_newPage := Ok tt;
     page_setViewport := Ok tt;
     page_setUserAgent := fun _ => Ok tt;
     page_setExtraHTTPHeaders := Ok tt;
     page_goto := fun _ => goto;
     mouse_move := Ok tt;
     keyboard_press := Ok tt;
     pa11y_test := fun _ => pa11yAnswer;
     page_addScriptTag := Ok tt;
     axe_run := fun _ => axeAnswer;
     page_content := Ok content;
     page_bodyText := Ok bodyText;
     browser_close := Ok tt;
     page_query := fun _ => query;
     element_boundingBox := fun _ h => Ok (boxOf h);
     page_parentHandle := fun _ sel => Ok (parentOf sel);
     handle_dispose := fun _ _ => Ok tt;
     page_scroll := fun _ _ _ => Ok tt;
     page_highlight := fun _ _ => Ok tt;
     page_unhighlight := fun _ _ => Ok tt;
     page_screenshotClip := fun _ _ => Ok "CLIP";
     page_screenshotViewport := fun _ => Ok "VIEWPORT" |}.

Definition plainContent : string :=
  "<html><head><title>Example</title></head><body><h1>Example Domain</h1><p>This domain is for use in illustrative examples.</p></body></html>".

Definition plainBodyText : string :=
  "Example Domain This domain is for use in illustrative examples.".

Definition sampleIssue : Issue :=
  {| issue_code := "WCAG2AA.Principle1.Guideline1_1.1_1_1.H37";
     issue_message := "Img element missing an alt attribute.";
     issue_selector := Some "#logo";
     issue_screenshot := ShotAbsent |}.

Definition sampleViolation : Violation :=
  {| rule_id := "image-alt";
     nodes := [{| target := Some ["#logo"]; html := "<img id=logo>";
                  node_screenshot := ShotAbsent |}] |}.

Definition samplePa11y : Pa11yResult :=
  {| issues := Some [sampleIssue]; passed := None; notices := None;
     warnings := None; pa11y_error := None |}.

Definition sampleAxe : AxeResults :=
  {| violations := Some [sampleViolation]; passes := Some []; incomplete := Some [];
     axe_error := None |}.

(** The page of the samples: [#logo] is a 120 by 40 image. *)
Definition logoQuery (selector : string) : Result (option Handle) :=
  if String.eqb selector "#logo" then Ok (Some 1) else Ok None.

Definition logoBox (h : Handle) : option Box :=
  Some {| box_x := 30; box_y := 40; width := 120; height := 40 |}.

Definition noParent (selector : string) : JSHandle := ValueHandle.

(** A public site that renders and has one finding per engine. *)
Definition clearWorld : World :=
  mkWorld (Ok publicAddress) (Ok tt) (Ok samplePa11y) (Ok sampleAxe)
    plainContent plainBodyText logoQuery logoBox noParent.

(** Scenario 3: the rendered page is a browser-check interstitial whose
    visible text has length 8. *)
Definition challengeContent : string :=
  "<html><body><p>Checking your browser before accessing target.example</p></body></html>".

Definition challengeBodyText : string := "Checking".

Definition challengeWorld : World :=
  mkWorld (Ok publicAddress) (Ok tt) (Ok samplePa11y) (Ok sampleAxe)
    challengeContent challengeBodyText logoQuery logoBox noParent.

(** Navigation runs into its 90 second limit. *)
Definition timeoutError : JsError :=
  newError "Navigation timeout of 90000 ms exceeded".

Definition timeoutWorld : World :=
  mkWorld (Ok publicAddress) (Err timeoutError) (Ok samplePa11y) (Ok sampleAxe)
    plainContent plainBodyText logoQuery logoBox noParent.

(** Scenario 2, and an unresolvable host. *)
Definition privateWorld : World :=
  mkWorld (Ok [{| address := "192.168.1.5"; family := 4 |}]) (Ok tt)
    (Ok samplePa11y) (Ok sampleAxe)
    plainContent plainBodyText logoQuery logoBox noParent.

Definition notFoundError : JsError :=
  {| err_code := Some "ENOTFOUND";
     err_message := "getaddrinfo ENOTFOUND no-such-host.example" |}.

Definition unresolvedWorld : World :=
  mkWorld (Err notFoundError) (Ok tt) (Ok samplePa11y) (Ok sampleAxe)
    plainContent plainBodyText logoQuery logoBox noParent.

(** A host inside 172.16.0.0/12. *)
Definition internalWorld : World :=
  mkWorld (Ok [{| address := "172.31.9.1"; family := 4 |}]) (Ok tt)
    (Ok emptyPa11y) (Ok emptyAxe)
    plainContent plainBodyText logoQuery logoBox noParent.

(** One engine throws, the other answers. *)
Definition engineError : JsError := newError "Evaluation failed".

Definition pa11yFailsWorld : World :=
  mkWorld (Ok publicAddress) (Ok tt) (Err engineError) (Ok sampleAxe)
    plainContent plainBodyText logoQuery logoBox noParent.

Definition axeFailsWorld : World :=
  mkWorld (Ok publicAddress) (Ok tt) (Ok samplePa11y) (Err engineError)
    plainContent plainBodyText logoQuery logoBox noParent.

(** Scenario 4: [#tiny] is 4 pixels wide, its parent is 200 pixels wide.
    The selector of the retry, [#tiny > ..], is not a CSS selector:
    [document.querySelector] throws a [SyntaxError] on it. *)
Definition tinyBox : Box := {| box_x := 50; box_y := 60; width := 4; height := 16 |}.
Definition tinyParentBox : Box := {| box_x := 40; box_y := 50; width := 200; height := 40 |}.

Definition selectorSyntaxError : JsError :=
  newError "SyntaxError: Failed to execute 'querySelector' on 'Document': '#tiny > ..' is not a valid selector.".

Definition tinyQuery (selector : string) : Result (option Handle) :=
  if String.eqb selector "#tiny" then Ok (Some 1)
  else if String.eqb selector "#tiny > .." then Err selectorSyntaxError
  else Ok None.

Definition tinyBoxOf (h : Handle) : option Box :=
  match h with
  | 1 => Some tinyBox
  | 2 => Some tinyParentBox
  | _ => None
  end.

Definition tinyParentOf (selector : string) : JSHandle :=
  if String.eqb selector "#tiny" then ElementHandle 2 else ValueHandle.

Definition tinyWorld : World :=
  mkWorld (Ok publicAddress) (Ok tt) (Ok emptyPa11y) (Ok emptyAxe)
    plainContent plainBodyText tinyQuery tinyBoxOf tinyParentOf.

(** A store with one public report by [a@example.org] at time 1000. *)
Definition sampleReport : Report :=
  {| report_url := "https://example.com"; report_email := "a@example.org";
     report_type := "public"; report_status := "complete"; createdAt := 1000 |}.

Definition sampleStore : Store := [sampleReport].

(* ===================================================================== *)
(** ** Vocabulary of the statements *)
(* ===================================================================== *)

(** One query of [selector] counts for [counted] when they are equal. *)
Definition hit (counted selector : string) : nat :=
  if String.eqb selector counted then 1 else 0.

(** From [s] to [s'] at most [q] calls of [page.$] were made, [q0] of them
    on the selector [counted], the capture function was entered at most [c]
    times and at most [v] viewport screenshots were taken; nothing was
    removed from the log and the variables of [runScan] were not touched. *)
Definition spent (counted : string) (s s' : State) (q q0 c v : nat) : Prop :=
  countEvents isQuery (log s') <= countEvents isQuery (log s) + q /\
  countEvents (isQueryOf counted) (log s') <= countEvents (isQueryOf counted) (log s) + q0 /\
  countEvents isCapture (log s') <= countEvents isCapture (log s) + c /\
  countEvents isViewportShot (log s') <= countEvents isViewportShot (log s) + v /\
  incl (log s) (log s') /\
  locals s' = locals s.

Definition quiet (s s' : State) : Prop :=
  incl (log s) (log s') /\ locals s' = locals s.

(** What [pa11yResult] holds after the Pa11y [try]/[catch]. *)
Definition pa11yOutcome (w : World) (pa11yStandard : string) : Pa11yResult :=
  match pa11y_test w pa11yStandard with
  | Ok r => r
  | Err e => pa11yFallback (err_message e)
  end.

(** What the axe [try] block comes to: the script is injected, then run. *)
Definition axeAnswer (w : World) (axeTag : string) : Result AxeResults :=
  match page_addScriptTag w with
  | Ok _ => axe_run w axeTag
  | Err e => Err e
  end.

(** What [axeResults] holds after the axe [try]/[catch]. *)
Definition axeOutcome (w : World) (axeTag : string) : AxeResults :=
  match axeAnswer w axeTag with
  | Ok r => r
  | Err e => axeFallback (err_message e)
  end.

(** How the Cloudflare check completes. *)
Definition verdict (w : World) : Completion unit :=
  match page_content w with
  | Err e => Throw e
  | Ok pageContent =>
      match page_bodyText w with
      | Err e => Throw e
      | Ok bodyText =>
          if challengeDetected pageContent bodyText then Throw cloudflareError
          else Normal tt
      end
  end.

(** A finding and the same finding with some [screenshot] property. *)
Definition sameIssue (i i' : Issue) : Prop := exists shot, i' = withIssueShot i shot.
Definition sameNode (n n' : Node) : Prop := exists shot, n' = withNodeShot n shot.
Definition sameViolation (v v' : Violation) : Prop :=
  rule_id v' = rule_id v /\ Forall2 sameNode (nodes v) (nodes v').

(** The variables of [runScan] once both engines and the captures ran. *)
Definition auditedLocals (p : Pa11yResult) (a : AxeResults)
  (issues' : list Issue) (violations' : list Violation) : Locals :=
  {| pa11yResult := Some p; axeResults := Some a;
     pa11yIssuesWithScreens := issues';
     axeViolationsWithScreens := violations';
     pa11yPassedWithScreens := map passedWithoutScreen (orEmpty (passed p)) |}.


(** The engine calls in the log, most recent first. *)
Definition engineCalls (s : State) : list Event := filter isEngineCall (log s).

(** Running [m] adds exactly [calls] to the engine calls, however it ends. *)
Definition adds {A} (calls : list Event) (m : M A) : Prop :=
  forall s, engineCalls (snd (m s)) = (calls ++ engineCalls s)%list.

(** The engine calls of the audit: Pa11y is run, axe is injected and, when
    the injection succeeded, run. *)
Definition auditCalls (w : World) (wcagLevel : JsValue) : list Event :=
  (match page_addScriptTag w with
   | Ok _ => [EvAxeRun (axeTagOf wcagLevel)]
   | Err _ => []
   end ++ [EvAxeInject; EvPa11yTest (pa11yStandardOf wcagLevel)])%list.

(* ===================================================================== *)
(** ** More of the code: vocabulary and further scenarios *)
(* ===================================================================== *)

(** *** Evidence capture *)

(** [box.width < minSize || box.height < minSize] *)
Definition tooSmall (o : Options) (box : Box) : bool :=
  (width box <? minSize o)%Z || (height box <? minSize o)%Z.

(** The answers of the page that let one attempt, begun at clock [t], run
    to its [return]: the element is found and large enough, and scrolling,
    highlighting, the clipped screenshot, the clean-up and the disposal all
    succeed. *)
Definition attemptSucceeds (w : World) (selector : string) (o : Options) (t : nat)
  (el : Handle) (box : Box) (screenshot : string) : Prop :=
  page_query w t selector = Ok (Some el) /\
  element_boundingBox w (1 + t) el = Ok (Some box) /\
  tooSmall o box = false /\
  page_scroll w (2 + t) selector (viewportPadding o) = Ok tt /\
  page_highlight w (4 + t) selector = Ok tt /\
  page_screenshotClip w (5 + t) (paddedClip box (viewportPadding o)) = Ok screenshot /\
  page_unhighlight w (6 + t) selector = Ok tt /\
  handle_dispose w (7 + t) (ElementHandle el) = Ok tt.

(** The answers that take one attempt, begun at clock [t], as far as the
    highlight and make the clipped screenshot throw. *)
Definition clipFails (w : World) (selector : string) (o : Options) (t : nat) : Prop :=
  exists el box e,
    page_query w t selector = Ok (Some el) /\
    element_boundingBox w (1 + t) el = Ok (Some box) /\
    tooSmall o box = false /\
    page_scroll w (2 + t) selector (viewportPadding o) = Ok tt /\
    page_highlight w (4 + t) selector = Ok tt /\
    page_screenshotClip w (5 + t) (paddedClip box (viewportPadding o)) = Err e.

(** The state after [n] awaited calls, [events] being their log, newest
    first. *)
Definition advance (n : nat) (events : list Event) (s : State) : State :=
  {| clock := n + clock s; log := (events ++ log s)%list; locals := locals s |}.

Definition isHighlight (e : Event) : bool :=
  match e with EvHighlight _ => true | _ => false end.

Definition isUnhighlight (e : Event) : bool :=
  match e with EvUnhighlight _ => true | _ => false end.

(** What the last [catch] block falls back to, asked at clock [t]. *)
Definition viewportFallback (w : World) (t : nat) : option string :=
  match page_screenshotViewport w t with
  | Ok fullScreenshot => Some (dataUri fullScreenshot)
  | Err _ => None
  end.

(** [w] with another [page.$]. *)
Definition withPageQuery (query : nat -> string -> Result (option Handle)) (w : World)
  : World :=
  {| url_hostname := url_hostname w;
     dns_lookup := dns_lookup w;
     math_random := math_random w;
     puppeteer_launch := puppeteer_launch w;
     browser_newPage := browser_newPage w;
     page_setViewport := page_setViewport w;
     page_setUserAgent := page_setUserAgent w;
     page_setExtraHTTPHeaders := page_setExtraHTTPHeaders w;
     page_goto := page_goto w;
     mouse_move := mouse_move w;
     keyboard_press := keyboard_press w;
     pa11y_test := pa11y_test w;
     page_addScriptTag := page_addScriptTag w;
     axe_run := axe_run w;
     page_content := page_content w;
     page_bodyText := page_bodyText w;
     browser_close := browser_close w;
     page_query := query;
     element_boundingBox := element_boundingBox w;
     page_parentHandle := page_parentHandle w;
     handle_dispose := handle_dispose w;
     page_scroll := page_scroll w;
     page_highlight := page_highlight w;
     page_unhighlight := page_unhighlight w;
     page_screenshotClip := page_screenshotClip w;
     page_screenshotViewport := page_screenshotViewport w |}.

(** [w] with another clipped [page.screenshot]. *)
Definition withScreenshotClip (shot : nat -> Box -> Result string) (w : World) : World :=
  {| url_hostname := url_hostname w;
     dns_lookup := dns_lookup w;
     math_random := math_random w;
     puppeteer_launch := puppeteer_launch w;
     browser_newPage := browser_newPage w;
     page_setViewport := page_setViewport w;
     page_setUserAgent := page_setUserAgent w;
     page_setExtraHTTPHeaders := page_setExtraHTTPHeaders w;
     page_goto := page_goto w;
     mouse_move := mouse_move w;
     keyboard_press := keyboard_press w;
     pa11y_test := pa11y_test w;
     page_addScriptTag := page_addScriptTag w;
     axe_run := axe_run w;
     page_content := page_content w;
     page_bodyText := page_bodyText w;
     browser_close := browser_close w;
     page_query := page_query w;
     element_boundingBox := element_boundingBox w;
     page_parentHandle := page_parentHandle w;
     handle_dispose := handle_dispose w;
     page_scroll := page_scroll w;
     page_highlight := page_highlight w;
     page_unhighlight := page_unhighlight w;
     page_screenshotClip := shot;
     page_screenshotViewport := page_screenshotViewport w |}.

Definition logoRect : Box := {| box_x := 30; box_y := 40; width := 120; height := 40 |}.

(** The page of the samples while it still loads: the first two calls of
    [page.$] throw. *)
Definition transientError : JsError :=
  newError "Execution context was destroyed, most likely because of a navigation.".

Definition flakyWorld : World :=
  withPageQuery
    (fun t selector => if (t <? 2)%nat then Err transientError else logoQuery selector)
    clearWorld.

(** [#logo] exists but is not rendered: it has no bounding box. *)
Definition hiddenWorld : World :=
  mkWorld (Ok publicAddress) (Ok tt) (Ok samplePa11y) (Ok sampleAxe)
    plainContent plainBodyText logoQuery (fun _ => None) noParent.

(** [#tiny] is 4 pixels wide and so is its parent. *)
Definition crampedWorld : World :=
  mkWorld (Ok publicAddress) (Ok tt) (Ok emptyPa11y) (Ok emptyAxe)
    plainContent plainBodyText tinyQuery (fun _ => Some tinyBox)
    (fun _ => ElementHandle 2).

(** The page of the samples with clipped screenshots failing. *)
Definition clipError : JsError := newError "Protocol error (Page.captureScreenshot)".

Definition clipDownWorld : World :=
  withScreenshotClip (fun _ _ => Err clipError) clearWorld.

(** *** Target validation *)

(** Decimal form of an octet, as [net.isIPv4] accepts it. *)
Definition digitChar (n : N) : ascii := ascii_of_N (48 + n).

Definition showOctet (n : N) : string :=
  if (n <? 10)%N then String (digitChar n) EmptyString
  else if (n <? 100)%N then
    String (digitChar (n / 10)) (String (digitChar (n mod 10)) EmptyString)
  else
    String (digitChar (n / 100))
      (String (digitChar ((n / 10) mod 10)) (String (digitChar (n mod 10)) EmptyString)).

Definition digitChars : list ascii :=
  ["0"; "1"; "2"; "3"; "4"; "5"; "6"; "7"; "8"; "9"]%char.

Definition octetRange : list N := map N.of_nat (seq 0 256).

(** Two strings differ at a position both have. *)
Fixpoint differAt (a b : string) : bool :=
  match a, b with
  | String c a', String d b' => if Ascii.eqb c d then differAt a' b' else true
  | _, _ => false
  end.

(** [p] is either refused by [Net.octet] or the decimal form of its value. *)
Definition octetCanonical (p : string) : bool :=
  match Net.octet p with
  | Some n => String.eqb p (showOctet n) && (n <? 256)%N
  | None => true
  end.

(** A resolver that is not reachable. *)
Definition dnsTimeoutError : JsError :=
  {| err_code := Some "EAI_AGAIN"; err_message := "getaddrinfo EAI_AGAIN target.example" |}.

Definition dnsDownWorld : World :=
  mkWorld (Err dnsTimeoutError) (Ok tt) (Ok samplePa11y) (Ok sampleAxe)
    plainContent plainBodyText logoQuery logoBox noParent.

(** *** The challenge detector *)

(** Code units below 128 only. On such a string [toLowerCase] changes the
    letters A to Z and nothing else, and [length] is the number of
    characters. *)
Definition isAscii (s : string) : bool :=
  Net.allChars (fun c => (nat_of_ascii c <? 128)%nat) s.

(** The page of scenario 3 in capitals. *)
Definition shoutedContent : string :=
  "<HTML><BODY><P>CHECKING YOUR BROWSER BEFORE ACCESSING TARGET.EXAMPLE</P></BODY></HTML>".

(** Every character test of the expression gives the same answer on a
    letter and on its lower-case form. *)
Fixpoint caseBlind (r : Regex.t) : Prop :=
  match r with
  | Regex.Chr p => forall c, p (Js.lowerChar c) = p c
  | Regex.Cat r1 r2 | Regex.Alt r1 r2 => caseBlind r1 /\ caseBlind r2
  | Regex.Star r1 => caseBlind r1
  | Regex.Empty | Regex.Eps => True
  end.

(** *** The scan and its callers *)

(** Findings for which a capture is attempted. *)
Definition issueCapturable (i : Issue) : bool := Js.truthy (issue_selector i).

Definition nodeCapturable (n : Node) : bool :=
  match nodeSelector n with Some _ => true | None => false end.

Definition capturableNodes (vs : list Violation) : nat :=
  list_sum (map (fun v => List.length (filter nodeCapturable (nodes v))) vs).

Definition capturable (p : Pa11yResult) (a : AxeResults) : nat :=
  List.length (filter issueCapturable (orEmpty (issues p)))
  + capturableNodes (orEmpty (violations a)).

(** Calls of [page.$] so far. *)
Definition queries (s : State) : nat := countEvents isQuery (log s).

(** The selector that the callback mapped over the issues captures. *)
Definition issueTarget (i : Issue) : option string :=
  if Js.truthy (issue_selector i) then issue_selector i else None.

(** [shot] is the [screenshot] property attached for [selector]: [null]
    when there is no selector, and otherwise what a call
    [getElementScreenshot(page, selector)] returned, in some state of the
    page. *)
Definition evidenceFor (fuel : nat) (w : World) (selector : option string) (shot : Shot)
  : Prop :=
  match selector with
  | None => shot = ShotNull
  | Some selector =>
      exists s0 s1 screenshot,
        getElementScreenshot fuel w selector defaultOptions s0 = (Normal screenshot, s1) /\
        shot = shotOf screenshot
  end.

(** A finding and the same finding with its [screenshot] property. *)
Definition screenedIssue (fuel : nat) (w : World) (i i' : Issue) : Prop :=
  exists shot, i' = withIssueShot i shot /\ evidenceFor fuel w (issueTarget i) shot.

Definition screenedNode (fuel : nat) (w : World) (n n' : Node) : Prop :=
  exists shot, n' = withNodeShot n shot /\ evidenceFor fuel w (nodeSelector n) shot.

Definition screenedViolation (fuel : nat) (w : World) (v v' : Violation) : Prop :=
  exists nodes', v' = withNodes v nodes' /\ Forall2 (screenedNode fuel w) (nodes v) nodes'.

(** The second argument of [findByIdAndUpdate] in the callbacks of a scan
    route: the new [status] and [result] of the report. *)
Inductive JobResult :=
| ScanData (result : ScanResult)     (* result *)
| ScanFailure (message : string).    (* { error: error.message } *)

Record ReportUpdate := {
  update_status : string;
  update_result : JobResult
}.

(** [{ result, status: 'complete' }] *)
Definition completeUpdate (result : ScanResult) : ReportUpdate :=
  {| update_status := "complete"; update_result := ScanData result |}.

(** [{ status: 'error', result: { error: error.message } }] *)
Definition errorUpdate (error : JsError) : ReportUpdate :=
  {| update_status := "error"; update_result := ScanFailure (err_message error) |}.

(** One call of [findByIdAndUpdate] and whether its promise was fulfilled. *)
Record UpdateCall := {
  call_update : ReportUpdate;
  call_fulfilled : bool
}.

(** The [.catch] callback: [update] answers its call, which is call number
    [n] of the job; [before] are the calls made so far. *)
Definition onScanError (update : nat -> ReportUpdate -> Result unit) (n : nat)
  (error : JsError) (before : list UpdateCall) : Completion unit * list UpdateCall :=
  match update n (errorUpdate error) with
  | Ok _ =>
      (Normal tt,
       (before ++ [{| call_update := errorUpdate error; call_fulfilled := true |}])%list)
  | Err e =>
      (Throw e,
       (before ++ [{| call_update := errorUpdate error; call_fulfilled := false |}])%list)
  end.

(** [runScan(url, wcagLevel).then(...).catch(...)] in a scan route: how the
    chain settles and the calls of [findByIdAndUpdate] it made, oldest
    first. The [.catch] is chained after the [.then], so it also takes the
    rejection of the update that the [.then] callback awaits. A scan that
    never settles makes no call. *)
Definition scanJob (update : nat -> ReportUpdate -> Result unit)
  (scan : Completion ScanResult) : Completion unit * list UpdateCall :=
  match scan with
  | Normal result =>
      match update 0 (completeUpdate result) with
      | Ok _ =>
          (Normal tt, [{| call_update := completeUpdate result; call_fulfilled := true |}])
      | Err e =>
          onScanError update 1 e
            [{| call_update := completeUpdate result; call_fulfilled := false |}]
      end
  | Throw error => onScanError update 0 error []
  | Diverge => (Diverge, [])
  end.

Definition isComplete (call : UpdateCall) : bool :=
  String.eqb (update_status (call_update call)) "complete".

(** A database that refuses the first update and takes the later ones. *)
Definition writeError : JsError := newError "connection pool closed".

Definition failsOnce (n : nat) (u : ReportUpdate) : Result unit :=
  if (n =? 0)%nat then Err writeError else Ok tt.

(** *** The report store *)

(** [getReportById(id)]: the identifier is the position in the store. *)
Definition getReportById (db : Store) (id : nat) : option Report := nth_error db id.





(** The pending document that a scan route stores. *)
Definition pendingReport (now : Z) (url email type : string) : Report :=
  {| report_url := url; report_email := email; report_type := type;
     report_status := "pending"; createdAt := now |}.

(** *** The connection to the database: [connectWithRetry] *)

Module Mongo.









End Mongo.

(* ===================================================================== *)
(** ** Evidence capture: bounds and termination *)
(* ===================================================================== *)

Lemma spent_refl counted s : spent counted s s 0 0 0 0.
Proof. unfold spent; repeat split; try lia. apply incl_refl. Qed.

Lemma spent_trans counted s1 s2 s3 q q0 c v q' q0' c' v' :
  spent counted s1 s2 q q0 c v -> spent counted s2 s3 q' q0' c' v' ->
  spent counted s1 s3 (q + q') (q0 + q0') (c + c') (v + v').
Proof.
  unfold spent. intros (? & ? & ? & ? & ? & ?) (? & ? & ? & ? & ? & ?).
  repeat split; try lia; [eapply incl_tran; eassumption | congruence].
Qed.

Lemma spent_weaken counted s s' q q0 c v q' q0' c' v' :
  spent counted s s' q q0 c v -> q <= q' -> q0 <= q0' -> c <= c' -> v <= v' ->
  spent counted s s' q' q0' c' v'.
Proof.
  unfold spent. intros (? & ? & ? & ? & ? & ?) ? ? ? ?.
  repeat split; try lia; assumption.
Qed.

Lemma string_length_append (a b : string) :
  String.length (a ++ b) = String.length a + String.length b.
Proof. induction a as [|c a IH]; simpl; [reflexivity | now rewrite IH]. Qed.

Lemma parentSelector_neq selector : String.eqb (parentSelector selector) selector = false.
Proof.
  apply String.eqb_neq. intro H.
  apply (f_equal String.length) in H. unfold parentSelector in H.
  rewrite string_length_append in H. simpl in H. lia.
Qed.

Ltac split_matches :=
  repeat match goal with
  | |- context [match ?x with _ => _ end] =>
      lazymatch x with
      | context [match _ with _ => _ end] => fail
      | _ => destruct x eqn:?; cbn
      end
  end.

Ltac solve_spent :=
  unfold spent, hit; cbn;
  repeat match goal with
  | |- context [String.eqb ?a ?b] => destruct (String.eqb a b)
  end;
  repeat split; try lia; try reflexivity;
  intros ? ?; cbn; tauto.

Lemma attemptBody_spec counted w selector o s :
  exists ex s', attemptBody w selector o s = (ex, s') /\
    spent counted s s' 1 (hit counted selector) 0 0 /\
    match ex with
    | Normal (Return _) => True
    | Normal (ReturnCall selector' o') =>
        includeParent o = true /\ selector' = parentSelector selector /\ o' = withoutParent o
    | Normal NextAttempt => False
    | Throw _ => True
    | Diverge => False
    end.
Proof.
  unfold attemptBody, bind, boundingBox, dispose, wait, perform, throw, ret.
  cbn.
  split_matches; do 2 eexists; (split; [reflexivity|]); (split; [solve_spent | auto]).
Qed.

Lemma attemptCatch_spec counted w o attempt error s :
  exists ex s', attemptCatch w o attempt error s = (Normal ex, s') /\
    match ex with
    | Return _ => attempt = maxAttempts o - 1 /\ spent counted s s' 0 0 0 1
    | ReturnCall _ _ => False
    | NextAttempt => attempt <> maxAttempts o - 1 /\ s' = s
    end.
Proof.
  unfold attemptCatch, tryCatch, bind, perform, ret.
  destruct (Nat.eqb_spec attempt (maxAttempts o - 1)) as [E|E]; cbn.
  - split_matches; do 2 eexists; (split; [reflexivity|]); (split; [assumption | solve_spent]).
  - do 2 eexists. split; [reflexivity|]. split; [assumption | reflexivity].
Qed.

(** The loop, given that the call for the parent (made only when
    [includeParent] holds) returns within its own bounds. *)
Lemma attempts_spec counted self w selector o q c
  (Hself : includeParent o = true -> forall s,
     exists v s', self (parentSelector selector) (withoutParent o) s = (Normal v, s') /\
       spent counted s s' q 0 c 1) :
  forall remaining attempt s,
    exists v s', attempts self w selector o remaining attempt s = (Normal v, s') /\
      spent counted s s' (remaining + q) (remaining * hit counted selector) c 1.
Proof.
  induction remaining as [|remaining IH]; intros attempt s; cbn [attempts].
  - exists None, s. split; [reflexivity|]. eapply spent_weaken; [apply spent_refl | lia..].
  - unfold bind at 1. unfold tryCatch.
    destruct (attemptBody_spec counted w selector o s) as (ex & s1 & Hb & Hs1 & Hex).
    rewrite Hb.
    destruct ex as [[v|selector' o'|]|e|]; try contradiction.
    + exists v, s1. split; [reflexivity|]. eapply spent_weaken; [exact Hs1 | cbn; lia..].
    + destruct Hex as (Hp & -> & ->).
      destruct (Hself Hp s1) as (v & s2 & Hc & Hs2).
      exists v, s2. split; [exact Hc|].
      eapply spent_weaken; [exact (spent_trans _ _ _ _ _ _ _ _ _ _ _ _ Hs1 Hs2) | cbn; lia..].
    + destruct (attemptCatch_spec counted w o attempt e s1) as (ex & s2 & Hc & Hex2).
      rewrite Hc.
      destruct ex as [v|selector' o'|]; try contradiction.
      * destruct Hex2 as [_ Hs2]. exists v, s2. split; [reflexivity|].
        eapply spent_weaken; [exact (spent_trans _ _ _ _ _ _ _ _ _ _ _ _ Hs1 Hs2) | cbn; lia..].
      * destruct Hex2 as [_ ->].
        destruct (IH (S attempt) s1) as (v & s3 & Hl & Hs3).
        exists v, s3. split; [exact Hl|].
        eapply spent_weaken; [exact (spent_trans _ _ _ _ _ _ _ _ _ _ _ _ Hs1 Hs3) | cbn; lia..].
Qed.

Lemma note_spent counted selector b s :
  spent counted s (record (EvCapture selector b) s) 0 0 1 0.
Proof. solve_spent. Qed.

(** A capture without parent fallback never calls itself: any fuel but
    none is enough. *)
Lemma capture_without_parent counted fuel w selector o s :
  includeParent o = false ->
  exists v s', getElementScreenshot (S fuel) w selector o s = (Normal v, s') /\
    spent counted s s' (maxAttempts o) (maxAttempts o * hit counted selector) 1 1.
Proof.
  intros Hp. cbn [getElementScreenshot]. unfold bind at 1, note.
  destruct (attempts_spec counted (getElementScreenshot fuel w) w selector o 0 0)
    with (remaining := maxAttempts o) (attempt := 0)
         (s := record (EvCapture selector (includeParent o)) s)
    as (v & s' & Hl & Hs).
  { rewrite Hp. discriminate. }
  exists v, s'. split; [exact Hl|].
  eapply spent_weaken;
    [exact (spent_trans _ _ _ _ _ _ _ _ _ _ _ _ (note_spent counted selector _ s) Hs) | lia..].
Qed.

(** Any capture returns once two levels of calls are allowed. *)
Lemma capture_returns fuel w selector o s :
  exists v s', getElementScreenshot (S (S fuel)) w selector o s = (Normal v, s') /\
    spent selector s s' (2 * maxAttempts o) (maxAttempts o) 2 1.
Proof.
  change (getElementScreenshot (S (S fuel)) w selector o s)
    with ((note (EvCapture selector (includeParent o)) ;;
           attempts (getElementScreenshot (S fuel) w) w selector o (maxAttempts o) 0) s).
  unfold bind at 1, note.
  destruct (attempts_spec selector (getElementScreenshot (S fuel) w) w selector o
              (maxAttempts o) 1)
    with (remaining := maxAttempts o) (attempt := 0)
         (s := record (EvCapture selector (includeParent o)) s)
    as (v & s' & Hl & Hs).
  { intros _ s0.
    destruct (capture_without_parent selector fuel w (parentSelector selector)
                (withoutParent o) s0 eq_refl) as (v & s' & Hc & Hs).
    exists v, s'. split; [exact Hc|].
    unfold hit in Hs. rewrite parentSelector_neq in Hs.
    eapply spent_weaken; [exact Hs | cbn; lia..]. }
  exists v, s'. split; [exact Hl|].
  unfold hit in Hs. rewrite String.eqb_refl in Hs.
  eapply spent_weaken;
    [exact (spent_trans _ _ _ _ _ _ _ _ _ _ _ _ (note_spent selector selector _ s) Hs) | lia..].
Qed.

(** The loop depends on the function it calls for the parent only through
    that one call. *)
Lemma attempts_ext self1 self2 w selector o
  (Hself : includeParent o = true -> forall s,
     self1 (parentSelector selector) (withoutParent o) s
       = self2 (parentSelector selector) (withoutParent o) s) :
  forall remaining attempt s,
    attempts self1 w selector o remaining attempt s
      = attempts self2 w selector o remaining attempt s.
Proof.
  induction remaining as [|remaining IH]; intros attempt s; cbn [attempts]; [reflexivity|].
  unfold bind, tryCatch.
  destruct (attemptBody_spec selector w selector o s) as (ex & s1 & Hb & _ & Hex).
  rewrite Hb.
  destruct ex as [[v|selector' o'|]|e|]; try contradiction; try reflexivity.
  - destruct Hex as (Hp & -> & ->). exact (Hself Hp s1).
  - destruct (attemptCatch_spec selector w o attempt e s1) as (ex & s2 & Hc & Hex2).
    rewrite Hc. destruct ex as [v|selector' o'|]; try contradiction; [reflexivity|].
    apply IH.
Qed.

(** More fuel than two levels changes nothing. *)
Lemma capture_fuel_irrelevant fuel w selector o s :
  getElementScreenshot (S (S fuel)) w selector o s
    = getElementScreenshot 2 w selector o s.
Proof.
  change (attempts (getElementScreenshot (S fuel) w) w selector o (maxAttempts o) 0
            (record (EvCapture selector (includeParent o)) s)
          = attempts (getElementScreenshot 1 w) w selector o (maxAttempts o) 0
              (record (EvCapture selector (includeParent o)) s)).
  apply attempts_ext. intros _ s0.
  change (attempts (getElementScreenshot fuel w) w (parentSelector selector)
            (withoutParent o) (maxAttempts o) 0
            (record (EvCapture (parentSelector selector) false) s0)
          = attempts (getElementScreenshot 0 w) w (parentSelector selector)
              (withoutParent o) (maxAttempts o) 0
              (record (EvCapture (parentSelector selector) false) s0)).
  apply attempts_ext. discriminate.
Qed.

(** C7. When [page.$] answers [null] for the selector (the locator matches
    no element), [getElementScreenshot] returns [null]: it completes
    normally, so no exception escapes, whatever the options and whatever
    the rest of the page does. *)
Theorem capture_no_element_null fuel w selector o s :
  page_query w (clock s) selector = Ok None ->
  exists s', getElementScreenshot (S fuel) w selector o s = (Normal None, s').
Proof.
  intros H. cbn [getElementScreenshot]. unfold bind at 1, note.
  destruct (maxAttempts o) as [|n]; cbn [attempts].
  - eexists. reflexivity.
  - unfold bind at 1, tryCatch, attemptBody. unfold bind at 1, perform.
    cbn [clock record]. rewrite H. eexists. reflexivity.
Qed.

(** C7 at the page of the samples, for a selector it does not have. *)
Lemma capture_no_element_null_witness :
  page_query clearWorld (clock initialState) "#missing" = Ok None /\
  exists s', getElementScreenshot 1 clearWorld "#missing" defaultOptions initialState
             = (Normal None, s').
Proof.
  split; [reflexivity|].
  apply (capture_no_element_null 0 clearWorld "#missing" defaultOptions initialState).
  reflexivity.
Defined.

(** C8. The fallback ladder terminates. With room for two nested calls,
    [getElementScreenshot] returns a value (it neither throws nor runs out
    of fuel) for every page behaviour, selector and options, after at most
    [maxAttempts] tries on the element itself, at most one call of itself
    for the parent (the function is entered at most twice), and at most
    one full-viewport screenshot; with the tries of the parent call
    included, [page.$] is called at most [2 * maxAttempts] times. *)
Theorem capture_terminates fuel w selector o s :
  2 <= fuel ->
  exists v s', getElementScreenshot fuel w selector o s = (Normal v, s') /\
    countEvents (isQueryOf selector) (log s')
      <= countEvents (isQueryOf selector) (log s) + maxAttempts o /\
    countEvents isCapture (log s') <= countEvents isCapture (log s) + 2 /\
    countEvents isViewportShot (log s') <= countEvents isViewportShot (log s) + 1 /\
    countEvents isQuery (log s') <= countEvents isQuery (log s) + 2 * maxAttempts o.
Proof.
  intros Hfuel.
  destruct fuel as [|[|fuel]]; try lia.
  destruct (capture_returns fuel w selector o s) as (v & s' & Hc & Hq & Hq0 & Hcap & Hv & _).
  exists v, s'. repeat split; assumption.
Qed.

(** C8 at scenario 4. *)
Lemma capture_terminates_witness :
  2 <= 2 /\
  exists v s', getElementScreenshot 2 tinyWorld "#tiny" defaultOptions initialState
               = (Normal v, s') /\
    countEvents (isQueryOf "#tiny") (log s')
      <= countEvents (isQueryOf "#tiny") (log initialState) + maxAttempts defaultOptions /\
    countEvents isCapture (log s') <= countEvents isCapture (log initialState) + 2 /\
    countEvents isViewportShot (log s') <= countEvents isViewportShot (log initialState) + 1 /\
    countEvents isQuery (log s') <= countEvents isQuery (log initialState) + 2 * maxAttempts defaultOptions.
Proof.
  split; [lia|].
  apply (capture_terminates 2 tinyWorld "#tiny" defaultOptions initialState). lia.
Defined.

(** C3. Scenario 4 on the code: [#tiny] is 4 pixels wide, its parent 200.
    The capture does retry once for the parent, but under the selector
    [#tiny > ..], which [page.$] rejects on each of the three attempts; what
    comes back is the full-viewport fallback. No clipped screenshot is
    taken at all, in particular none of the parent's box grown by the
    padding, which would be the rectangle at (20, 30) of size 240 by 80. *)
Theorem capture_tiny_element_gets_viewport :
  exists s',
    getElementScreenshot 2 tinyWorld "#tiny" defaultOptions initialState
      = (Normal (Some (dataUri "VIEWPORT")), s') /\
    rev (log s') =
      [EvCapture "#tiny" true; EvQuery "#tiny"; EvBoundingBox (ElementHandle 1);
       EvParentHandle "#tiny"; EvBoundingBox (ElementHandle 2);
       EvDispose (ElementHandle 2);
       EvCapture "#tiny > .." false; EvQuery "#tiny > .."; EvQuery "#tiny > ..";
       EvQuery "#tiny > .."; EvScreenshotViewport] /\
    paddedClip tinyParentBox (viewportPadding defaultOptions)
      = {| box_x := 20; box_y := 30; width := 240; height := 80 |} /\
    countEvents isClipShot (log s') = 0.
Proof. eexists. repeat split. Qed.




(* ===================================================================== *)
(** ** The scan: engines, challenge check, and what is returned *)
(* ===================================================================== *)

Lemma quiet_refl s : quiet s s.
Proof. split; [apply incl_refl | reflexivity]. Qed.

Lemma quiet_trans s1 s2 s3 : quiet s1 s2 -> quiet s2 s3 -> quiet s1 s3.
Proof. intros [? ?] [? ?]. split; [eapply incl_tran; eassumption | congruence]. Qed.

Lemma spent_quiet counted s s' q q0 c v : spent counted s s' q q0 c v -> quiet s s'.
Proof. intros (_ & _ & _ & _ & ? & ?). split; assumption. Qed.

Lemma capture_quiet fuel w selector o s :
  2 <= fuel ->
  exists v s', getElementScreenshot fuel w selector o s = (Normal v, s') /\ quiet s s'.
Proof.
  intros Hfuel. destruct fuel as [|[|fuel]]; try lia.
  destruct (capture_returns fuel w selector o s) as (v & s' & Hc & Hs).
  exists v, s'. split; [exact Hc | exact (spent_quiet _ _ _ _ _ _ _ Hs)].
Qed.

Lemma mapM_returns {A B} (R : A -> B -> Prop) (f : A -> M B)
  (Hf : forall a s, exists b s', f a s = (Normal b, s') /\ R a b /\ quiet s s') :
  forall xs s, exists ys s', mapM f xs s = (Normal ys, s') /\ Forall2 R xs ys /\ quiet s s'.
Proof.
  induction xs as [|a xs IH]; intros s; cbn [mapM].
  - exists [], s. split; [reflexivity|]. split; [constructor | apply quiet_refl].
  - destruct (Hf a s) as (b & s1 & Hb & HR & Hq1).
    destruct (IH s1) as (ys & s2 & Hys & HF & Hq2).
    exists (b :: ys), s2. unfold bind. rewrite Hb, Hys.
    split; [reflexivity|]. split; [constructor; assumption | eapply quiet_trans; eassumption].
Qed.

Lemma issueWithScreen_spec fuel w issue s :
  2 <= fuel ->
  exists issue' s', issueWithScreen fuel w issue s = (Normal issue', s') /\
    sameIssue issue issue' /\ quiet s s'.
Proof.
  intros Hfuel. unfold issueWithScreen.
  destruct (issue_selector issue) as [selector|].
  - destruct (Js.truthy (Some selector)).
    + destruct (capture_quiet fuel w selector defaultOptions s Hfuel) as (v & s' & Hc & Hq).
      unfold bind. rewrite Hc. do 2 eexists. split; [reflexivity|].
      split; [eexists; reflexivity | exact Hq].
    + do 2 eexists. split; [reflexivity|]. split; [eexists; reflexivity | apply quiet_refl].
  - do 2 eexists. split; [reflexivity|]. split; [eexists; reflexivity | apply quiet_refl].
Qed.

Lemma nodeWithScreen_spec fuel w node s :
  2 <= fuel ->
  exists node' s', nodeWithScreen fuel w node s = (Normal node', s') /\
    sameNode node node' /\ quiet s s'.
Proof.
  intros Hfuel. unfold nodeWithScreen.
  destruct (nodeSelector node) as [selector|].
  - destruct (capture_quiet fuel w selector defaultOptions s Hfuel) as (v & s' & Hc & Hq).
    unfold bind. rewrite Hc. do 2 eexists. split; [reflexivity|].
    split; [eexists; reflexivity | exact Hq].
  - do 2 eexists. split; [reflexivity|]. split; [eexists; reflexivity | apply quiet_refl].
Qed.

Lemma violationWithScreens_spec fuel w violation s :
  2 <= fuel ->
  exists violation' s', violationWithScreens fuel w violation s = (Normal violation', s') /\
    sameViolation violation violation' /\ quiet s s'.
Proof.
  intros Hfuel. unfold violationWithScreens.
  destruct (mapM_returns sameNode (nodeWithScreen fuel w)
              (fun a s => nodeWithScreen_spec fuel w a s Hfuel) (nodes violation) s)
    as (ns & s' & Hm & HF & Hq).
  unfold bind. rewrite Hm. do 2 eexists. split; [reflexivity|].
  split; [split; [reflexivity | exact HF] | exact Hq].
Qed.

Lemma runPa11y_spec w pa11yStandard s :
  runPa11y w pa11yStandard s =
    (Normal (pa11yOutcome w pa11yStandard),
     {| clock := S (clock s); log := EvPa11yTest pa11yStandard :: log s;
        locals := setPa11yResult (pa11yOutcome w pa11yStandard) (locals s) |}).
Proof.
  unfold runPa11y, pa11yOutcome, tryCatch, bind, perform, setLocals, ret.
  destruct (pa11y_test w pa11yStandard); reflexivity.
Qed.

Lemma runAxe_spec w axeTag s :
  exists s', runAxe w axeTag s = (Normal (axeOutcome w axeTag), s') /\
    locals s' = setAxeResults (axeOutcome w axeTag) (locals s) /\
    incl (EvAxeInject :: log s) (log s').
Proof.
  unfold runAxe, axeOutcome, axeAnswer, tryCatch, bind, perform, setLocals, ret.
  destruct (page_addScriptTag w); [destruct (axe_run w axeTag)|];
    (eexists; split; [reflexivity|]; split; [reflexivity|]);
    intros ? ?; cbn in *; tauto.
Qed.

Lemma detectChallenge_spec w s :
  exists s', detectChallenge w s = (verdict w, s') /\ quiet s s'.
Proof.
  unfold detectChallenge, verdict, wait, bind, perform, throw, ret.
  destruct (page_content w); cbn; [destruct (page_bodyText w); cbn;
    [destruct (challengeDetected _ _)|]|];
    (eexists; split; [reflexivity|]); (split; [intros ? ?; cbn; tauto | reflexivity]).
Qed.

Lemma bind_normal {A B} (m : M A) (k : A -> M B) s a s' :
  m s = (Normal a, s') -> bind m k s = k a s'.
Proof. intros H. unfold bind. now rewrite H. Qed.

Lemma bind_throw {A B} (m : M A) (k : A -> M B) s e s' :
  m s = (Throw e, s') -> bind m k s = (Throw e, s').
Proof. intros H. unfold bind. now rewrite H. Qed.

Lemma auditPage_spec fuel w wcagLevel s :
  2 <= fuel ->
  exists issues' violations' pageScreenshot s',
    Forall2 sameIssue
      (orEmpty (issues (pa11yOutcome w (pa11yStandardOf wcagLevel)))) issues' /\
    Forall2 sameViolation
      (orEmpty (violations (axeOutcome w (axeTagOf wcagLevel)))) violations' /\
    locals s' = auditedLocals (pa11yOutcome w (pa11yStandardOf wcagLevel))
                  (axeOutcome w (axeTagOf wcagLevel)) issues' violations' /\
    incl (EvAxeInject :: EvPa11yTest (pa11yStandardOf wcagLevel) :: log s) (log s') /\
    auditPage fuel w wcagLevel s =
      (match verdict w with
       | Normal _ =>
           Normal (fullResult (pa11yOutcome w (pa11yStandardOf wcagLevel))
                     (axeOutcome w (axeTagOf wcagLevel))
                     issues'
                     (map passedWithoutScreen
                        (orEmpty (passed (pa11yOutcome w (pa11yStandardOf wcagLevel)))))
                     violations'
                     (map passWithoutScreens
                        (orEmpty (passes (axeOutcome w (axeTagOf wcagLevel)))))
                     pageScreenshot)
       | Throw e => Throw e
       | Diverge => Diverge
       end, s').
Proof.
  intros Hfuel. unfold auditPage.
  set (p := pa11yOutcome w (pa11yStandardOf wcagLevel)).
  set (a := axeOutcome w (axeTagOf wcagLevel)).
  (* the page screenshot *)
  assert (Hshot : exists o s0,
    tryCatch (s <- perform EvScreenshotViewport (page_screenshotViewport w) ;; ret (Some s))
             (fun _ => ret None) s = (Normal o, s0) /\ quiet s s0).
  { unfold tryCatch, bind, perform, ret.
    destruct (page_screenshotViewport w (clock s));
      (do 2 eexists; split; [reflexivity|]; split; [intros ? ?; cbn; tauto | reflexivity]). }
  destruct Hshot as (o & s0 & Hshot & Hq0).
  rewrite (bind_normal _ _ _ _ _ Hshot).
  rewrite (bind_normal _ _ _ _ _ (runPa11y_spec w (pa11yStandardOf wcagLevel) s0)).
  fold p.
  set (s1 := {| clock := S (clock s0); log := _ :: log s0; locals := _ |}).
  destruct (runAxe_spec w (axeTagOf wcagLevel) s1) as (s2 & Hax & Hl2 & Hi2).
  rewrite (bind_normal _ _ _ _ _ Hax). fold a.
  destruct (mapM_returns sameIssue (issueWithScreen fuel w)
              (fun i s => issueWithScreen_spec fuel w i s Hfuel) (orEmpty (issues p)) s2)
    as (issues' & s3 & Hm3 & HF3 & Hq3).
  rewrite (bind_normal _ _ _ _ _ Hm3).
  unfold bind at 1, setLocals at 1. unfold bind at 1, setLocals at 1.
  set (s4 := {| clock := clock _; log := log _; locals := setPassedWithScreens _ _ |}).
  destruct (mapM_returns sameViolation (violationWithScreens fuel w)
              (fun v s => violationWithScreens_spec fuel w v s Hfuel)
              (orEmpty (violations a)) s4)
    as (violations' & s5 & Hm5 & HF5 & Hq5).
  rewrite (bind_normal _ _ _ _ _ Hm5).
  unfold bind at 1, setLocals at 1.
  set (s6 := {| clock := clock s5; log := log s5; locals := _ |}).
  destruct (detectChallenge_spec w s6) as (s7 & Hd & Hq7).
  exists issues', violations', o, s7.
  split; [exact HF3|]. split; [exact HF5|].
  split; [|split].
  - destruct Hq7 as [_ ->]. subst s6. cbn [locals].
    destruct Hq5 as [_ ->]. subst s4. cbn [locals].
    destruct Hq3 as [_ ->]. rewrite Hl2. subst s1. cbn [locals].
    reflexivity.
  - destruct Hq7 as [Hi7 _]. destruct Hq5 as [Hi5 _]. destruct Hq3 as [Hi3 _].
    destruct Hq0 as [Hi0 _].
    intros ev Hev. apply Hi7. subst s6. cbn [log]. apply Hi5. subst s4. cbn [log].
    apply Hi3. apply Hi2. subst s1. cbn [log].
    destruct Hev as [<-|[<-|Hev]]; cbn; auto.
  - unfold bind at 1. rewrite Hd.
    destruct (verdict w) as [[]| |]; reflexivity.
Qed.

(* ===================================================================== *)
(** ** Target validation *)
(* ===================================================================== *)

(** C2. The 172.16/12 test of [isPrivateIp] compares strings, not numbers:
    172.31.9.1 lies in 172.16/12 and is classified as allowed, and
    172.2.0.1 lies outside every listed range and is classified as
    private. *)
Theorem isPrivateIp_compares_strings :
  Net.parseIPv4 "172.31.9.1" = Some [172; 31; 9; 1]%N /\
  inPrivateRangeV4 [172; 31; 9; 1]%N = true /\
  isPrivateIp "172.31.9.1" = false /\
  Net.parseIPv4 "172.2.0.1" = Some [172; 2; 0; 1]%N /\
  inPrivateRangeV4 [172; 2; 0; 1]%N = false /\
  isPrivateIp "172.2.0.1" = true.
Proof. repeat split. Qed.

Lemma checkAddresses_accepts addresses s :
  anyPrivate addresses = false -> checkAddresses addresses s = (Normal tt, s).
Proof.
  unfold anyPrivate. induction addresses as [|a l IH]; cbn; intros H; [reflexivity|].
  apply orb_false_iff in H. destruct H as [Ha Hl]. rewrite Ha. exact (IH Hl).
Qed.

Lemma checkAddresses_rejects addresses s :
  anyPrivate addresses = true -> checkAddresses addresses s = (Throw privateTargetError, s).
Proof.
  unfold anyPrivate. induction addresses as [|a l IH]; cbn; intros H; [discriminate|].
  destruct (isPrivateIp (address a)); [reflexivity | exact (IH H)].
Qed.

Lemma validateTarget_accepts w url s :
  targetAccepted w url ->
  exists hostname,
    validateTarget w url s = (Normal tt, tick (EvDnsLookup hostname) (tick (EvParseUrl url) s)).
Proof.
  intros (hostname & addresses & Hu & Hd & Hp). exists hostname.
  unfold validateTarget, tryCatch, bind, perform. rewrite Hu. cbn. rewrite Hd.
  now rewrite (checkAddresses_accepts _ _ Hp).
Qed.

(** What the validator does reject, and when: before [puppeteer.launch]. *)
Lemma runScan_rejects_classified_targets fuel w url wcagLevel s hostname :
  url_hostname w url = Ok hostname ->
  (forall e, dns_lookup w hostname = Err e -> codeIs e "ENOTFOUND" = true ->
     exists s', runScan fuel w url wcagLevel s = (Throw invalidDomainError, s') /\
       countEvents isLaunch (log s') = countEvents isLaunch (log s)) /\
  (forall addresses, dns_lookup w hostname = Ok addresses -> anyPrivate addresses = true ->
     exists s', runScan fuel w url wcagLevel s = (Throw privateTargetError, s') /\
       countEvents isLaunch (log s') = countEvents isLaunch (log s)).
Proof.
  intros Hu. split.
  - intros e Hd He. eexists.
    unfold runScan, validateTarget, tryCatch, bind, perform, throw.
    rewrite Hu. cbn. rewrite Hd, He. split; reflexivity.
  - intros addresses Hd Hp. eexists.
    unfold runScan, validateTarget, tryCatch, bind, perform, throw.
    rewrite Hu. cbn. rewrite Hd. rewrite (checkAddresses_rejects _ _ Hp).
    split; reflexivity.
Qed.

(** Scenario 2: a host at 192.168.1.5 is rejected and no browser is
    launched; so is a host that does not resolve. *)
Lemma scenario_private_target_rejected :
  exists s',
    runScan 2 privateWorld "http://192.168.1.5" JsUndefined initialState
      = (Throw privateTargetError, s') /\
    countEvents isLaunch (log s') = 0.
Proof. eexists. split; [vm_compute; reflexivity | reflexivity]. Qed.

Lemma scenario_unresolved_target_rejected :
  exists s',
    runScan 2 unresolvedWorld "http://no-such-host.example" JsUndefined initialState
      = (Throw invalidDomainError, s') /\
    countEvents isLaunch (log s') = 0.
Proof. eexists. split; [vm_compute; reflexivity | reflexivity]. Qed.

(** C5. A target whose host resolves to 172.31.9.1, an address of
    172.16/12, is not rejected: [runScan] launches the browser, navigates
    to the target and resolves. *)
Theorem runScan_scans_internal_address :
  dns_lookup internalWorld "target.example"
    = Ok [{| address := "172.31.9.1"; family := 4 |}] /\
  Net.parseIPv4 "172.31.9.1" = Some [172; 31; 9; 1]%N /\
  inPrivateRangeV4 [172; 31; 9; 1]%N = true /\
  exists r s',
    runScan 2 internalWorld "http://internal.example" JsUndefined initialState
      = (Normal r, s') /\
    countEvents isLaunch (log s') = 1 /\
    In (EvGoto "http://internal.example") (log s').
Proof.
  repeat split. do 2 eexists. split; [vm_compute; reflexivity|].
  split; [reflexivity|]. cbn. tauto.
Qed.

Lemma openPage_ok w url s :
  pageOpens w url ->
  exists s', openPage w url s = (Normal tt, s') /\ quiet s s'.
Proof.
  intros (_ & H1 & H2 & H3 & H4 & H5 & H6 & H7).
  unfold openPage, wait, bind, perform. rewrite H1, H2, H3, H4, H5, H6, H7.
  eexists. split; [reflexivity|]. split; [intros ? ?; cbn; tauto | reflexivity].
Qed.

Lemma openPage_navigation_fails w url e s :
  navigationFails w url e ->
  openPage w url s =
    (Throw e, tick (EvGoto url) (tick EvSetHeaders
                (tick (EvSetUserAgent (getRandomUserAgent w))
                   (tick EvSetViewport (tick EvNewPage s))))).
Proof.
  intros (_ & H1 & H2 & H3 & H4 & H5).
  unfold openPage, wait, bind, perform. rewrite H1, H2, H3, H4, H5. reflexivity.
Qed.

(** C4 as stated fails: in a world where [page.goto] runs into its timeout,
    [runScan] does not throw. *)
Lemma navigation_timeout_returned :
  page_goto timeoutWorld "https://slow.example" = Err timeoutError /\
  ~ (exists e s',
       runScan 2 timeoutWorld "https://slow.example" JsUndefined initialState
         = (Throw e, s')).
Proof.
  split; [reflexivity|]. intros (e & s' & H). vm_compute in H. discriminate H.
Qed.

(** C4, amended. When the target is accepted, the page is set up and
    [page.goto] throws (its timeout, or any other error), [runScan] does not
    reject. The [catch] block turns the error into a returned result: the
    axe section carries the error's message as its error indicator, both
    sections have empty findings, there is no page screenshot, no engine
    was invoked, and the browser was closed last. *)
Theorem navigation_failure_in_result fuel w url wcagLevel e s :
  targetAccepted w url -> navigationFails w url e -> browser_close w = Ok tt ->
  exists s',
    runScan fuel w url wcagLevel s =
      (Normal {| pa11y := {| issues := Some []; passed := Some []; notices := None;
                             warnings := None; pa11y_error := None |};
                 axe := {| violations := Some []; passes := None; incomplete := None;
                           axe_error := Some (err_message e) |};
                 pageScreenshot := ShotAbsent |}, s') /\
    countEvents isEngineCall (log s') = countEvents isEngineCall (log s) /\
    hd_error (log s') = Some EvBrowserClose.
Proof.
  intros Ht Hn Hc.
  destruct (validateTarget_accepts w url s Ht) as (hostname & Hv).
  unfold runScan. rewrite (bind_normal _ _ _ _ _ Hv).
  unfold bind at 1, perform at 1. destruct Hn as (Hl & Hn). rewrite Hl.
  unfold bind at 1, setLocals at 1.
  unfold tryFinally, tryCatch, scanPage.
  erewrite bind_throw by (apply openPage_navigation_fails; split; eassumption).
  unfold scanCatch, bind, setLocals, getLocals, ret, perform. cbn. rewrite Hc.
  eexists. split; [reflexivity|]. split; reflexivity.
Qed.

(** C4, amended, at the world of the navigation timeout. *)
Lemma navigation_failure_in_result_witness :
  targetAccepted timeoutWorld "https://slow.example" /\
  navigationFails timeoutWorld "https://slow.example" timeoutError /\
  browser_close timeoutWorld = Ok tt /\
  exists s',
    runScan 2 timeoutWorld "https://slow.example" JsUndefined initialState =
      (Normal {| pa11y := {| issues := Some []; passed := Some []; notices := None;
                             warnings := None; pa11y_error := None |};
                 axe := {| violations := Some []; passes := None; incomplete := None;
                           axe_error := Some (err_message timeoutError) |};
                 pageScreenshot := ShotAbsent |}, s') /\
    countEvents isEngineCall (log s') = countEvents isEngineCall (log initialState) /\
    hd_error (log s') = Some EvBrowserClose.
Proof.
  assert (Ht : targetAccepted timeoutWorld "https://slow.example").
  { exists "target.example", publicAddress. repeat split. }
  assert (Hn : navigationFails timeoutWorld "https://slow.example" timeoutError).
  { repeat split. }
  split; [exact Ht|]. split; [exact Hn|]. split; [reflexivity|].
  exact (navigation_failure_in_result 2 timeoutWorld "https://slow.example" JsUndefined
           timeoutError initialState Ht Hn eq_refl).
Defined.

(** When the check classifies the page as blocked, the [try] block ends
    by throwing the Cloudflare error; by then Pa11y was run and axe was
    injected. *)
Lemma scanPage_throws_on_challenge fuel w url wcagLevel pageContent bodyText s :
  2 <= fuel -> pageOpens w url ->
  page_content w = Ok pageContent -> page_bodyText w = Ok bodyText ->
  challengeDetected pageContent bodyText = true ->
  exists s', scanPage fuel w url wcagLevel s = (Throw cloudflareError, s') /\
    In (EvPa11yTest (pa11yStandardOf wcagLevel)) (log s') /\
    In EvAxeInject (log s').
Proof.
  intros Hfuel Hp Hc Hb Hd.
  assert (Hv : verdict w = Throw cloudflareError).
  { unfold verdict. now rewrite Hc, Hb, Hd. }
  destruct (openPage_ok w url s Hp) as (s1 & Ho & _).
  destruct (auditPage_spec fuel w wcagLevel s1 Hfuel)
    as (issues' & violations' & shot & s2 & _ & _ & _ & Hi & Ha).
  rewrite Hv in Ha. exists s2. unfold scanPage.
  rewrite (bind_normal _ _ _ _ _ Ho). split; [exact Ha|].
  split; apply Hi; cbn; tauto.
Qed.

(** C1. At scenario 3 the content has the phrase, the visible text has
    length 8 and the detector says blocked. The [try] block does throw the
    Cloudflare error, from any state, but its own [catch] block takes it:
    [runScan] does not throw, it resolves. The engines were not left
    alone either: by then Pa11y was run and axe was injected and run. As
    [axeResults] is set when the error arrives, the returned object does
    not carry its message: neither section has an error, and there is no
    page screenshot. The browser was closed last. *)
Theorem challenge_error_swallowed :
  page_content challengeWorld = Ok challengeContent /\
  page_bodyText challengeWorld = Ok challengeBodyText /\
  Js.includes (Js.toLowerCase challengeContent) "checking your browser before accessing" = true /\
  String.length challengeBodyText = 8 /\
  challengeDetected challengeContent challengeBodyText = true /\
  (forall s, exists s',
     scanPage 2 challengeWorld "https://target.example" (JsString "AA") s
       = (Throw cloudflareError, s')) /\
  ~ (exists e s',
       runScan 2 challengeWorld "https://target.example" JsUndefined initialState
         = (Throw e, s')) /\
  (exists r s',
     runScan 2 challengeWorld "https://target.example" JsUndefined initialState
       = (Normal r, s') /\
     pa11y_error (pa11y r) = None /\
     axe_error (axe r) = None /\
     pageScreenshot r = ShotAbsent /\
     engineCalls s' = [EvAxeRun "wcag2aa"; EvAxeInject; EvPa11yTest "WCAG2AA"] /\
     hd_error (log s') = Some EvBrowserClose).
Proof.
  assert (Hd : challengeDetected challengeContent challengeBodyText = true).
  { vm_compute. reflexivity. }
  split; [reflexivity|]. split; [reflexivity|]. split; [reflexivity|].
  split; [reflexivity|]. split; [exact Hd|]. split; [|split].
  - intros s.
    destruct (scanPage_throws_on_challenge 2 challengeWorld "https://target.example"
                (JsString "AA") challengeContent challengeBodyText s)
      as (s' & Hs & _); [lia | repeat split | reflexivity | reflexivity | exact Hd |].
    exists s'. exact Hs.
  - intros (e & s' & H). vm_compute in H. discriminate H.
  - do 2 eexists. split; [vm_compute; reflexivity|]. repeat split.
Qed.

Lemma verdict_returns_or_throws w : verdict w <> Diverge.
Proof.
  unfold verdict. destruct (page_content w); [destruct (page_bodyText w);
    [destruct (challengeDetected _ _)|]|]; discriminate.
Qed.

(** Where the scan gets as far as the engines and the browser closes,
    [runScan] resolves, with one of two shapes of result. *)
Lemma runScan_resolves fuel w url wcagLevel s :
  2 <= fuel -> targetAccepted w url -> pageOpens w url -> browser_close w = Ok tt ->
  exists issues' violations' r s',
    runScan fuel w url wcagLevel s = (Normal r, s') /\
    Forall2 sameIssue
      (orEmpty (issues (pa11yOutcome w (pa11yStandardOf (defaultLevel wcagLevel))))) issues' /\
    Forall2 sameViolation
      (orEmpty (violations (axeOutcome w (axeTagOf (defaultLevel wcagLevel))))) violations' /\
    ((exists pageScreenshot,
        r = fullResult (pa11yOutcome w (pa11yStandardOf (defaultLevel wcagLevel)))
              (axeOutcome w (axeTagOf (defaultLevel wcagLevel)))
              issues'
              (map passedWithoutScreen
                 (orEmpty (passed (pa11yOutcome w (pa11yStandardOf (defaultLevel wcagLevel))))))
              violations'
              (map passWithoutScreens
                 (orEmpty (passes (axeOutcome w (axeTagOf (defaultLevel wcagLevel))))))
              pageScreenshot) \/
     r = partialResult
           (auditedLocals (pa11yOutcome w (pa11yStandardOf (defaultLevel wcagLevel)))
              (axeOutcome w (axeTagOf (defaultLevel wcagLevel))) issues' violations')).
Proof.
  intros Hfuel Ht Hp Hc.
  destruct (validateTarget_accepts w url s Ht) as (hostname & Hval).
  unfold runScan. rewrite (bind_normal _ _ _ _ _ Hval).
  unfold bind at 1, perform at 1. destruct (Hp) as (Hl & _). rewrite Hl.
  unfold bind at 1, setLocals at 1.
  match goal with |- exists _ _ _ _, tryFinally _ _ ?s0 = _ /\ _ => set (s1 := s0) end.
  destruct (openPage_ok w url s1 Hp) as (s2 & Ho & _).
  destruct (auditPage_spec fuel w (defaultLevel wcagLevel) s2 Hfuel)
    as (issues' & violations' & shot & s3 & HF1 & HF2 & Hloc & _ & Ha).
  exists issues', violations'.
  unfold tryFinally, tryCatch, scanPage. rewrite (bind_normal _ _ _ _ _ Ho), Ha.
  destruct (verdict w) as [[]|e|] eqn:Hv.
  - unfold perform. rewrite Hc. do 2 eexists. split; [reflexivity|].
    split; [exact HF1|]. split; [exact HF2|]. left. exists shot. reflexivity.
  - unfold scanCatch, bind, setLocals, getLocals, ret, perform. cbn. rewrite Hc, Hloc.
    do 2 eexists. split; [reflexivity|].
    split; [exact HF1|]. split; [exact HF2|]. right. reflexivity.
  - exfalso. exact (verdict_returns_or_throws w Hv).
Qed.

(** C6. When the scan reaches the engines and exactly one of them throws,
    [runScan] still resolves. The section of the engine that threw has
    empty lists and, as its [error] property, the message of what was
    thrown. The section of the other engine has all its findings: each
    issue or violation node is the engine's own but for its [screenshot]
    property, in the same order, and the other properties are the
    engine's. This holds whatever the challenge check does afterwards. *)
Theorem engine_failure_isolated fuel w url wcagLevel s :
  2 <= fuel -> targetAccepted w url -> pageOpens w url -> browser_close w = Ok tt ->
  (forall e a,
     pa11y_test w (pa11yStandardOf (defaultLevel wcagLevel)) = Err e ->
     axeAnswer w (axeTagOf (defaultLevel wcagLevel)) = Ok a ->
     exists r s' violations',
       runScan fuel w url wcagLevel s = (Normal r, s') /\
       pa11y r = {| issues := Some []; passed := Some []; notices := Some [];
                    warnings := Some []; pa11y_error := Some (err_message e) |} /\
       violations (axe r) = Some violations' /\
       Forall2 sameViolation (orEmpty (violations a)) violations' /\
       (passes (axe r) = passes a \/
        passes (axe r) = Some (map passWithoutScreens (orEmpty (passes a)))) /\
       incomplete (axe r) = incomplete a /\
       axe_error (axe r) = axe_error a) /\
  (forall p e,
     pa11y_test w (pa11yStandardOf (defaultLevel wcagLevel)) = Ok p ->
     axeAnswer w (axeTagOf (defaultLevel wcagLevel)) = Err e ->
     exists r s' issues',
       runScan fuel w url wcagLevel s = (Normal r, s') /\
       axe r = {| violations := Some []; passes := Some []; incomplete := Some [];
                  axe_error := Some (err_message e) |} /\
       issues (pa11y r) = Some issues' /\
       Forall2 sameIssue (orEmpty (issues p)) issues' /\
       passed (pa11y r) = Some (map passedWithoutScreen (orEmpty (passed p))) /\
       notices (pa11y r) = notices p /\
       warnings (pa11y r) = warnings p /\
       pa11y_error (pa11y r) = pa11y_error p).
Proof.
  intros Hfuel Ht Hp Hc.
  destruct (runScan_resolves fuel w url wcagLevel s Hfuel Ht Hp Hc)
    as (issues' & violations' & r & s' & Hrun & HF1 & HF2 & Hr).
  split.
  - intros e a Hpa Hax. unfold pa11yOutcome, axeOutcome in *. rewrite Hpa in *. rewrite Hax in *.
    cbn in HF1. inversion HF1; subst issues'.
    exists r, s', violations'. split; [exact Hrun|].
    destruct Hr as [[shot ->] | ->]; cbn; repeat split; auto.
  - intros p e Hpa Hax. unfold pa11yOutcome, axeOutcome in *. rewrite Hpa in *. rewrite Hax in *.
    cbn in HF2. inversion HF2; subst violations'.
    exists r, s', issues'. split; [exact Hrun|].
    destruct Hr as [[shot ->] | ->]; cbn; repeat split; auto.
Qed.

(** C6 at a world where Pa11y throws and at a world where axe throws. *)
Lemma engine_failure_isolated_witness :
  (2 <= 2 /\ targetAccepted pa11yFailsWorld "https://target.example" /\
   pageOpens pa11yFailsWorld "https://target.example" /\
   browser_close pa11yFailsWorld = Ok tt /\
   pa11y_test pa11yFailsWorld (pa11yStandardOf (defaultLevel JsUndefined)) = Err engineError /\
   axeAnswer pa11yFailsWorld (axeTagOf (defaultLevel JsUndefined)) = Ok sampleAxe /\
   exists r s' violations',
     runScan 2 pa11yFailsWorld "https://target.example" JsUndefined initialState
       = (Normal r, s') /\
     pa11y r = {| issues := Some []; passed := Some []; notices := Some [];
                  warnings := Some []; pa11y_error := Some (err_message engineError) |} /\
     violations (axe r) = Some violations' /\
     Forall2 sameViolation (orEmpty (violations sampleAxe)) violations' /\
     (passes (axe r) = passes sampleAxe \/
      passes (axe r) = Some (map passWithoutScreens (orEmpty (passes sampleAxe)))) /\
     incomplete (axe r) = incomplete sampleAxe /\
     axe_error (axe r) = axe_error sampleAxe) /\
  (targetAccepted axeFailsWorld "https://target.example" /\
   pageOpens axeFailsWorld "https://target.example" /\
   browser_close axeFailsWorld = Ok tt /\
   pa11y_test axeFailsWorld (pa11yStandardOf (defaultLevel JsUndefined)) = Ok samplePa11y /\
   axeAnswer axeFailsWorld (axeTagOf (defaultLevel JsUndefined)) = Err engineError /\
   exists r s' issues',
     runScan 2 axeFailsWorld "https://target.example" JsUndefined initialState
       = (Normal r, s') /\
     axe r = {| violations := Some []; passes := Some []; incomplete := Some [];
                axe_error := Some (err_message engineError) |} /\
     issues (pa11y r) = Some issues' /\
     Forall2 sameIssue (orEmpty (issues samplePa11y)) issues' /\
     passed (pa11y r) = Some (map passedWithoutScreen (orEmpty (passed samplePa11y))) /\
     notices (pa11y r) = notices samplePa11y /\
     warnings (pa11y r) = warnings samplePa11y /\
     pa11y_error (pa11y r) = pa11y_error samplePa11y).
Proof.
  assert (Hf : 2 <= 2) by lia.
  assert (Ht1 : targetAccepted pa11yFailsWorld "https://target.example").
  { exists "target.example", publicAddress. repeat split. }
  assert (Hp1 : pageOpens pa11yFailsWorld "https://target.example").
  { repeat split. }
  assert (Ht2 : targetAccepted axeFailsWorld "https://target.example").
  { exists "target.example", publicAddress. repeat split. }
  assert (Hp2 : pageOpens axeFailsWorld "https://target.example").
  { repeat split. }
  split.
  - split; [exact Hf|]. split; [exact Ht1|]. split; [exact Hp1|].
    split; [reflexivity|]. split; [reflexivity|]. split; [reflexivity|].
    exact (proj1 (engine_failure_isolated 2 pa11yFailsWorld "https://target.example"
                    JsUndefined initialState Hf Ht1 Hp1 eq_refl)
             engineError sampleAxe eq_refl eq_refl).
  - split; [exact Ht2|]. split; [exact Hp2|].
    split; [reflexivity|]. split; [reflexivity|]. split; [reflexivity|].
    exact (proj2 (engine_failure_isolated 2 axeFailsWorld "https://target.example"
                    JsUndefined initialState Hf Ht2 Hp2 eq_refl)
             samplePa11y engineError eq_refl eq_refl).
Defined.

(** Which engine calls a computation makes. *)
Lemma adds_ret {A} (a : A) : adds [] (ret a).
Proof. intros s. reflexivity. Qed.

Lemma adds_throw {A} e : adds [] (@throw A e).
Proof. intros s. reflexivity. Qed.

Lemma adds_diverge {A} : adds [] (@diverge A).
Proof. intros s. reflexivity. Qed.

Lemma adds_setLocals f : adds [] (setLocals f).
Proof. intros s. reflexivity. Qed.

Lemma adds_getLocals : adds [] getLocals.
Proof. intros s. reflexivity. Qed.

Lemma adds_perform {A} ev (oracle : nat -> Result A) :
  isEngineCall ev = false -> adds [] (perform ev oracle).
Proof.
  intros Hev s. unfold perform, engineCalls.
  destruct (oracle (clock s)); cbn; now rewrite Hev.
Qed.

Lemma adds_note ev : isEngineCall ev = false -> adds [] (note ev).
Proof. intros Hev s. unfold note, engineCalls. cbn. now rewrite Hev. Qed.

Lemma adds_bind {A B} (m : M A) (k : A -> M B) :
  adds [] m -> (forall a, adds [] (k a)) -> adds [] (bind m k).
Proof.
  intros Hm Hk s. unfold bind. specialize (Hm s).
  destruct (m s) as [[a|e|] s1]; cbn [snd] in *; [|exact Hm|exact Hm].
  rewrite (Hk a s1). exact Hm.
Qed.

Lemma adds_tryCatch {A} calls (body : M A) handler :
  adds calls body -> (forall e, adds [] (handler e)) -> adds calls (tryCatch body handler).
Proof.
  intros Hb Hh s. unfold tryCatch. specialize (Hb s).
  destruct (body s) as [[a|e|] s1]; cbn [snd] in *; [exact Hb| |exact Hb].
  rewrite (Hh e s1). exact Hb.
Qed.

Lemma adds_tryFinally {A} calls (body : M A) fin :
  adds calls body -> adds [] fin -> adds calls (tryFinally body fin).
Proof.
  intros Hb Hf s. unfold tryFinally. specialize (Hb s).
  destruct (body s) as [[a|e|] s1]; cbn [snd] in *; [| |exact Hb];
    specialize (Hf s1); destruct (fin s1) as [[[]|e'|] s2]; cbn [snd] in *;
    rewrite Hf; exact Hb.
Qed.

Lemma adds_mapM {A B} (f : A -> M B) :
  (forall a, adds [] (f a)) -> forall xs, adds [] (mapM f xs).
Proof.
  intros Hf. induction xs as [|x xs IH]; cbn [mapM]; [apply adds_ret|].
  apply adds_bind; [apply Hf|]. intros y.
  apply adds_bind; [exact IH|]. intros ys. apply adds_ret.
Qed.

(** Steps through a computation built from calls that are not engine
    calls. *)
Ltac no_engine_call :=
  repeat first
    [ apply adds_ret | apply adds_throw | apply adds_diverge
    | apply adds_setLocals | apply adds_getLocals
    | apply adds_perform; reflexivity
    | apply adds_note; reflexivity
    | apply adds_bind; [|intro]
    | apply adds_tryCatch; [|intro]
    | assumption
    | match goal with
      | |- adds [] (match ?x with _ => _ end) => destruct x
      | |- adds [] (if ?b then _ else _) => destruct b
      end ].

Lemma attemptBody_no_engine_call w selector o : adds [] (attemptBody w selector o).
Proof. unfold attemptBody, boundingBox, dispose, wait. no_engine_call. Qed.

Lemma attemptCatch_no_engine_call w o attempt e : adds [] (attemptCatch w o attempt e).
Proof. unfold attemptCatch. no_engine_call. Qed.

Lemma attempts_no_engine_call self w selector o :
  (forall selector' o', adds [] (self selector' o')) ->
  forall remaining attempt, adds [] (attempts self w selector o remaining attempt).
Proof.
  intros Hself. induction remaining as [|remaining IH]; intros attempt; cbn [attempts].
  - apply adds_ret.
  - apply adds_bind.
    + apply adds_tryCatch; [apply attemptBody_no_engine_call|].
      intros e. apply attemptCatch_no_engine_call.
    + intros [v|selector' o'|]; [apply adds_ret | apply Hself | apply IH].
Qed.

Lemma capture_no_engine_call fuel w :
  forall selector o, adds [] (getElementScreenshot fuel w selector o).
Proof.
  induction fuel as [|fuel IH]; intros selector o; cbn [getElementScreenshot].
  - apply adds_diverge.
  - apply adds_bind; [apply adds_note; reflexivity|]. intros _.
    apply attempts_no_engine_call. exact IH.
Qed.

Lemma validateTarget_no_engine_call w url : adds [] (validateTarget w url).
Proof.
  unfold validateTarget. apply adds_tryCatch.
  - apply adds_bind; [apply adds_perform; reflexivity|]. intros hostname.
    apply adds_bind; [apply adds_perform; reflexivity|]. intros addresses.
    induction addresses as [|a addresses IH]; cbn [checkAddresses]; no_engine_call.
  - intros e. no_engine_call.
Qed.

Lemma openPage_no_engine_call w url : adds [] (openPage w url).
Proof. unfold openPage, wait. no_engine_call. Qed.

Lemma scanCatch_no_engine_call e : adds [] (scanCatch e).
Proof. unfold scanCatch. no_engine_call. Qed.

Lemma detectChallenge_no_engine_call w : adds [] (detectChallenge w).
Proof. unfold detectChallenge, wait. no_engine_call. Qed.

Lemma auditPage_engine_calls fuel w wcagLevel :
  adds (auditCalls w wcagLevel) (auditPage fuel w wcagLevel).
Proof.
  intros s. unfold auditPage.
  assert (Hrest : forall pageScreenshot pa11yResult axeResults,
    adds []
      (pa11yIssuesWithScreens <-
         mapM (issueWithScreen fuel w) (orEmpty (issues pa11yResult)) ;;
       setLocals (setIssuesWithScreens pa11yIssuesWithScreens) ;;
       setLocals (setPassedWithScreens
                    (map passedWithoutScreen (orEmpty (passed pa11yResult)))) ;;
       axeViolationsWithScreens <-
         mapM (violationWithScreens fuel w) (orEmpty (violations axeResults)) ;;
       setLocals (setViolationsWithScreens axeViolationsWithScreens) ;;
       detectChallenge w ;;
       ret (fullResult pa11yResult axeResults pa11yIssuesWithScreens
              (map passedWithoutScreen (orEmpty (passed pa11yResult)))
              axeViolationsWithScreens
              (map passWithoutScreens (orEmpty (passes axeResults))) pageScreenshot))).
  { intros pageScreenshot pa11yResult axeResults.
    apply adds_bind.
    { apply adds_mapM. intros issue. unfold issueWithScreen.
      destruct (issue_selector issue) as [selector|]; [|apply adds_ret].
      destruct (Js.truthy (Some selector)); [|apply adds_ret].
      apply adds_bind; [apply capture_no_engine_call | intro; apply adds_ret]. }
    intros issues'. apply adds_bind; [apply adds_setLocals|]. intros _.
    apply adds_bind; [apply adds_setLocals|]. intros _.
    apply adds_bind.
    { apply adds_mapM. intros violation. unfold violationWithScreens.
      apply adds_bind; [|intro; apply adds_ret].
      apply adds_mapM. intros node. unfold nodeWithScreen.
      destruct (nodeSelector node) as [selector|]; [|apply adds_ret].
      apply adds_bind; [apply capture_no_engine_call | intro; apply adds_ret]. }
    intros violations'. apply adds_bind; [apply adds_setLocals|]. intros _.
    apply adds_bind; [apply detectChallenge_no_engine_call|]. intros _. apply adds_ret. }
  unfold bind at 1.
  assert (Hshot : exists o s0,
    tryCatch (s <- perform EvScreenshotViewport (page_screenshotViewport w) ;; ret (Some s))
             (fun _ => ret None) s = (Normal o, s0) /\ engineCalls s0 = engineCalls s).
  { unfold tryCatch, bind, perform, ret.
    destruct (page_screenshotViewport w (clock s)); do 2 eexists; split; reflexivity. }
  destruct Hshot as (o & s0 & -> & H0).
  unfold bind at 1. rewrite runPa11y_spec.
  set (s1 := {| clock := S (clock s0); log := _ :: log s0; locals := _ |}).
  assert (H1 : engineCalls s1 = EvPa11yTest (pa11yStandardOf wcagLevel) :: engineCalls s).
  { unfold engineCalls, s1. cbn. fold (engineCalls s0). now rewrite H0. }
  clearbody s1.
  assert (Haxe : exists s2,
    runAxe w (axeTagOf wcagLevel) s1 = (Normal (axeOutcome w (axeTagOf wcagLevel)), s2) /\
    engineCalls s2 = (auditCalls w wcagLevel ++ engineCalls s)%list).
  { unfold runAxe, axeOutcome, axeAnswer, auditCalls, tryCatch, bind, perform, setLocals, ret.
    destruct (page_addScriptTag w); [destruct (axe_run w (axeTagOf wcagLevel))|];
      eexists; (split; [reflexivity|]); unfold engineCalls; cbn;
      fold (engineCalls s1); now rewrite H1. }
  destruct Haxe as (s2 & Hax & H2).
  unfold bind at 1. rewrite Hax.
  rewrite (Hrest o _ _ s2). exact H2.
Qed.

Lemma runScan_engine_calls fuel w url wcagLevel s :
  targetAccepted w url -> pageOpens w url ->
  engineCalls (snd (runScan fuel w url wcagLevel s))
    = (auditCalls w (defaultLevel wcagLevel) ++ engineCalls s)%list.
Proof.
  intros Ht Hp.
  destruct (validateTarget_accepts w url s Ht) as (hostname & Hval).
  unfold runScan. rewrite (bind_normal _ _ _ _ _ Hval).
  unfold bind at 1, perform at 1. destruct (Hp) as (Hl & _). rewrite Hl.
  unfold bind at 1, setLocals at 1.
  match goal with |- context [tryFinally _ _ ?s0] => set (s1 := s0) end.
  assert (Hbody : adds (auditCalls w (defaultLevel wcagLevel))
                    (scanPage fuel w url (defaultLevel wcagLevel))).
  { intros s0. unfold scanPage.
    destruct (openPage_ok w url s0 Hp) as (s2 & Ho & _).
    rewrite (bind_normal _ _ _ _ _ Ho).
    rewrite (auditPage_engine_calls fuel w (defaultLevel wcagLevel) s2).
    pose proof (openPage_no_engine_call w url s0) as Hq. rewrite Ho in Hq.
    cbn [snd app] in Hq. now rewrite Hq. }
  rewrite (adds_tryFinally _ _ _
             (adds_tryCatch _ _ _ Hbody scanCatch_no_engine_call)
             (adds_perform EvBrowserClose (fun _ => browser_close w) eq_refl) s1).
  reflexivity.
Qed.

(** C10. For every [wcagLevel] argument other than the string [AAA],
    including [undefined] (omitted), a number, [null] or an unknown string,
    the identifiers are Pa11y's [WCAG2AA] and axe's [wcag2aa], and the
    whole run is the run of [AA]: no value is rejected. On a target that
    is accepted and a page that opens, the engine calls of [runScan] are
    then exactly these: Pa11y is run with [WCAG2AA], axe is injected and,
    if the injection succeeded, run with [wcag2aa]. *)
Theorem unknown_level_runs_AA wcagLevel :
  wcagLevel <> JsString "AAA" ->
  pa11yStandardOf (defaultLevel wcagLevel) = "WCAG2AA" /\
  axeTagOf (defaultLevel wcagLevel) = "wcag2aa" /\
  (forall fuel w url s,
     runScan fuel w url wcagLevel s = runScan fuel w url (JsString "AA") s) /\
  (forall w s,
     log (snd (runPa11y w (pa11yStandardOf (defaultLevel wcagLevel)) s))
       = EvPa11yTest "WCAG2AA" :: log s) /\
  (forall w s a, axeAnswer w "wcag2aa" = Ok a ->
     log (snd (runAxe w (axeTagOf (defaultLevel wcagLevel)) s))
       = EvAxeRun "wcag2aa" :: EvAxeInject :: log s) /\
  (forall fuel w url s, targetAccepted w url -> pageOpens w url ->
     engineCalls (snd (runScan fuel w url wcagLevel s))
       = (match page_addScriptTag w with
          | Ok _ => [EvAxeRun "wcag2aa"]
          | Err _ => []
          end ++ [EvAxeInject; EvPa11yTest "WCAG2AA"] ++ engineCalls s)%list).
Proof.
  intros Hne.
  assert (Hno : isAAA (defaultLevel wcagLevel) = false).
  { destruct wcagLevel as [| |b|n|str|]; try reflexivity. cbn.
    apply String.eqb_neq. intros ->. now apply Hne. }
  assert (Hstd : pa11yStandardOf (defaultLevel wcagLevel) = "WCAG2AA").
  { unfold pa11yStandardOf. now rewrite Hno. }
  assert (Htag : axeTagOf (defaultLevel wcagLevel) = "wcag2aa").
  { unfold axeTagOf. now rewrite Hno. }
  split; [exact Hstd|]. split; [exact Htag|]. split; [|split; [|split]].
  - intros fuel w url s. unfold runScan, scanPage, auditPage.
    rewrite Hstd, Htag. reflexivity.
  - intros w s. rewrite Hstd, runPa11y_spec. reflexivity.
  - intros w s a Ha. rewrite Htag.
    unfold axeAnswer in Ha. unfold runAxe, tryCatch, bind, perform, setLocals, ret.
    destruct (page_addScriptTag w); [|discriminate]. cbn. rewrite Ha. reflexivity.
  - intros fuel w url s Ht Hp.
    rewrite (runScan_engine_calls fuel w url wcagLevel s Ht Hp).
    unfold auditCalls. rewrite Hstd, Htag, <- app_assoc. reflexivity.
Qed.

(** C10 at the unknown level [A]. *)
Lemma unknown_level_runs_AA_witness :
  JsString "A" <> JsString "AAA" /\
  pa11yStandardOf (defaultLevel (JsString "A")) = "WCAG2AA" /\
  axeTagOf (defaultLevel (JsString "A")) = "wcag2aa" /\
  (forall fuel w url s,
     runScan fuel w url (JsString "A") s = runScan fuel w url (JsString "AA") s) /\
  (forall w s,
     log (snd (runPa11y w (pa11yStandardOf (defaultLevel (JsString "A"))) s))
       = EvPa11yTest "WCAG2AA" :: log s) /\
  (forall w s a, axeAnswer w "wcag2aa" = Ok a ->
     log (snd (runAxe w (axeTagOf (defaultLevel (JsString "A"))) s))
       = EvAxeRun "wcag2aa" :: EvAxeInject :: log s) /\
  (forall fuel w url s, targetAccepted w url -> pageOpens w url ->
     engineCalls (snd (runScan fuel w url (JsString "A") s))
       = (match page_addScriptTag w with
          | Ok _ => [EvAxeRun "wcag2aa"]
          | Err _ => []
          end ++ [EvAxeInject; EvPa11yTest "WCAG2AA"] ++ engineCalls s)%list).
Proof.
  assert (H : JsString "A" <> JsString "AAA") by discriminate.
  split; [exact H|]. exact (unknown_level_runs_AA (JsString "A") H).
Defined.

(* ===================================================================== *)
(** ** The public-tier rate limit *)
(* ===================================================================== *)

Lemma newest_spec rs :
  match newest rs with
  | Some r => In r rs /\ forall r', In r' rs -> (createdAt r' <= createdAt r)%Z
  | None => rs = []
  end.
Proof.
  induction rs as [|r rs IH]; cbn; [reflexivity|].
  destruct (newest rs) as [r0|].
  - destruct IH as [Hin Hmax].
    destruct (Z.ltb_spec (createdAt r) (createdAt r0)).
    + split; [right; exact Hin|]. intros r' [<-|H']; [lia | exact (Hmax r' H')].
    + split; [left; reflexivity|]. intros r' [<-|H']; [lia|].
      specialize (Hmax r' H'). lia.
  - subst rs. split; [left; reflexivity|]. intros r' [<-|[]]. lia.
Qed.

Lemma findLastPublic_most_recent db email last :
  In last db -> isPublicBy email last = true ->
  (forall r, In r db -> isPublicBy email r = true -> (createdAt r <= createdAt last)%Z) ->
  exists found, findLastPublic db email = Some found /\ createdAt found = createdAt last.
Proof.
  intros Hin Hpub Hmax. unfold findLastPublic.
  pose proof (newest_spec (filter (isPublicBy email) db)) as Hn.
  assert (Hlast : In last (filter (isPublicBy email) db)).
  { apply filter_In. split; assumption. }
  destruct (newest (filter (isPublicBy email) db)) as [found|].
  - destruct Hn as [Hf Hge]. exists found. split; [reflexivity|].
    apply filter_In in Hf. destruct Hf as [Hf1 Hf2].
    specialize (Hmax found Hf1 Hf2). specialize (Hge last Hlast). lia.
  - rewrite Hn in Hlast. destruct Hlast.
Qed.

Lemma filter_isPublicBy_admin db now url who email :
  filter (isPublicBy email) (saveReport db now url who "admin")
    = filter (isPublicBy email) db.
Proof.
  unfold saveReport. rewrite filter_app. cbn.
  unfold isPublicBy at 2. cbn. rewrite andb_false_r. apply app_nil_r.
Qed.

(** C9. Let [last] be the requester's most recent public report. A public
    scan request at most 24 hours after it is answered 429 and leaves the
    store as it is; a request more than 24 hours after it is accepted and
    adds a pending public report. The admin route accepts at any time, and
    admin reports never count against the limit. *)
Theorem public_rate_limit db now url email last :
  Js.truthy (Some url) = true -> Js.truthy (Some email) = true ->
  In last db -> isPublicBy email last = true ->
  (forall r, In r db -> isPublicBy email r = true -> (createdAt r <= createdAt last)%Z) ->
  ((now - createdAt last <= DAY_MS)%Z ->
     publicScan db now (Some url) (Some email) = (TooManyRequests, db)) /\
  ((now - createdAt last > DAY_MS)%Z ->
     publicScan db now (Some url) (Some email)
       = (ReportId (List.length db), saveReport db now url email "public")) /\
  adminScan db now (Some url) (Some email)
    = (ReportId (List.length db), saveReport db now url email "admin") /\
  (forall t u who,
     canScanToday (saveReport db t u who "admin") now email = canScanToday db now email).
Proof.
  intros Hu He Hin Hpub Hmax.
  destruct (findLastPublic_most_recent db email last Hin Hpub Hmax) as (found & Hf & Hc).
  unfold publicScan, adminScan, canScanToday. rewrite Hu, He, Hf, Hc. cbn [negb orb].
  split; [|split; [|split]].
  - intros H. destruct (Z.gtb_spec (now - createdAt last) DAY_MS); [lia | reflexivity].
  - intros H. destruct (Z.gtb_spec (now - createdAt last) DAY_MS); [reflexivity | lia].
  - reflexivity.
  - intros t u who. unfold findLastPublic.
    rewrite filter_isPublicBy_admin. fold (findLastPublic db email). now rewrite Hf, Hc.
Qed.

(** C9 exactly 24 hours, and one millisecond more, after the last report. *)
Lemma public_rate_limit_witness :
  Js.truthy (Some "https://example.com") = true /\
  Js.truthy (Some "a@example.org") = true /\
  In sampleReport sampleStore /\
  isPublicBy "a@example.org" sampleReport = true /\
  (forall r, In r sampleStore -> isPublicBy "a@example.org" r = true ->
     (createdAt r <= createdAt sampleReport)%Z) /\
  publicScan sampleStore (1000 + DAY_MS) (Some "https://example.com") (Some "a@example.org")
    = (TooManyRequests, sampleStore) /\
  publicScan sampleStore (1001 + DAY_MS) (Some "https://example.com") (Some "a@example.org")
    = (ReportId 1,
       saveReport sampleStore (1001 + DAY_MS) "https://example.com" "a@example.org" "public").
Proof.
  assert (Hin : In sampleReport sampleStore) by (left; reflexivity).
  assert (Hmax : forall r, In r sampleStore -> isPublicBy "a@example.org" r = true ->
                   (createdAt r <= createdAt sampleReport)%Z).
  { intros r [<-|[]] _. lia. }
  split; [reflexivity|]. split; [reflexivity|]. split; [exact Hin|].
  split; [reflexivity|]. split; [exact Hmax|]. split.
  - apply (proj1 (public_rate_limit sampleStore (1000 + DAY_MS) "https://example.com"
             "a@example.org" sampleReport eq_refl eq_refl Hin eq_refl Hmax)).
    vm_compute. discriminate.
  - apply (proj1 (proj2 (public_rate_limit sampleStore (1001 + DAY_MS) "https://example.com"
             "a@example.org" sampleReport eq_refl eq_refl Hin eq_refl Hmax))).
    vm_compute. reflexivity.
Defined.

(* ===================================================================== *)
(** ** Evidence capture: the paths of an attempt *)
(* ===================================================================== *)

Lemma advance_0 s : advance 0 [] s = s.
Proof. destruct s; reflexivity. Qed.

Lemma tick_advance ev n events s :
  tick ev (advance n events s) = advance (S n) (ev :: events) s.
Proof. reflexivity. Qed.

Lemma record_advance ev n events s :
  record ev (advance n events s) = advance n (ev :: events) s.
Proof. reflexivity. Qed.

Lemma repeat_shift {A} (a : A) k (l : list A) :
  (repeat a k ++ a :: l = repeat a (S k) ++ l)%list.
Proof.
  change (repeat a (S k) ++ l)%list with ((a :: repeat a k) ++ l)%list.
  rewrite repeat_cons, <- app_assoc. reflexivity.
Qed.

(** An attempt whose [page.$] throws, when it is not the last one, leaves
    the loop one iteration further. *)
Lemma attempts_query_throws self w selector o remaining attempt s e :
  page_query w (clock s) selector = Err e ->
  attempt <> maxAttempts o - 1 ->
  attempts self w selector o (S remaining) attempt s
    = attempts self w selector o remaining (S attempt) (tick (EvQuery selector) s).
Proof.
  intros Hq Hlast. cbn [attempts].
  unfold bind at 1, tryCatch, attemptBody. unfold bind at 1, perform at 1.
  rewrite Hq. unfold attemptCatch.
  destruct (Nat.eqb_spec attempt (maxAttempts o - 1)); [contradiction|]. reflexivity.
Qed.

Lemma attempts_skip self w selector o k :
  forall remaining attempt s,
    attempt + (k + remaining) = maxAttempts o -> 0 < remaining ->
    (forall j, j < k -> exists e, page_query w (j + clock s) selector = Err e) ->
    attempts self w selector o (k + remaining) attempt s
      = attempts self w selector o remaining (k + attempt)
          (advance k (repeat (EvQuery selector) k) s).
Proof.
  induction k as [|k IH]; intros remaining attempt s Hsum Hrem Hq.
  - cbn. now rewrite advance_0.
  - destruct (Hq 0) as (e & He); [lia|]. cbn in He.
    change (S k + remaining) with (S (k + remaining)).
    rewrite (attempts_query_throws _ _ _ _ _ _ _ e He) by lia.
    rewrite IH.
    + f_equal; [lia|]. unfold advance, tick. cbn [clock log locals]. f_equal.
      * lia.
      * apply repeat_shift.
    + lia.
    + exact Hrem.
    + intros j Hj. destruct (Hq (S j)) as (e' & He'); [lia|].
      exists e'. cbn [clock tick record]. rewrite Nat.add_succ_r. exact He'.
Qed.

Lemma attempts_success self w selector o remaining attempt s el box screenshot :
  attemptSucceeds w selector o (clock s) el box screenshot ->
  attempts self w selector o (S remaining) attempt s =
    (Normal (Some (dataUri screenshot)),
     advance 8 [EvDispose (ElementHandle el); EvUnhighlight selector;
                EvScreenshotClip (paddedClip box (viewportPadding o));
                EvHighlight selector; EvWait 100;
                EvScroll selector (viewportPadding o);
                EvBoundingBox (ElementHandle el); EvQuery selector] s).
Proof.
  intros (Hq & Hb & Hsmall & Hs & Hh & Hc & Hu & Hd).
  unfold tooSmall in Hsmall.
  cbn [attempts]. unfold bind at 1, tryCatch, attemptBody, boundingBox, dispose, wait.
  unfold bind, perform, ret. cbn [Nat.add] in *.
  rewrite Hq. cbn [clock tick record]. rewrite Hb, Hsmall. cbn [clock tick record].
  rewrite Hs. cbn [clock tick record]. rewrite Hh. cbn [clock tick record]. rewrite Hc.
  cbn [clock tick record]. rewrite Hu. cbn [clock tick record]. rewrite Hd. reflexivity.
Qed.

Lemma advance_advance n m ev1 ev2 s :
  advance n ev1 (advance m ev2 s) = advance (n + m) (ev1 ++ ev2) s.
Proof.
  unfold advance. cbn [clock log locals]. f_equal; [lia | now rewrite app_assoc].
Qed.

(** X1. Retry then success. If [page.$] throws on the first [k] attempts,
    [k] below [maxAttempts], and the next attempt finds an element that is
    large enough and everything it then asks of the page succeeds, the
    capture returns the data URI of the clipped screenshot. It has called
    [page.$] [k + 1] times, waited 100 ms once, taken one clipped
    screenshot, removed the highlight and disposed of the handle, in that
    order, and nothing else. *)
Theorem capture_succeeds_after_retries fuel w selector o s k el box screenshot :
  k < maxAttempts o ->
  (forall j, j < k -> exists e, page_query w (j + clock s) selector = Err e) ->
  attemptSucceeds w selector o (k + clock s) el box screenshot ->
  getElementScreenshot (S fuel) w selector o s =
    (Normal (Some (dataUri screenshot)),
     advance (8 + k)
       ([EvDispose (ElementHandle el); EvUnhighlight selector;
         EvScreenshotClip (paddedClip box (viewportPadding o));
         EvHighlight selector; EvWait 100;
         EvScroll selector (viewportPadding o);
         EvBoundingBox (ElementHandle el); EvQuery selector]
        ++ repeat (EvQuery selector) k
        ++ [EvCapture selector (includeParent o)]) s).
Proof.
  intros Hk Hfail Hok.
  cbn [getElementScreenshot]. unfold bind at 1, note.
  replace (maxAttempts o) with (k + (maxAttempts o - k)) at 1 by lia.
  rewrite attempts_skip; [| lia | lia | exact Hfail].
  destruct (maxAttempts o - k) as [|remaining] eqn:Hr; [lia|].
  rewrite (attempts_success _ _ _ _ _ _ _ el box screenshot) by exact Hok.
  f_equal.
  change (record (EvCapture selector (includeParent o)) s)
    with (advance 0 [EvCapture selector (includeParent o)] s).
  rewrite !advance_advance. f_equal; try lia; rewrite <- ?app_assoc; reflexivity.
Qed.

Lemma capture_succeeds_after_retries_witness :
  2 < maxAttempts defaultOptions /\
  (forall j, j < 2 ->
     exists e, page_query flakyWorld (j + clock initialState) "#logo" = Err e) /\
  attemptSucceeds flakyWorld "#logo" defaultOptions (2 + clock initialState) 1 logoRect "CLIP" /\
  getElementScreenshot 1 flakyWorld "#logo" defaultOptions initialState =
    (Normal (Some (dataUri "CLIP")),
     advance (8 + 2)
       ([EvDispose (ElementHandle 1); EvUnhighlight "#logo";
         EvScreenshotClip (paddedClip logoRect (viewportPadding defaultOptions));
         EvHighlight "#logo"; EvWait 100;
         EvScroll "#logo" (viewportPadding defaultOptions);
         EvBoundingBox (ElementHandle 1); EvQuery "#logo"]
        ++ repeat (EvQuery "#logo") 2
        ++ [EvCapture "#logo" (includeParent defaultOptions)]) initialState).
Proof.
  assert (Hk : 2 < maxAttempts defaultOptions) by (cbn; lia).
  assert (Hfail : forall j, j < 2 ->
            exists e, page_query flakyWorld (j + clock initialState) "#logo" = Err e).
  { intros [|[|j]] Hj; [eexists; reflexivity | eexists; reflexivity | lia]. }
  assert (Hok : attemptSucceeds flakyWorld "#logo" defaultOptions (2 + clock initialState)
                  1 logoRect "CLIP").
  { repeat split. }
  split; [exact Hk|]. split; [exact Hfail|]. split; [exact Hok|].
  exact (capture_succeeds_after_retries 0 flakyWorld "#logo" defaultOptions
           initialState 2 1 logoRect "CLIP" Hk Hfail Hok).
Defined.

(** X2. An element that is found but has no bounding box, or one that is
    smaller than [minSize] while [includeParent] is off, gives [null] at
    once: after [page.$] and [boundingBox()] nothing else is asked of the
    page, no retry is made, no screenshot is taken and the handle is not
    disposed of. *)
Theorem capture_gives_up_on_unusable_element fuel w selector o s el :
  0 < maxAttempts o ->
  page_query w (clock s) selector = Ok (Some el) ->
  (element_boundingBox w (1 + clock s) el = Ok None \/
   exists box, element_boundingBox w (1 + clock s) el = Ok (Some box) /\
               tooSmall o box = true /\ includeParent o = false) ->
  getElementScreenshot (S fuel) w selector o s =
    (Normal None,
     advance 2 [EvBoundingBox (ElementHandle el); EvQuery selector;
                EvCapture selector (includeParent o)] s).
Proof.
  intros Hm Hq Hb. cbn [getElementScreenshot]. unfold bind at 1, note.
  destruct (maxAttempts o) as [|remaining]; [lia|]. cbn [attempts].
  unfold bind at 1, tryCatch, attemptBody, boundingBox.
  unfold bind, perform, ret. cbn [Nat.add clock record tick] in *. rewrite Hq.
  cbn [clock tick record].
  destruct Hb as [Hb | (box & Hb & Hsmall & Hp)]; rewrite Hb.
  - reflexivity.
  - unfold tooSmall in Hsmall. rewrite Hsmall, Hp. reflexivity.
Qed.

Lemma capture_gives_up_on_unusable_element_witness :
  0 < maxAttempts defaultOptions /\
  page_query hiddenWorld (clock initialState) "#logo" = Ok (Some 1) /\
  (element_boundingBox hiddenWorld (1 + clock initialState) 1 = Ok None \/
   exists box, element_boundingBox hiddenWorld (1 + clock initialState) 1 = Ok (Some box) /\
               tooSmall defaultOptions box = true /\ includeParent defaultOptions = false) /\
  getElementScreenshot 1 hiddenWorld "#logo" defaultOptions initialState =
    (Normal None,
     advance 2 [EvBoundingBox (ElementHandle 1); EvQuery "#logo";
                EvCapture "#logo" (includeParent defaultOptions)] initialState).
Proof.
  assert (Hm : 0 < maxAttempts defaultOptions) by (cbn; lia).
  assert (Hb : element_boundingBox hiddenWorld (1 + clock initialState) 1 = Ok None \/
               exists box,
                 element_boundingBox hiddenWorld (1 + clock initialState) 1 = Ok (Some box) /\
                 tooSmall defaultOptions box = true /\ includeParent defaultOptions = false).
  { left. reflexivity. }
  split; [exact Hm|]. split; [reflexivity|]. split; [exact Hb|].
  exact (capture_gives_up_on_unusable_element 0 hiddenWorld "#logo" defaultOptions
           initialState 1 Hm eq_refl Hb).
Defined.

(** X3. A small element whose parent has no bounding box, or a box that is
    neither wider nor taller than the element's, gives [null]: the parent
    handle is disposed of, the element's is not, no second capture is
    started and no screenshot is taken. *)
Theorem capture_gives_up_on_small_parent fuel w selector o s el box parent :
  0 < maxAttempts o ->
  page_query w (clock s) selector = Ok (Some el) ->
  element_boundingBox w (1 + clock s) el = Ok (Some box) ->
  tooSmall o box = true ->
  includeParent o = true ->
  page_parentHandle w (2 + clock s) selector = Ok (ElementHandle parent) ->
  (element_boundingBox w (3 + clock s) parent = Ok None \/
   exists parentBox,
     element_boundingBox w (3 + clock s) parent = Ok (Some parentBox) /\
     (width parentBox <= width box)%Z /\ (height parentBox <= height box)%Z) ->
  handle_dispose w (4 + clock s) (ElementHandle parent) = Ok tt ->
  getElementScreenshot (S fuel) w selector o s =
    (Normal None,
     advance 5 [EvDispose (ElementHandle parent); EvBoundingBox (ElementHandle parent);
                EvParentHandle selector; EvBoundingBox (ElementHandle el);
                EvQuery selector; EvCapture selector true] s).
Proof.
  intros Hm Hq Hb Hsmall Hp Hpar Hpb Hd. cbn [getElementScreenshot]. unfold bind at 1, note.
  destruct (maxAttempts o) as [|remaining]; [lia|]. cbn [attempts].
  unfold bind at 1, tryCatch, attemptBody, boundingBox, dispose.
  unfold bind, perform, ret. cbn [Nat.add clock record tick] in *. rewrite Hq.
  cbn [clock tick record]. rewrite Hb. unfold tooSmall in Hsmall. rewrite Hsmall, Hp.
  cbn [clock tick record]. rewrite Hpar. cbn [clock tick record].
  destruct Hpb as [Hpb | (parentBox & Hpb & Hw & Hh)]; rewrite Hpb; cbn [clock tick record].
  - rewrite Hd. reflexivity.
  - replace (width parentBox >? width box)%Z with false by (symmetry; rewrite Z.gtb_ltb; apply Z.ltb_ge; lia).
    replace (height parentBox >? height box)%Z with false by (symmetry; rewrite Z.gtb_ltb; apply Z.ltb_ge; lia).
    cbn [orb clock tick record]. rewrite Hd. reflexivity.
Qed.

Lemma capture_gives_up_on_small_parent_witness :
  0 < maxAttempts defaultOptions /\
  page_query crampedWorld (clock initialState) "#tiny" = Ok (Some 1) /\
  element_boundingBox crampedWorld (1 + clock initialState) 1 = Ok (Some tinyBox) /\
  tooSmall defaultOptions tinyBox = true /\
  includeParent defaultOptions = true /\
  page_parentHandle crampedWorld (2 + clock initialState) "#tiny" = Ok (ElementHandle 2) /\
  (element_boundingBox crampedWorld (3 + clock initialState) 2 = Ok None \/
   exists parentBox,
     element_boundingBox crampedWorld (3 + clock initialState) 2 = Ok (Some parentBox) /\
     (width parentBox <= width tinyBox)%Z /\ (height parentBox <= height tinyBox)%Z) /\
  handle_dispose crampedWorld (4 + clock initialState) (ElementHandle 2) = Ok tt /\
  getElementScreenshot 1 crampedWorld "#tiny" defaultOptions initialState =
    (Normal None,
     advance 5 [EvDispose (ElementHandle 2); EvBoundingBox (ElementHandle 2);
                EvParentHandle "#tiny"; EvBoundingBox (ElementHandle 1);
                EvQuery "#tiny"; EvCapture "#tiny" true] initialState).
Proof.
  assert (Hm : 0 < maxAttempts defaultOptions) by (cbn; lia).
  assert (Hp : element_boundingBox crampedWorld (3 + clock initialState) 2 = Ok None \/
               exists parentBox,
                 element_boundingBox crampedWorld (3 + clock initialState) 2
                   = Ok (Some parentBox) /\
                 (width parentBox <= width tinyBox)%Z /\
                 (height parentBox <= height tinyBox)%Z).
  { right. exists tinyBox. split; [reflexivity|]. split; lia. }
  split; [exact Hm|]. split; [reflexivity|]. split; [reflexivity|]. split; [reflexivity|].
  split; [reflexivity|]. split; [reflexivity|]. split; [exact Hp|]. split; [reflexivity|].
  exact (capture_gives_up_on_small_parent 0 crampedWorld "#tiny" defaultOptions initialState
           1 tinyBox 2 Hm eq_refl eq_refl eq_refl eq_refl eq_refl Hp eq_refl).
Defined.

Lemma attempts_last_query_throws self w selector o attempt s e :
  page_query w (clock s) selector = Err e ->
  attempt = maxAttempts o - 1 ->
  attempts self w selector o 1 attempt s
    = (Normal (viewportFallback w (1 + clock s)),
       advance 2 [EvScreenshotViewport; EvQuery selector] s).
Proof.
  intros Hq Hlast. cbn [attempts].
  unfold bind at 1, tryCatch, attemptBody. unfold bind at 1, perform at 1.
  rewrite Hq. unfold attemptCatch, viewportFallback.
  destruct (Nat.eqb_spec attempt (maxAttempts o - 1)); [|contradiction].
  unfold tryCatch, bind, perform, ret. cbn [clock tick record Nat.add].
  destruct (page_screenshotViewport w (S (clock s))); reflexivity.
Qed.

(** X4. When [page.$] throws on every one of the [maxAttempts] attempts,
    the capture asks for nothing else than one screenshot of the viewport
    and returns its data URI, or [null] if that screenshot fails too. With
    [maxAttempts] 0 the loop is not entered and the result is [null]
    without a single call to the page. *)
Theorem capture_exhausted_falls_back fuel w selector o s :
  (forall j, j < maxAttempts o -> exists e, page_query w (j + clock s) selector = Err e) ->
  getElementScreenshot (S fuel) w selector o s =
    match maxAttempts o with
    | 0 => (Normal None, advance 0 [EvCapture selector (includeParent o)] s)
    | S n =>
        (Normal (viewportFallback w (maxAttempts o + clock s)),
         advance (S (maxAttempts o))
           (EvScreenshotViewport :: repeat (EvQuery selector) (maxAttempts o)
            ++ [EvCapture selector (includeParent o)]) s)
    end.
Proof.
  intros Hfail. cbn [getElementScreenshot]. unfold bind at 1, note.
  destruct (maxAttempts o) as [|n] eqn:Hm; [reflexivity|].
  replace (S n) with (n + 1) at 1 by lia.
  rewrite attempts_skip; [| lia | lia | intros j Hj; apply Hfail; lia].
  destruct (Hfail n) as (e & He); [lia|].
  rewrite (attempts_last_query_throws _ _ _ _ _ _ e); [| exact He | lia].
  change (record (EvCapture selector (includeParent o)) s)
    with (advance 0 [EvCapture selector (includeParent o)] s).
  rewrite !advance_advance. cbn [clock advance Nat.add].
  rewrite Nat.add_0_r. reflexivity.
Qed.

Lemma capture_exhausted_falls_back_witness :
  (forall j, j < maxAttempts defaultOptions ->
     exists e, page_query tinyWorld (j + clock initialState) "#tiny > .." = Err e) /\
  getElementScreenshot 1 tinyWorld "#tiny > .." defaultOptions initialState =
    (Normal (Some (dataUri "VIEWPORT")),
     advance 4
       (EvScreenshotViewport :: repeat (EvQuery "#tiny > ..") 3
        ++ [EvCapture "#tiny > .." true]) initialState).
Proof.
  assert (Hfail : forall j, j < maxAttempts defaultOptions ->
            exists e, page_query tinyWorld (j + clock initialState) "#tiny > .." = Err e).
  { intros j _. eexists. reflexivity. }
  split; [exact Hfail|].
  exact (capture_exhausted_falls_back 0 tinyWorld "#tiny > .." defaultOptions initialState
           Hfail).
Defined.

Lemma attempts_clip_fails self w selector o :
  forall remaining attempt s,
    attempt + remaining = maxAttempts o -> 0 < remaining ->
    (forall j, j < remaining -> clipFails w selector o (6 * j + clock s)) ->
    exists s',
      attempts self w selector o remaining attempt s
        = (Normal (viewportFallback w (6 * remaining + clock s)), s') /\
      countEvents isHighlight (log s') = countEvents isHighlight (log s) + remaining /\
      countEvents isUnhighlight (log s') = countEvents isUnhighlight (log s) /\
      hd_error (log s') = Some EvScreenshotViewport.
Proof.
  induction remaining as [|remaining IH]; intros attempt s Hsum Hrem Hfail; [lia|].
  destruct (Hfail 0) as (el & box & e & Hq & Hb & Hsmall & Hs & Hh & Hc); [lia|].
  unfold tooSmall in Hsmall. cbn [Nat.mul Nat.add] in Hq, Hb, Hs, Hh, Hc.
  cbn [attempts]. unfold bind at 1, tryCatch, attemptBody, boundingBox, wait.
  unfold bind, perform, ret.
  rewrite Hq. cbn [clock tick]. rewrite Hb, Hsmall. cbn [clock tick].
  rewrite Hs. cbn [clock tick]. rewrite Hh. cbn [clock tick]. rewrite Hc.
  unfold attemptCatch.
  destruct (Nat.eqb_spec attempt (maxAttempts o - 1)) as [Hlast | Hlast].
  - assert (remaining = 0) by lia. subst remaining.
    unfold tryCatch, bind, perform, ret, viewportFallback. cbn [clock tick Nat.mul Nat.add].
    destruct (page_screenshotViewport w _); eexists; (split; [reflexivity|]);
      cbn; repeat split; lia.
  - unfold ret.
    match goal with |- context [attempts self w selector o remaining (S attempt) ?s0] =>
      set (s1 := s0) end.
    assert (Hpre : forall j, j < remaining -> clipFails w selector o (6 * j + clock s1)).
    { intros j Hj. specialize (Hfail (S j) ltac:(lia)).
      replace (6 * j + clock s1) with (6 * S j + clock s) by (subst s1; cbn [clock tick]; lia).
      exact Hfail. }
    destruct (IH (S attempt) s1 ltac:(lia) ltac:(lia) Hpre) as (s' & Hrun & Hhi & Hun & Hhd).
    exists s'. subst s1. cbn [clock tick] in Hrun.
      replace (6 * S remaining + clock s)
        with (6 * remaining + S (S (S (S (S (S (clock s))))))) by lia.
      split; [exact Hrun|]. cbn in Hhi, Hun. repeat split; try assumption; lia.
Qed.

(** X5. When the clipped screenshot throws on every attempt, the capture
    ends with the screenshot of the viewport, and the highlight is left on
    the page: it was put on once per attempt and never taken off, since
    the removal stands after the screenshot inside the same [try]. *)
Theorem capture_failed_clip_leaves_highlight fuel w selector o s :
  0 < maxAttempts o ->
  (forall j, j < maxAttempts o -> clipFails w selector o (6 * j + clock s)) ->
  exists s',
    getElementScreenshot (S fuel) w selector o s
      = (Normal (viewportFallback w (6 * maxAttempts o + clock s)), s') /\
    countEvents isHighlight (log s') = countEvents isHighlight (log s) + maxAttempts o /\
    countEvents isUnhighlight (log s') = countEvents isUnhighlight (log s) /\
    hd_error (log s') = Some EvScreenshotViewport.
Proof.
  intros Hm Hfail. cbn [getElementScreenshot]. unfold bind at 1, note.
  destruct (attempts_clip_fails (getElementScreenshot fuel w) w selector o
              (maxAttempts o) 0 (record (EvCapture selector (includeParent o)) s))
    as (s' & Hrun & Hhi & Hun & Hhd); [lia | lia | exact Hfail |].
  exists s'. split; [exact Hrun|]. cbn in Hhi, Hun. repeat split; assumption.
Qed.

Lemma capture_failed_clip_leaves_highlight_witness :
  0 < maxAttempts defaultOptions /\
  (forall j, j < maxAttempts defaultOptions ->
     clipFails clipDownWorld "#logo" defaultOptions (6 * j + clock initialState)) /\
  exists s',
    getElementScreenshot 1 clipDownWorld "#logo" defaultOptions initialState
      = (Normal (viewportFallback clipDownWorld
                   (6 * maxAttempts defaultOptions + clock initialState)), s') /\
    countEvents isHighlight (log s')
      = countEvents isHighlight (log initialState) + maxAttempts defaultOptions /\
    countEvents isUnhighlight (log s') = countEvents isUnhighlight (log initialState) /\
    hd_error (log s') = Some EvScreenshotViewport.
Proof.
  assert (Hm : 0 < maxAttempts defaultOptions) by (cbn; lia).
  assert (Hfail : forall j, j < maxAttempts defaultOptions ->
            clipFails clipDownWorld "#logo" defaultOptions (6 * j + clock initialState)).
  { intros j _. exists 1, logoRect, clipError. repeat split. }
  split; [exact Hm|]. split; [exact Hfail|].
  exact (capture_failed_clip_leaves_highlight 0 clipDownWorld "#logo" defaultOptions
           initialState Hm Hfail).
Defined.

(* ===================================================================== *)
(** ** The classifier on dotted quads *)
(* ===================================================================== *)

Lemma in_octetRange n : (n < 256)%N -> In n octetRange.
Proof.
  intros H. unfold octetRange. apply in_map_iff. exists (N.to_nat n).
  split; [apply N2Nat.id|]. apply in_seq. lia.
Qed.

Lemma isDigit_cases c :
  Net.isDigit c = true ->
  In c digitChars.
Proof.
  destruct c as [[] [] [] [] [] [] [] []]; intros H; vm_compute in H;
    try discriminate H; cbn; tauto.
Qed.

Lemma octetCanonical_digits :
  forallb (fun c1 => octetCanonical (String c1 EmptyString) &&
    forallb (fun c2 => octetCanonical (String c1 (String c2 EmptyString)) &&
      forallb (fun c3 => octetCanonical (String c1 (String c2 (String c3 EmptyString))))
        digitChars) digitChars) digitChars = true.
Proof. vm_compute. reflexivity. Qed.

Lemma octetCanonical_sound p n :
  octetCanonical p = true -> Net.octet p = Some n -> p = showOctet n /\ (n < 256)%N.
Proof.
  unfold octetCanonical. intros H Ho. rewrite Ho in H.
  apply andb_true_iff in H. destruct H as [H1 H2].
  split; [now apply String.eqb_eq | now apply N.ltb_lt].
Qed.

Lemma octet_showOctet p n :
  Net.octet p = Some n -> p = showOctet n /\ (n < 256)%N.
Proof.
  intros Ho. apply octetCanonical_sound; [|exact Ho].
  pose proof octetCanonical_digits as Hall. rewrite forallb_forall in Hall.
  unfold Net.octet in Ho.
  destruct p as [|c1 [|c2 [|c3 [|c4 p]]]]; [discriminate| | | |].
  - cbn [Net.allChars] in Ho. destruct (Net.isDigit c1) eqn:H1; [|discriminate].
    specialize (Hall c1 (isDigit_cases c1 H1)).
    apply andb_true_iff in Hall. apply Hall.
  - cbn [Net.allChars] in Ho.
    destruct (Net.isDigit c1) eqn:H1; [|discriminate].
    destruct (Net.isDigit c2) eqn:H2; [|discriminate].
    specialize (Hall c1 (isDigit_cases c1 H1)).
    apply andb_true_iff in Hall. destruct Hall as [_ Hall].
    rewrite forallb_forall in Hall. specialize (Hall c2 (isDigit_cases c2 H2)).
    apply andb_true_iff in Hall. apply Hall.
  - cbn [Net.allChars] in Ho.
    destruct (Net.isDigit c1) eqn:H1; [|discriminate].
    destruct (Net.isDigit c2) eqn:H2; [|discriminate].
    destruct (Net.isDigit c3) eqn:H3; [|discriminate].
    specialize (Hall c1 (isDigit_cases c1 H1)).
    apply andb_true_iff in Hall. destruct Hall as [_ Hall].
    rewrite forallb_forall in Hall. specialize (Hall c2 (isDigit_cases c2 H2)).
    apply andb_true_iff in Hall. destruct Hall as [_ Hall].
    rewrite forallb_forall in Hall. exact (Hall c3 (isDigit_cases c3 H3)).
  - cbn [String.length] in Ho. rewrite andb_false_r in Ho. cbn in Ho. discriminate.
Qed.

Lemma splitOn_nonempty sep s : Js.splitOn sep s <> [].
Proof.
  destruct s as [|c s]; cbn; [discriminate|].
  destruct (Ascii.eqb c sep); [discriminate|].
  destruct (Js.splitOn sep s); discriminate.
Qed.

(** Joining the pieces of a split with the separator gives the string
    back. *)
Lemma splitOn_concat sep s :
  String.concat (String sep EmptyString) (Js.splitOn sep s) = s.
Proof.
  induction s as [|c s IH]; [reflexivity|]. cbn [Js.splitOn].
  destruct (Ascii.eqb_spec c sep) as [->|Hne].
  - pose proof (splitOn_nonempty sep s) as Hs.
    destruct (Js.splitOn sep s) as [|p ps] eqn:E; [contradiction|].
    rewrite <- IH. reflexivity.
  - pose proof (splitOn_nonempty sep s) as Hs.
    destruct (Js.splitOn sep s) as [|p ps] eqn:E; [contradiction|].
    rewrite <- IH. destruct ps; reflexivity.
Qed.

Lemma parseIPv4_dotted ip a b c d :
  Net.parseIPv4 ip = Some [a; b; c; d] ->
  ip = showOctet a ++ "." ++ showOctet b ++ "." ++ showOctet c ++ "." ++ showOctet d /\
  (a < 256)%N /\ (b < 256)%N /\ (c < 256)%N /\ (d < 256)%N.
Proof.
  unfold Net.parseIPv4. intros H.
  pose proof (splitOn_concat "." ip) as Hj.
  destruct (Js.splitOn "." ip) as [|p1 [|p2 [|p3 [|p4 [|p5 ps]]]]]; try discriminate H.
  cbn [List.length Nat.eqb Net.octets] in H.
  destruct (Net.octet p1) as [n1|] eqn:H1; [|discriminate].
  destruct (Net.octet p2) as [n2|] eqn:H2; [|discriminate].
  destruct (Net.octet p3) as [n3|] eqn:H3; [|discriminate].
  destruct (Net.octet p4) as [n4|] eqn:H4; [|discriminate].
  inversion H; subst n1 n2 n3 n4.
  apply octet_showOctet in H1, H2, H3, H4.
  destruct H1 as [-> ?], H2 as [-> ?], H3 as [-> ?], H4 as [-> ?].
  cbn [String.concat] in Hj. repeat split; try assumption. now rewrite <- Hj.
Qed.

Lemma prefix_app p r : String.prefix p (p ++ r) = true.
Proof.
  induction p as [|c p IH]; cbn; [now destruct r|].
  destruct (Ascii.ascii_dec c c); [exact IH | contradiction].
Qed.

Lemma prefix_differAt p x r :
  differAt p x = true -> String.prefix p (x ++ r) = false.
Proof.
  revert x. induction p as [|c p IH]; intros [|d x]; cbn; try discriminate.
  destruct (Ascii.eqb_spec c d) as [->|Hne].
  - destruct (Ascii.ascii_dec d d); [|contradiction]. apply IH.
  - intros _. destruct (Ascii.ascii_dec c d); [contradiction | reflexivity].
Qed.

Lemma compare_differAt x y r1 r2 :
  differAt x y = true ->
  String.compare (x ++ r1) (y ++ r2) = String.compare x y.
Proof.
  revert y. induction x as [|c x IH]; intros [|d y]; cbn; try discriminate.
  destruct (Ascii.eqb_spec c d) as [->|Hne].
  - unfold Ascii.compare at 1 2. rewrite !N.compare_refl. apply IH.
  - intros _. destruct (Ascii.compare c d) eqn:E; try reflexivity.
    apply Ascii.compare_eq_iff in E. contradiction.
Qed.

Lemma differAt_app_l p x q :
  differAt p x = true -> differAt (p ++ q) x = true.
Proof.
  revert x. induction p as [|c p IH]; intros [|d x]; cbn; try discriminate.
  destruct (Ascii.eqb c d); [apply IH | reflexivity].
Qed.

Lemma prefix_app_cancel p q x :
  String.prefix (p ++ q) (p ++ x) = String.prefix q x.
Proof.
  induction p as [|c p IH]; cbn; [reflexivity|].
  destruct (Ascii.ascii_dec c c); [exact IH | contradiction].
Qed.

Lemma compare_app_cancel p x y :
  String.compare (p ++ x) (p ++ y) = String.compare x y.
Proof.
  induction p as [|c p IH]; cbn; [reflexivity|].
  unfold Ascii.compare. rewrite N.compare_refl. exact IH.
Qed.

Lemma octet_forall (P : N -> bool) :
  forallb P octetRange = true -> forall n, (n < 256)%N -> P n = true.
Proof. intros H n Hn. rewrite forallb_forall in H. apply H, in_octetRange, Hn. Qed.

(** Decimal forms of different octets, each followed by a dot, differ at a
    position both have. *)
Lemma showOctet_differAt a k :
  (a < 256)%N -> (k < 256)%N -> a <> k ->
  differAt (showOctet k ++ ".") (showOctet a ++ ".") = true.
Proof.
  intros Ha Hk Hne.
  assert (H : forallb (fun k => forallb (fun a =>
                (a =? k)%N || differAt (showOctet k ++ ".") (showOctet a ++ "."))
              octetRange) octetRange = true) by (vm_compute; reflexivity).
  pose proof (octet_forall _ (octet_forall _ H k Hk) a Ha) as H'. cbn beta in H'.
  apply orb_true_iff in H'. destruct H' as [H' | H']; [|exact H'].
  apply N.eqb_eq in H'. contradiction.
Qed.

(** [ip.startsWith(k + '.')] on a dotted quad tests the first octet. *)
Lemma startsWith_octet a k r :
  (a < 256)%N -> (k < 256)%N ->
  Js.startsWith ((showOctet a ++ ".") ++ r) (showOctet k ++ ".") = (a =? k)%N.
Proof.
  intros Ha Hk. unfold Js.startsWith.
  destruct (N.eqb_spec a k) as [->|Hne].
  - apply prefix_app.
  - apply prefix_differAt, showOctet_differAt; assumption.
Qed.

(** [ip.startsWith(k + '.' + l + '.')] tests the first two octets. *)
Lemma startsWith_two_octets a b k l r :
  (a < 256)%N -> (b < 256)%N -> (k < 256)%N -> (l < 256)%N ->
  Js.startsWith ((showOctet a ++ ".") ++ (showOctet b ++ ".") ++ r)
    ((showOctet k ++ ".") ++ (showOctet l ++ "."))
  = ((a =? k) && (b =? l))%N.
Proof.
  intros Ha Hb Hk Hl. unfold Js.startsWith.
  destruct (N.eqb_spec a k) as [->|Hne].
  - rewrite prefix_app_cancel. exact (startsWith_octet b l r Hb Hl).
  - apply prefix_differAt, differAt_app_l, showOctet_differAt; assumption.
Qed.

Lemma append_assoc (a b c : string) : (a ++ b) ++ c = a ++ b ++ c.
Proof. induction a as [|x a IH]; cbn; [reflexivity | now rewrite IH]. Qed.

Lemma differAt_sym a b : differAt a b = differAt b a.
Proof.
  revert b. induction a as [|c a IH]; intros [|d b]; cbn; try reflexivity.
  rewrite (Ascii.eqb_sym c d). destruct (Ascii.eqb d c); [apply IH | reflexivity].
Qed.

(** Outside 172.0.0.0/8 the string-range test of [isPrivateIp] is false. *)
Lemma range_test_outside_172 a r :
  (a < 256)%N -> a <> 172%N ->
  Js.ge ((showOctet a ++ ".") ++ r) "172.16.0.0"
  && Js.le ((showOctet a ++ ".") ++ r) "172.31.255.255" = false.
Proof.
  intros Ha Hne.
  pose proof (showOctet_differAt a 172 Ha eq_refl Hne) as Hd.
  change (showOctet 172 ++ ".") with "172." in Hd.
  unfold Js.ge, Js.le, String.leb.
  change "172.16.0.0" with ("172." ++ "16.0.0").
  change "172.31.255.255" with ("172." ++ "31.255.255").
  rewrite (compare_differAt _ _ _ _ Hd).
  rewrite differAt_sym in Hd. rewrite (compare_differAt _ _ _ _ Hd).
  assert (H : forallb (fun a => (a =? 172)%N ||
                negb (match String.compare "172." (showOctet a ++ ".") with
                      | Gt => false | _ => true end
                      && match String.compare (showOctet a ++ ".") "172." with
                         | Gt => false | _ => true end))
              octetRange = true) by (vm_compute; reflexivity).
  pose proof (octet_forall _ H a Ha) as H'. cbn beta in H'.
  apply orb_true_iff in H'. destruct H' as [H' | H'].
  - apply N.eqb_eq in H'. contradiction.
  - now apply negb_true_iff in H'.
Qed.

(** From 172.16.0.0 to 172.30.255.255 the string-range test is true. *)
Lemma range_test_172_16_to_30 b c d :
  (b < 256)%N -> (c < 256)%N -> (d < 256)%N -> (16 <= b <= 30)%N ->
  Js.ge ("172." ++ (showOctet b ++ ".") ++ (showOctet c ++ ".") ++ showOctet d) "172.16.0.0"
  && Js.le ("172." ++ (showOctet b ++ ".") ++ (showOctet c ++ ".") ++ showOctet d)
       "172.31.255.255" = true.
Proof.
  intros Hb Hc Hd Hr. unfold Js.ge, Js.le, String.leb.
  change "172.16.0.0" with ("172." ++ "16." ++ "0." ++ "0").
  change "172.31.255.255" with ("172." ++ "31." ++ "255.255").
  rewrite !compare_app_cancel.
  apply andb_true_iff. split.
  - destruct (N.eq_dec b 16) as [->|Hb16].
    + change (showOctet 16 ++ ".") with "16.". rewrite compare_app_cancel.
      destruct (N.eq_dec c 0) as [->|Hc0].
      * change (showOctet 0 ++ ".") with "0.". rewrite compare_app_cancel.
        assert (H : forallb (fun d => match String.compare "0" (showOctet d) with
                                      | Gt => false | _ => true end) octetRange = true)
          by (vm_compute; reflexivity).
        exact (octet_forall _ H d Hd).
      * pose proof (showOctet_differAt c 0 Hc eq_refl Hc0) as Hdiff.
        change (showOctet 0 ++ ".") with "0." in Hdiff.
        rewrite (compare_differAt _ _ _ _ Hdiff).
        assert (H : forallb (fun c => (c =? 0)%N ||
                      match String.compare "0." (showOctet c ++ ".") with
                      | Gt => false | _ => true end) octetRange = true)
          by (vm_compute; reflexivity).
        pose proof (octet_forall _ H c Hc) as H'. cbn beta in H'.
        apply orb_true_iff in H'. destruct H' as [H' | H']; [|exact H'].
        apply N.eqb_eq in H'. contradiction.
    + pose proof (showOctet_differAt b 16 Hb eq_refl Hb16) as Hdiff.
      change (showOctet 16 ++ ".") with "16." in Hdiff.
      rewrite (compare_differAt _ _ _ _ Hdiff).
      assert (H : forallb (fun b => negb ((17 <=? b) && (b <=? 30))%N ||
                    match String.compare "16." (showOctet b ++ ".") with
                    | Gt => false | _ => true end) octetRange = true)
        by (vm_compute; reflexivity).
      pose proof (octet_forall _ H b Hb) as H'. cbn beta in H'.
      apply orb_true_iff in H'. destruct H' as [H' | H']; [|exact H'].
      apply negb_true_iff, andb_false_iff in H'.
      destruct H' as [H' | H']; [apply N.leb_gt in H' | apply N.leb_gt in H']; lia.
  - assert (Hb31 : b <> 31%N) by lia.
    pose proof (showOctet_differAt b 31 Hb eq_refl Hb31) as Hdiff.
    change (showOctet 31 ++ ".") with "31." in Hdiff. rewrite differAt_sym in Hdiff.
    rewrite (compare_differAt _ _ _ _ Hdiff).
    assert (H : forallb (fun b => negb ((16 <=? b) && (b <=? 30))%N ||
                  match String.compare (showOctet b ++ ".") "31." with
                  | Gt => false | _ => true end) octetRange = true)
      by (vm_compute; reflexivity).
    pose proof (octet_forall _ H b Hb) as H'. cbn beta in H'.
    apply orb_true_iff in H'. destruct H' as [H' | H']; [|exact H'].
    apply negb_true_iff, andb_false_iff in H'.
    destruct H' as [H' | H']; [apply N.leb_gt in H' | apply N.leb_gt in H']; lia.
Qed.

(** X6. On a dotted quad [a.b.c.d] in canonical decimal form,
    [isPrivateIp] agrees with the numeric ranges 10/8, 127/8, 192.168/16,
    169.254/16 and 172.16/12 whenever [a] is not 172 or [b] lies between
    16 and 30: the comparison of strings goes wrong only inside
    172.0.0.0/8, for [b] below 16 or above 30. *)
Theorem isPrivateIp_matches_ranges ip a b c d :
  Net.parseIPv4 ip = Some [a; b; c; d] ->
  a <> 172%N \/ (16 <= b <= 30)%N ->
  isPrivateIp ip = inPrivateRangeV4 [a; b; c; d].
Proof.
  intros Hparse Hcase.
  destruct (parseIPv4_dotted ip a b c d Hparse) as (Hip & Ha & Hb & Hc & Hd).
  unfold isPrivateIp, Net.isIPv4. rewrite Hparse.
  assert (Hip' : ip = (showOctet a ++ ".") ++ (showOctet b ++ ".")
                        ++ (showOctet c ++ ".") ++ showOctet d).
  { rewrite Hip, !append_assoc. reflexivity. }
  change "10." with (showOctet 10 ++ ".").
  change "127." with (showOctet 127 ++ ".").
  change "192.168." with ((showOctet 192 ++ ".") ++ (showOctet 168 ++ ".")).
  change "169.254." with ((showOctet 169 ++ ".") ++ (showOctet 254 ++ ".")).
  rewrite Hip' at 1 2 3 4.
  rewrite !startsWith_octet, !startsWith_two_octets by (assumption || reflexivity).
  unfold inPrivateRangeV4.
  destruct (N.eq_dec a 172) as [->|Ha172].
  - destruct Hcase as [Hcase | Hcase]; [contradiction|].
    rewrite Hip'. change (showOctet 172 ++ ".") with "172.".
    rewrite (range_test_172_16_to_30 b c d Hb Hc Hd Hcase).
    replace (16 <=? b)%N with true by (symmetry; apply N.leb_le; lia).
    replace (b <=? 31)%N with true by (symmetry; apply N.leb_le; lia).
    reflexivity.
  - rewrite Hip'. rewrite (range_test_outside_172 a _ Ha Ha172).
    replace (a =? 172)%N with false by (symmetry; now apply N.eqb_neq).
    cbn [andb]. rewrite !orb_false_r.
    destruct (a =? 10)%N, (a =? 127)%N, ((a =? 192) && (b =? 168))%N,
      ((a =? 169) && (b =? 254))%N; reflexivity.
Qed.

Lemma isPrivateIp_matches_ranges_witness :
  Net.parseIPv4 "172.20.10.5" = Some [172; 20; 10; 5]%N /\
  (172 <> 172 \/ 16 <= 20 <= 30)%N /\
  isPrivateIp "172.20.10.5" = inPrivateRangeV4 [172; 20; 10; 5]%N.
Proof.
  assert (H : (172 <> 172 \/ 16 <= 20 <= 30)%N) by (right; lia).
  split; [reflexivity|]. split; [exact H|].
  exact (isPrivateIp_matches_ranges "172.20.10.5" 172 20 10 5 eq_refl H).
Defined.

(* ===================================================================== *)
(** ** The challenge detector and letter case *)
(* ===================================================================== *)

Lemma lowerChar_idempotent c : Js.lowerChar (Js.lowerChar c) = Js.lowerChar c.
Proof. destruct c as [[] [] [] [] [] [] [] []]; reflexivity. Qed.

Lemma lowerChar_eqb_gt c : Ascii.eqb (Js.lowerChar c) gt = Ascii.eqb c gt.
Proof. destruct c as [[] [] [] [] [] [] [] []]; reflexivity. Qed.

Lemma lowerChar_eqb_dquote c : Ascii.eqb (Js.lowerChar c) dquote = Ascii.eqb c dquote.
Proof. destruct c as [[] [] [] [] [] [] [] []]; reflexivity. Qed.

Lemma lowerChar_eqb_squote c : Ascii.eqb (Js.lowerChar c) squote = Ascii.eqb c squote.
Proof. destruct c as [[] [] [] [] [] [] [] []]; reflexivity. Qed.

Lemma toLowerCase_idempotent s : Js.toLowerCase (Js.toLowerCase s) = Js.toLowerCase s.
Proof. induction s as [|c s IH]; cbn; [reflexivity|]. now rewrite lowerChar_idempotent, IH. Qed.

Lemma toLowerCase_length s : String.length (Js.toLowerCase s) = String.length s.
Proof. induction s as [|c s IH]; cbn; [reflexivity | now rewrite IH]. Qed.

Lemma caseBlind_cat r1 r2 : caseBlind r1 -> caseBlind r2 -> caseBlind (Regex.cat r1 r2).
Proof. destruct r1, r2; cbn; tauto. Qed.

Lemma caseBlind_alt r1 r2 : caseBlind r1 -> caseBlind r2 -> caseBlind (Regex.alt r1 r2).
Proof. destruct r1, r2; cbn; tauto. Qed.

Lemma caseBlind_deriv c r : caseBlind r -> caseBlind (Regex.deriv c r).
Proof.
  induction r as [| |p|r1 IH1 r2 IH2|r1 IH1 r2 IH2|r1 IH1]; cbn [Regex.deriv caseBlind].
  - trivial.
  - trivial.
  - intros _. destruct (p c); exact I.
  - intros [H1 H2]. destruct (Regex.nullable r1).
    + apply caseBlind_alt; [apply caseBlind_cat|]; auto.
    + apply caseBlind_cat; auto.
  - intros [H1 H2]. apply caseBlind_alt; auto.
  - intros H. apply caseBlind_cat; cbn; auto.
Qed.

Lemma deriv_lowerChar c r :
  caseBlind r -> Regex.deriv (Js.lowerChar c) r = Regex.deriv c r.
Proof.
  induction r as [| |p|r1 IH1 r2 IH2|r1 IH1 r2 IH2|r1 IH1]; cbn [Regex.deriv caseBlind].
  - reflexivity.
  - reflexivity.
  - intros H. now rewrite H.
  - intros [H1 H2]. now rewrite IH1, IH2.
  - intros [H1 H2]. now rewrite IH1, IH2.
  - intros H. now rewrite IH1.
Qed.

Lemma matchesPrefix_toLowerCase s :
  forall r, caseBlind r ->
    Regex.matchesPrefix r (Js.toLowerCase s) = Regex.matchesPrefix r s.
Proof.
  induction s as [|c s IH]; intros r Hr; cbn; [reflexivity|].
  rewrite (deriv_lowerChar c r Hr), IH; [reflexivity|]. now apply caseBlind_deriv.
Qed.

Lemma test_toLowerCase r s :
  caseBlind r -> Regex.test r (Js.toLowerCase s) = Regex.test r s.
Proof.
  intros Hr. induction s as [|c s IH]; [reflexivity|].
  change (Js.toLowerCase (String c s)) with (String (Js.lowerChar c) (Js.toLowerCase s)).
  cbn [Regex.test].
  change (String (Js.lowerChar c) (Js.toLowerCase s)) with (Js.toLowerCase (String c s)).
  now rewrite (matchesPrefix_toLowerCase (String c s) r Hr), IH.
Qed.

Lemma caseBlind_litI s : caseBlind (Regex.litI s).
Proof.
  induction s as [|c s IH]; cbn; [exact I|]. split; [|exact IH].
  intros d. now rewrite lowerChar_idempotent.
Qed.

Ltac case_blind :=
  repeat match goal with
  | |- caseBlind (Regex.litI _) => apply caseBlind_litI
  | |- caseBlind _ => cbn [caseBlind Regex.plus Regex.opt Regex.noneOf Regex.oneOf]
  | |- _ /\ _ => split
  | |- True => exact I
  | |- forall c, _ => intros ?; cbn [existsb];
        rewrite ?lowerChar_eqb_gt, ?lowerChar_eqb_dquote, ?lowerChar_eqb_squote; reflexivity
  end.

Lemma caseBlind_reMetaRefresh : caseBlind reMetaRefresh.
Proof. unfold reMetaRefresh. case_blind. Qed.

Lemma caseBlind_reSpinnerDiv : caseBlind reSpinnerDiv.
Proof. unfold reSpinnerDiv. case_blind. Qed.

Lemma caseBlind_reCfClassDiv : caseBlind reCfClassDiv.
Proof. unfold reCfClassDiv. case_blind. Qed.

Lemma caseBlind_reSpinnerOrCloudflare : caseBlind reSpinnerOrCloudflare.
Proof. unfold reSpinnerOrCloudflare. case_blind. Qed.

(** The verdict on the lower-cased content is the verdict on the
    content. *)
Lemma challengeDetected_toLowerCase pageContent bodyText :
  challengeDetected (Js.toLowerCase pageContent) bodyText
    = challengeDetected pageContent bodyText.
Proof.
  unfold challengeDetected, isCloudflare, onlySpinner, isSuspiciouslyEmpty.
  rewrite toLowerCase_idempotent, toLowerCase_length.
  rewrite (test_toLowerCase _ _ caseBlind_reMetaRefresh),
          (test_toLowerCase _ _ caseBlind_reSpinnerDiv),
          (test_toLowerCase _ _ caseBlind_reCfClassDiv),
          (test_toLowerCase _ _ caseBlind_reSpinnerOrCloudflare).
  reflexivity.
Qed.

(** X7. On pages in ASCII the challenge detector does not depend on the
    letter case of the page content: two contents that differ only in the
    case of their letters get the same verdict, with the same body text.
    The phrases are looked for in the lower-cased content and all four
    expressions carry the [i] flag. *)
Theorem challengeDetected_ignores_case pageContent pageContent' bodyText :
  isAscii pageContent = true -> isAscii pageContent' = true ->
  isAscii bodyText = true ->
  Js.toLowerCase pageContent = Js.toLowerCase pageContent' ->
  challengeDetected pageContent bodyText = challengeDetected pageContent' bodyText.
Proof.
  intros _ _ _ Hsame.
  rewrite <- (challengeDetected_toLowerCase pageContent),
          <- (challengeDetected_toLowerCase pageContent'), Hsame.
  reflexivity.
Qed.

Lemma challengeDetected_ignores_case_witness :
  isAscii challengeContent = true /\ isAscii shoutedContent = true /\
  isAscii challengeBodyText = true /\
  Js.toLowerCase challengeContent = Js.toLowerCase shoutedContent /\
  challengeDetected challengeContent challengeBodyText
    = challengeDetected shoutedContent challengeBodyText.
Proof.
  split; [reflexivity|]. split; [reflexivity|]. split; [reflexivity|].
  split; [reflexivity|].
  exact (challengeDetected_ignores_case challengeContent shoutedContent challengeBodyText
           eq_refl eq_refl eq_refl eq_refl).
Defined.

(* ===================================================================== *)
(** ** The scan: refusal, settlement, budget *)
(* ===================================================================== *)

(** What the first [catch] block throws for an error [e] of the [try]. *)
Lemma validateTarget_refuses w url s :
  ~ targetAccepted w url ->
  exists e s',
    validateTarget w url s = (Throw e, s') /\
    countEvents isLaunch (log s') = countEvents isLaunch (log s) /\
    match url_hostname w url with
    | Err e0 => e = if codeIs e0 "ENOTFOUND" then invalidDomainError else e0
    | Ok hostname =>
        match dns_lookup w hostname with
        | Err e0 => e = if codeIs e0 "ENOTFOUND" then invalidDomainError else e0
        | Ok _ => e = privateTargetError
        end
    end.
Proof.
  intros Hna. unfold validateTarget, tryCatch, bind, perform, throw.
  destruct (url_hostname w url) as [hostname|e0] eqn:Hu; cbn.
  - destruct (dns_lookup w hostname) as [addresses|e0] eqn:Hd.
    + destruct (anyPrivate addresses) eqn:Hp.
      * rewrite (checkAddresses_rejects _ _ Hp). cbn.
        do 2 eexists. split; [reflexivity|]. split; reflexivity.
      * exfalso. apply Hna. exists hostname, addresses. repeat split; assumption.
    + destruct (codeIs e0 "ENOTFOUND"); do 2 eexists;
        (split; [reflexivity|]); split; reflexivity.
  - destruct (codeIs e0 "ENOTFOUND"); do 2 eexists;
      (split; [reflexivity|]); split; reflexivity.
Qed.

(** X8. A target that the validator does not accept never gets a browser:
    [runScan] throws before [puppeteer.launch]. The error is that of a
    private address when the host resolves and one of its addresses is
    classified private, "Invalid or unreachable domain." when [new URL] or
    [dns.lookup] failed with code ENOTFOUND, and otherwise the very error
    that [new URL] or [dns.lookup] threw. *)
Theorem runScan_refuses_before_launch fuel w url wcagLevel s :
  ~ targetAccepted w url ->
  exists e s',
    runScan fuel w url wcagLevel s = (Throw e, s') /\
    countEvents isLaunch (log s') = countEvents isLaunch (log s) /\
    match url_hostname w url with
    | Err e0 => e = if codeIs e0 "ENOTFOUND" then invalidDomainError else e0
    | Ok hostname =>
        match dns_lookup w hostname with
        | Err e0 => e = if codeIs e0 "ENOTFOUND" then invalidDomainError else e0
        | Ok _ => e = privateTargetError
        end
    end.
Proof.
  intros Hna. destruct (validateTarget_refuses w url s Hna) as (e & s' & Hv & Hl & He).
  exists e, s'. unfold runScan. rewrite (bind_throw _ _ _ _ _ Hv). now split.
Qed.

Lemma runScan_refuses_before_launch_witness :
  ~ targetAccepted dnsDownWorld "https://target.example" /\
  exists e s',
    runScan 2 dnsDownWorld "https://target.example" JsUndefined initialState = (Throw e, s') /\
    countEvents isLaunch (log s') = countEvents isLaunch (log initialState) /\
    match url_hostname dnsDownWorld "https://target.example" with
    | Err e0 => e = if codeIs e0 "ENOTFOUND" then invalidDomainError else e0
    | Ok hostname =>
        match dns_lookup dnsDownWorld hostname with
        | Err e0 => e = if codeIs e0 "ENOTFOUND" then invalidDomainError else e0
        | Ok _ => e = privateTargetError
        end
    end.
Proof.
  assert (Hna : ~ targetAccepted dnsDownWorld "https://target.example").
  { intros (hostname & addresses & _ & Hd & _). vm_compute in Hd. discriminate Hd. }
  split; [exact Hna|].
  exact (runScan_refuses_before_launch 2 dnsDownWorld "https://target.example" JsUndefined
           initialState Hna).
Defined.


Lemma capture_queries fuel w selector s :
  2 <= fuel ->
  exists v s', getElementScreenshot fuel w selector defaultOptions s = (Normal v, s') /\
    queries s' <= queries s + 6 /\ quiet s s'.
Proof.
  intros Hfuel. destruct fuel as [|[|fuel]]; try lia.
  destruct (capture_returns fuel w selector defaultOptions s) as (v & s' & Hc & Hs).
  exists v, s'. split; [exact Hc|]. split; [|exact (spent_quiet _ _ _ _ _ _ _ Hs)].
  destruct Hs as (Hq & _). unfold queries. cbn in Hq. lia.
Qed.

Lemma issueWithScreen_queries fuel w issue s :
  2 <= fuel ->
  exists issue' s', issueWithScreen fuel w issue s = (Normal issue', s') /\
    queries s' <= queries s + (if issueCapturable issue then 6 else 0) /\ quiet s s'.
Proof.
  intros Hfuel. unfold issueWithScreen, issueCapturable.
  destruct (issue_selector issue) as [selector|].
  - destruct (Js.truthy (Some selector)).
    + destruct (capture_queries fuel w selector s Hfuel) as (v & s' & Hc & Hq & Hquiet).
      unfold bind. rewrite Hc. do 2 eexists. split; [reflexivity|]. split; assumption.
    + do 2 eexists. split; [reflexivity|]. split; [lia | apply quiet_refl].
  - do 2 eexists. split; [reflexivity|]. split; [cbn; lia | apply quiet_refl].
Qed.

Lemma nodeWithScreen_queries fuel w node s :
  2 <= fuel ->
  exists node' s', nodeWithScreen fuel w node s = (Normal node', s') /\
    queries s' <= queries s + (if nodeCapturable node then 6 else 0) /\ quiet s s'.
Proof.
  intros Hfuel. unfold nodeWithScreen, nodeCapturable.
  destruct (nodeSelector node) as [selector|].
  - destruct (capture_queries fuel w selector s Hfuel) as (v & s' & Hc & Hq & Hquiet).
    unfold bind. rewrite Hc. do 2 eexists. split; [reflexivity|]. split; assumption.
  - do 2 eexists. split; [reflexivity|]. split; [lia | apply quiet_refl].
Qed.

(** The budget of a batch is the sum of the budgets of its items. *)
Lemma mapM_queries {A B} (f : A -> M B) (cost : A -> nat)
  (Hf : forall a s, exists b s', f a s = (Normal b, s') /\
          queries s' <= queries s + cost a /\ quiet s s') :
  forall xs s, exists ys s', mapM f xs s = (Normal ys, s') /\
    queries s' <= queries s + list_sum (map cost xs) /\ quiet s s'.
Proof.
  induction xs as [|a xs IH]; intros s; cbn [mapM map].
  - exists [], s. split; [reflexivity|]. split; [cbn; lia | apply quiet_refl].
  - destruct (Hf a s) as (b & s1 & Hb & Hq1 & Hquiet1).
    destruct (IH s1) as (ys & s2 & Hys & Hq2 & Hquiet2).
    exists (b :: ys), s2. unfold bind. rewrite Hb, Hys.
    split; [reflexivity|]. split; [| eapply quiet_trans; eassumption].
    change (list_sum (cost a :: map cost xs)) with (cost a + list_sum (map cost xs)). lia.
Qed.

Lemma list_sum_step x l : list_sum (x :: l) = x + list_sum l.
Proof. reflexivity. Qed.

Lemma list_sum_filter_length {A} (p : A -> bool) (l : list A) :
  list_sum (map (fun a => if p a then 6 else 0) l) = 6 * List.length (filter p l).
Proof.
  induction l as [|a l IH]; [reflexivity|]. cbn [map filter].
  change (list_sum ((if p a then 6 else 0) :: map (fun a => if p a then 6 else 0) l))
    with ((if p a then 6 else 0) + list_sum (map (fun a => if p a then 6 else 0) l)).
  destruct (p a); cbn [List.length]; lia.
Qed.

Lemma list_sum_capturableNodes vs :
  list_sum (map (fun v => 6 * List.length (filter nodeCapturable (nodes v))) vs)
    = 6 * capturableNodes vs.
Proof.
  unfold capturableNodes. induction vs as [|v vs IH]; [reflexivity|].
  cbn [map]. rewrite !list_sum_step, IH. lia.
Qed.

Lemma violationWithScreens_queries fuel w violation s :
  2 <= fuel ->
  exists violation' s', violationWithScreens fuel w violation s = (Normal violation', s') /\
    queries s' <= queries s + 6 * List.length (filter nodeCapturable (nodes violation)) /\
    quiet s s'.
Proof.
  intros Hfuel. unfold violationWithScreens.
  destruct (mapM_queries (nodeWithScreen fuel w) (fun n => if nodeCapturable n then 6 else 0)
              (fun a s => nodeWithScreen_queries fuel w a s Hfuel) (nodes violation) s)
    as (ns & s' & Hm & Hq & Hquiet).
  unfold bind. rewrite Hm. do 2 eexists. split; [reflexivity|].
  rewrite list_sum_filter_length in Hq. split; assumption.
Qed.

Ltac case_matches :=
  repeat match goal with
  | |- context [match ?x with _ => _ end] =>
      lazymatch x with
      | context [match _ with _ => _ end] => fail
      | _ => destruct x eqn:?; cbn
      end
  end.

Lemma checkAddresses_state addresses s :
  exists c, checkAddresses addresses s = (c, s) /\ c <> Diverge.
Proof.
  induction addresses as [|a l IH]; cbn.
  - eexists. split; [reflexivity | discriminate].
  - destruct (isPrivateIp (address a)); [|exact IH].
    eexists. split; [reflexivity | discriminate].
Qed.

Lemma validateTarget_queries w url s :
  exists c s', validateTarget w url s = (c, s') /\ c <> Diverge /\ queries s' = queries s.
Proof.
  unfold validateTarget, tryCatch, bind, perform, throw.
  destruct (url_hostname w url) as [hostname|e]; cbn.
  - destruct (dns_lookup w hostname) as [addresses|e]; cbn.
    + destruct (checkAddresses_state addresses
                  (tick (EvDnsLookup hostname) (tick (EvParseUrl url) s))) as (c & Hc & Hd).
      rewrite Hc. destruct c as [[]|e|]; [| |contradiction].
      * do 2 eexists. split; [reflexivity|]. split; [discriminate | reflexivity].
      * destruct (codeIs e "ENOTFOUND"); do 2 eexists;
          (split; [reflexivity|]); (split; [discriminate | reflexivity]).
    + destruct (codeIs e "ENOTFOUND"); do 2 eexists;
        (split; [reflexivity|]); (split; [discriminate | reflexivity]).
  - destruct (codeIs e "ENOTFOUND"); do 2 eexists;
      (split; [reflexivity|]); (split; [discriminate | reflexivity]).
Qed.

Lemma openPage_queries w url s :
  exists c s', openPage w url s = (c, s') /\ c <> Diverge /\ queries s' = queries s.
Proof.
  unfold openPage, wait, bind, perform. cbn.
  case_matches; do 2 eexists; (split; [reflexivity|]); (split; [discriminate | reflexivity]).
Qed.

Lemma runAxe_queries w axeTag s :
  exists s', runAxe w axeTag s = (Normal (axeOutcome w axeTag), s') /\
    queries s' = queries s.
Proof.
  unfold runAxe, axeOutcome, axeAnswer, tryCatch, bind, perform, setLocals, ret.
  destruct (page_addScriptTag w); [destruct (axe_run w axeTag)|];
    (eexists; split; reflexivity).
Qed.

Lemma detectChallenge_queries w s :
  exists c s', detectChallenge w s = (c, s') /\ c <> Diverge /\ queries s' = queries s.
Proof.
  unfold detectChallenge, wait, bind, perform, throw, ret. cbn.
  case_matches; do 2 eexists; (split; [reflexivity|]); (split; [discriminate | reflexivity]).
Qed.

Lemma auditPage_queries fuel w wcagLevel s :
  2 <= fuel ->
  exists c s', auditPage fuel w wcagLevel s = (c, s') /\ c <> Diverge /\
    queries s' <= queries s
                  + 6 * capturable (pa11yOutcome w (pa11yStandardOf wcagLevel))
                          (axeOutcome w (axeTagOf wcagLevel)).
Proof.
  intros Hfuel. unfold auditPage, capturable.
  set (p := pa11yOutcome w (pa11yStandardOf wcagLevel)).
  set (a := axeOutcome w (axeTagOf wcagLevel)).
  assert (Hshot : exists o s0,
    tryCatch (s <- perform EvScreenshotViewport (page_screenshotViewport w) ;; ret (Some s))
             (fun _ => ret None) s = (Normal o, s0) /\ queries s0 = queries s).
  { unfold tryCatch, bind, perform, ret.
    destruct (page_screenshotViewport w (clock s)); (do 2 eexists; split; reflexivity). }
  destruct Hshot as (o & s0 & Hshot & Hq0).
  rewrite (bind_normal _ _ _ _ _ Hshot).
  rewrite (bind_normal _ _ _ _ _ (runPa11y_spec w (pa11yStandardOf wcagLevel) s0)).
  fold p.
  set (s1 := {| clock := S (clock s0); log := _ :: log s0; locals := _ |}).
  assert (Hq1 : queries s1 = queries s0) by reflexivity.
  destruct (runAxe_queries w (axeTagOf wcagLevel) s1) as (s2 & Hax & Hq2).
  rewrite (bind_normal _ _ _ _ _ Hax). fold a.
  destruct (mapM_queries (issueWithScreen fuel w) (fun i => if issueCapturable i then 6 else 0)
              (fun i s => issueWithScreen_queries fuel w i s Hfuel) (orEmpty (issues p)) s2)
    as (issues' & s3 & Hm3 & Hq3 & _).
  rewrite list_sum_filter_length in Hq3.
  rewrite (bind_normal _ _ _ _ _ Hm3).
  unfold bind at 1, setLocals at 1. unfold bind at 1, setLocals at 1.
  set (s4 := {| clock := clock _; log := log _; locals := setPassedWithScreens _ _ |}).
  assert (Hq4 : queries s4 = queries s3) by reflexivity.
  destruct (mapM_queries (violationWithScreens fuel w)
              (fun v => 6 * List.length (filter nodeCapturable (nodes v)))
              (fun v s => violationWithScreens_queries fuel w v s Hfuel)
              (orEmpty (violations a)) s4)
    as (violations' & s5 & Hm5 & Hq5 & _).
  rewrite (bind_normal _ _ _ _ _ Hm5).
  unfold bind at 1, setLocals at 1.
  set (s6 := {| clock := clock s5; log := log s5; locals := _ |}).
  assert (Hq6 : queries s6 = queries s5) by reflexivity.
  destruct (detectChallenge_queries w s6) as (c & s7 & Hd & Hnd & Hq7).
  assert (Hsum : list_sum (map (fun v => 6 * List.length (filter nodeCapturable (nodes v)))
                        (orEmpty (violations a)))
                 = 6 * capturableNodes (orEmpty (violations a))).
  { apply list_sum_capturableNodes. }
  unfold bind at 1. rewrite Hd.
  destruct c as [[]|e|]; [| |contradiction]; do 2 eexists;
    (split; [reflexivity|]); (split; [discriminate|]); lia.
Qed.

(** The [try] with its [catch] always comes to a result. *)
Lemma scan_body_resolves fuel w url wcagLevel s :
  2 <= fuel ->
  exists r s', tryCatch (scanPage fuel w url wcagLevel) scanCatch s = (Normal r, s') /\
    queries s' <= queries s
                  + 6 * capturable (pa11yOutcome w (pa11yStandardOf wcagLevel))
                          (axeOutcome w (axeTagOf wcagLevel)).
Proof.
  intros Hfuel. unfold tryCatch, scanPage.
  destruct (openPage_queries w url s) as (c & s1 & Ho & Hnd & Hq1).
  unfold bind at 1. rewrite Ho.
  destruct c as [[]|e|]; [| |contradiction].
  - destruct (auditPage_queries fuel w wcagLevel s1 Hfuel) as (c & s2 & Ha & Hnd2 & Hq2).
    rewrite Ha. destruct c as [r|e|]; [| |contradiction].
    + do 2 eexists. split; [reflexivity | lia].
    + unfold scanCatch, bind, setLocals, getLocals, ret. do 2 eexists.
      split; [reflexivity|]. unfold queries in *. cbn [log]. lia.
  - unfold scanCatch, bind, setLocals, getLocals, ret. do 2 eexists.
    split; [reflexivity|]. unfold queries in *. cbn [log]. lia.
Qed.

(** X9. With an accepted target [runScan] always settles, and a browser
    that was launched is closed, as the last thing done, whatever happened
    on the page. If [puppeteer.launch] throws, that error is thrown and
    nothing follows the launch; otherwise [runScan] returns a result when
    [browser.close] succeeds and throws the error of [browser.close] when
    it does not: no error from the page, the engines or the captures
    reaches the caller. *)
Theorem runScan_settles fuel w url wcagLevel s :
  2 <= fuel -> targetAccepted w url ->
  exists c s',
    runScan fuel w url wcagLevel s = (c, s') /\
    match puppeteer_launch w with
    | Err e => c = Throw e /\ hd_error (log s') = Some EvLaunch
    | Ok _ =>
        hd_error (log s') = Some EvBrowserClose /\
        match browser_close w with
        | Ok _ => exists r, c = Normal r
        | Err e => c = Throw e
        end
    end.
Proof.
  intros Hfuel Ht.
  destruct (validateTarget_accepts w url s Ht) as (hostname & Hv).
  unfold runScan. rewrite (bind_normal _ _ _ _ _ Hv).
  unfold bind at 1, perform at 1.
  destruct (puppeteer_launch w) as [[]|e].
  - unfold bind at 1, setLocals at 1. unfold tryFinally.
    match goal with |- context [tryCatch _ _ ?s0] =>
      destruct (scan_body_resolves fuel w url (defaultLevel wcagLevel) s0 Hfuel)
        as (r & s1 & Hb & _) end.
    rewrite Hb. unfold perform.
    destruct (browser_close w) as [[]|e]; do 2 eexists;
      (split; [reflexivity|]); (split; [reflexivity|]); [eexists|]; reflexivity.
  - do 2 eexists. split; [reflexivity|]. split; reflexivity.
Qed.

Lemma runScan_settles_witness :
  2 <= 2 /\ targetAccepted clearWorld "https://target.example" /\
  exists c s',
    runScan 2 clearWorld "https://target.example" JsUndefined initialState = (c, s') /\
    match puppeteer_launch clearWorld with
    | Err e => c = Throw e /\ hd_error (log s') = Some EvLaunch
    | Ok _ =>
        hd_error (log s') = Some EvBrowserClose /\
        match browser_close clearWorld with
        | Ok _ => exists r, c = Normal r
        | Err e => c = Throw e
        end
    end.
Proof.
  assert (Hf : 2 <= 2) by lia.
  assert (Ht : targetAccepted clearWorld "https://target.example").
  { exists "target.example", publicAddress. repeat split. }
  split; [exact Hf|]. split; [exact Ht|].
  exact (runScan_settles 2 clearWorld "https://target.example" JsUndefined initialState Hf Ht).
Defined.

(** X10. A scan calls [page.$] at most six times for each finding it
    captures evidence for, that is, each pa11y issue with a selector and
    each node with a target of an axe violation: three attempts for the
    element and three for its parent. Passed checks cost no call. *)
Theorem runScan_query_budget fuel w url wcagLevel s :
  2 <= fuel ->
  queries (snd (runScan fuel w url wcagLevel s))
    <= queries s
       + 6 * capturable (pa11yOutcome w (pa11yStandardOf (defaultLevel wcagLevel)))
               (axeOutcome w (axeTagOf (defaultLevel wcagLevel))).
Proof.
  intros Hfuel. unfold runScan.
  destruct (validateTarget_queries w url s) as (c & s1 & Hv & Hnd & Hq1).
  unfold bind at 1. rewrite Hv.
  destruct c as [[]|e|]; [| cbn [snd]; lia | contradiction].
  unfold bind at 1, perform at 1.
  destruct (puppeteer_launch w) as [[]|e]; [| cbn [snd]; unfold queries in *; cbn; lia].
  unfold bind at 1, setLocals at 1. unfold tryFinally.
  match goal with |- context [tryCatch _ _ ?s0] =>
    destruct (scan_body_resolves fuel w url (defaultLevel wcagLevel) s0 Hfuel)
      as (r & s2 & Hb & Hq2) end.
  rewrite Hb. unfold perform.
  destruct (browser_close w) as [[]|e]; cbn [snd]; unfold queries in *;
    cbn [log tick countEvents isQuery] in *; lia.
Qed.

Lemma runScan_query_budget_witness :
  2 <= 2 /\
  queries (snd (runScan 2 clearWorld "https://target.example" JsUndefined initialState))
    <= queries initialState
       + 6 * capturable (pa11yOutcome clearWorld (pa11yStandardOf (defaultLevel JsUndefined)))
               (axeOutcome clearWorld (axeTagOf (defaultLevel JsUndefined))).
Proof.
  assert (Hf : 2 <= 2) by lia.
  split; [exact Hf|].
  exact (runScan_query_budget 2 clearWorld "https://target.example" JsUndefined
           initialState Hf).
Defined.

(** What a batch returns is related to its items one by one. *)
Lemma mapM_yields {A B} (R : A -> B -> Prop) (f : A -> M B)
  (Hf : forall a s b s', f a s = (Normal b, s') -> R a b) :
  forall xs s ys s', mapM f xs s = (Normal ys, s') -> Forall2 R xs ys.
Proof.
  induction xs as [|a xs IH]; intros s ys s' H; cbn [mapM] in H.
  - inversion H. constructor.
  - unfold bind in H. destruct (f a s) as [[b|e|] s1] eqn:Hb; try discriminate.
    destruct (mapM f xs s1) as [[ys0|e|] s2] eqn:Hys; try discriminate.
    inversion H; subst. constructor; [exact (Hf _ _ _ _ Hb) | exact (IH _ _ _ Hys)].
Qed.

Lemma issueWithScreen_yields fuel w issue s issue' s' :
  issueWithScreen fuel w issue s = (Normal issue', s') -> screenedIssue fuel w issue issue'.
Proof.
  unfold issueWithScreen, screenedIssue, issueTarget. intros H.
  destruct (issue_selector issue) as [selector|].
  - destruct (Js.truthy (Some selector)).
    + unfold bind in H.
      destruct (getElementScreenshot fuel w selector defaultOptions s)
        as [[screenshot|e|] s1] eqn:Hc; try discriminate.
      inversion H. exists (shotOf screenshot). split; [reflexivity|].
      exists s, s1, screenshot. split; [exact Hc | reflexivity].
    + inversion H. exists ShotNull. split; reflexivity.
  - inversion H. exists ShotNull. split; reflexivity.
Qed.

Lemma nodeWithScreen_yields fuel w node s node' s' :
  nodeWithScreen fuel w node s = (Normal node', s') -> screenedNode fuel w node node'.
Proof.
  unfold nodeWithScreen, screenedNode. intros H.
  destruct (nodeSelector node) as [selector|].
  - unfold bind in H.
    destruct (getElementScreenshot fuel w selector defaultOptions s)
      as [[screenshot|e|] s1] eqn:Hc; try discriminate.
    inversion H. exists (shotOf screenshot). split; [reflexivity|].
    exists s, s1, screenshot. split; [exact Hc | reflexivity].
  - inversion H. exists ShotNull. split; reflexivity.
Qed.

Lemma violationWithScreens_yields fuel w violation s violation' s' :
  violationWithScreens fuel w violation s = (Normal violation', s') ->
  screenedViolation fuel w violation violation'.
Proof.
  unfold violationWithScreens, screenedViolation, bind. intros H.
  destruct (mapM (nodeWithScreen fuel w) (nodes violation) s) as [[nodes'|e|] s1] eqn:Hm;
    try discriminate.
  inversion H. exists nodes'. split; [reflexivity|].
  exact (mapM_yields _ _ (nodeWithScreen_yields fuel w) _ _ _ _ Hm).
Qed.

(** The findings in what the audit returns carry the evidence of their
    captures. *)
Lemma auditPage_yields fuel w wcagLevel s r s' :
  auditPage fuel w wcagLevel s = (Normal r, s') ->
  Forall2 (screenedIssue fuel w)
    (orEmpty (issues (pa11yOutcome w (pa11yStandardOf wcagLevel))))
    (orEmpty (issues (pa11y r))) /\
  Forall2 (screenedViolation fuel w)
    (orEmpty (violations (axeOutcome w (axeTagOf wcagLevel))))
    (orEmpty (violations (axe r))).
Proof.
  unfold auditPage. intros H.
  unfold bind at 1 in H.
  destruct (tryCatch _ _ s) as [[o|e|] s0]; try discriminate.
  unfold bind at 1 in H. rewrite runPa11y_spec in H.
  unfold bind at 1 in H.
  match type of H with context [runAxe _ _ ?s1] =>
    destruct (runAxe_spec w (axeTagOf wcagLevel) s1) as (s2 & Hax & _) end.
  rewrite Hax in H.
  unfold bind at 1 in H.
  destruct (mapM (issueWithScreen fuel w) _ s2) as [[issues'|e|] s3] eqn:Hm3;
    try discriminate.
  unfold bind at 1, setLocals at 1 in H. unfold bind at 1, setLocals at 1 in H.
  unfold bind at 1 in H.
  match type of H with context [mapM (violationWithScreens fuel w) ?vs ?s4] =>
    destruct (mapM (violationWithScreens fuel w) vs s4) as [[violations'|e|] s5] eqn:Hm5;
      try discriminate end.
  unfold bind at 1, setLocals at 1 in H. unfold bind at 1 in H.
  match type of H with context [detectChallenge w ?s6] =>
    destruct (detectChallenge w s6) as [[[]|e|] s7]; try discriminate end.
  inversion H. cbn [pa11y axe fullResult withIssuesPassed withViolationsPasses
                    issues violations orEmpty].
  split.
  - exact (mapM_yields _ _ (issueWithScreen_yields fuel w) _ _ _ _ Hm3).
  - exact (mapM_yields _ _ (violationWithScreens_yields fuel w) _ _ _ _ Hm5).
Qed.

Lemma evidenceFor_present fuel w selector shot :
  evidenceFor fuel w selector shot -> shot <> ShotAbsent.
Proof.
  destruct selector as [selector|]; cbn.
  - intros (s0 & s1 & [uri|] & _ & ->); discriminate.
  - intros ->. discriminate.
Qed.

(** X11. A page that opens and is not taken for a challenge gives the full
    result. The issues and violations are those of the engines, in the
    same order, and each issue and each node of a violation has its
    [screenshot] property: [null] where the finding has no selector, and
    otherwise what [getElementScreenshot] returned for that selector, so
    [null] or a data URI. Every passed check and every node of a passing
    rule has [screenshot: null], and the result has a [pageScreenshot]
    field. *)
Theorem runScan_clear_page fuel w url wcagLevel pageContent bodyText s :
  2 <= fuel -> targetAccepted w url -> pageOpens w url -> browser_close w = Ok tt ->
  page_content w = Ok pageContent -> page_bodyText w = Ok bodyText ->
  challengeDetected pageContent bodyText = false ->
  exists r s' issues' violations',
    runScan fuel w url wcagLevel s = (Normal r, s') /\
    issues (pa11y r) = Some issues' /\
    Forall2 (screenedIssue fuel w)
      (orEmpty (issues (pa11yOutcome w (pa11yStandardOf (defaultLevel wcagLevel))))) issues' /\
    Forall (fun i => issue_screenshot i <> ShotAbsent) issues' /\
    violations (axe r) = Some violations' /\
    Forall2 (screenedViolation fuel w)
      (orEmpty (violations (axeOutcome w (axeTagOf (defaultLevel wcagLevel))))) violations' /\
    Forall (fun v => Forall (fun n => node_screenshot n <> ShotAbsent) (nodes v))
      violations' /\
    Forall (fun i => issue_screenshot i = ShotNull) (orEmpty (passed (pa11y r))) /\
    Forall (fun v => Forall (fun n => node_screenshot n = ShotNull) (nodes v))
      (orEmpty (passes (axe r))) /\
    pageScreenshot r <> ShotAbsent.
Proof.
  intros Hfuel Ht Hp Hc Hcontent Hbody Hclear.
  assert (Hv : verdict w = Normal tt).
  { unfold verdict. now rewrite Hcontent, Hbody, Hclear. }
  destruct (validateTarget_accepts w url s Ht) as (hostname & Hval).
  unfold runScan. rewrite (bind_normal _ _ _ _ _ Hval).
  unfold bind at 1, perform at 1. destruct (Hp) as (Hl & _). rewrite Hl.
  unfold bind at 1, setLocals at 1.
  match goal with |- context [tryFinally _ _ ?s0] => set (s1 := s0) end.
  destruct (openPage_ok w url s1 Hp) as (s2 & Ho & _).
  destruct (auditPage_spec fuel w (defaultLevel wcagLevel) s2 Hfuel)
    as (issues' & violations' & shot & s3 & _ & _ & _ & _ & Ha).
  rewrite Hv in Ha.
  destruct (auditPage_yields fuel w (defaultLevel wcagLevel) s2 _ s3 Ha) as [HF1 HF2].
  cbn [pa11y axe fullResult withIssuesPassed withViolationsPasses
       issues violations orEmpty] in HF1, HF2.
  unfold tryFinally, tryCatch, scanPage. rewrite (bind_normal _ _ _ _ _ Ho), Ha.
  unfold perform. rewrite Hc.
  do 2 eexists. exists issues', violations'. split; [reflexivity|].
  cbn [pa11y axe pageScreenshot fullResult withIssuesPassed withViolationsPasses
       issues passed violations passes orEmpty].
  split; [reflexivity|]. split; [exact HF1|]. split.
  { clear - HF1. induction HF1 as [|i i' l l' (shot0 & -> & Hev) _ IH]; constructor.
    - cbn. exact (evidenceFor_present _ _ _ _ Hev).
    - exact IH. }
  split; [reflexivity|]. split; [exact HF2|]. split.
  { clear - HF2. induction HF2 as [|v v' l l' (nodes' & -> & Hn) _ IH]; constructor.
    - cbn [withNodes nodes].
      induction Hn as [|n n' ns ns' (shot0 & -> & Hev) _ IHn]; constructor.
      + cbn. exact (evidenceFor_present _ _ _ _ Hev).
      + exact IHn.
    - exact IH. }
  split; [|split].
  - apply Forall_forall. intros i Hi. apply in_map_iff in Hi.
    destruct Hi as (i0 & <- & _). reflexivity.
  - apply Forall_forall. intros v Hv'. apply in_map_iff in Hv'.
    destruct Hv' as (v0 & <- & _). cbn [passWithoutScreens withNodes nodes].
    apply Forall_forall. intros n Hn. apply in_map_iff in Hn.
    destruct Hn as (n0 & <- & _). reflexivity.
  - unfold pageShot. destruct shot as [sh|]; [destruct (Js.truthy (Some sh))|]; discriminate.
Qed.

Lemma runScan_clear_page_witness :
  2 <= 2 /\ targetAccepted clearWorld "https://target.example" /\
  pageOpens clearWorld "https://target.example" /\
  browser_close clearWorld = Ok tt /\
  page_content clearWorld = Ok plainContent /\
  page_bodyText clearWorld = Ok plainBodyText /\
  challengeDetected plainContent plainBodyText = false /\
  exists r s' issues' violations',
    runScan 2 clearWorld "https://target.example" JsUndefined initialState = (Normal r, s') /\
    issues (pa11y r) = Some issues' /\
    Forall2 (screenedIssue 2 clearWorld)
      (orEmpty (issues (pa11yOutcome clearWorld
                          (pa11yStandardOf (defaultLevel JsUndefined))))) issues' /\
    Forall (fun i => issue_screenshot i <> ShotAbsent) issues' /\
    violations (axe r) = Some violations' /\
    Forall2 (screenedViolation 2 clearWorld)
      (orEmpty (violations (axeOutcome clearWorld
                              (axeTagOf (defaultLevel JsUndefined))))) violations' /\
    Forall (fun v => Forall (fun n => node_screenshot n <> ShotAbsent) (nodes v))
      violations' /\
    Forall (fun i => issue_screenshot i = ShotNull) (orEmpty (passed (pa11y r))) /\
    Forall (fun v => Forall (fun n => node_screenshot n = ShotNull) (nodes v))
      (orEmpty (passes (axe r))) /\
    pageScreenshot r <> ShotAbsent.
Proof.
  assert (Hf : 2 <= 2) by lia.
  assert (Ht : targetAccepted clearWorld "https://target.example").
  { exists "target.example", publicAddress. repeat split. }
  assert (Hp : pageOpens clearWorld "https://target.example").
  { repeat split. }
  assert (Hc : challengeDetected plainContent plainBodyText = false).
  { vm_compute. reflexivity. }
  split; [exact Hf|]. split; [exact Ht|]. split; [exact Hp|].
  split; [reflexivity|]. split; [reflexivity|]. split; [reflexivity|]. split; [exact Hc|].
  exact (runScan_clear_page 2 clearWorld "https://target.example" JsUndefined
           plainContent plainBodyText initialState Hf Ht Hp eq_refl eq_refl eq_refl Hc).
Defined.

(** How [runScan] settles: it returns exactly when the target was
    accepted, the browser started and the browser closed. *)
Lemma runScan_outcome fuel w url wcagLevel s :
  2 <= fuel ->
  (targetAccepted w url /\ puppeteer_launch w = Ok tt /\ browser_close w = Ok tt /\
   exists result, fst (runScan fuel w url wcagLevel s) = Normal result) \/
  (~ (targetAccepted w url /\ puppeteer_launch w = Ok tt /\ browser_close w = Ok tt) /\
   exists error, fst (runScan fuel w url wcagLevel s) = Throw error).
Proof.
  intros Hfuel.
  assert (Hdec : targetAccepted w url \/ ~ targetAccepted w url).
  { unfold targetAccepted. destruct (url_hostname w url) as [hostname|e] eqn:Hu.
    - destruct (dns_lookup w hostname) as [addresses|e] eqn:Hd.
      + destruct (anyPrivate addresses) eqn:Hp.
        * right. intros (h & a & Hh & Ha & Hn). congruence.
        * left. exists hostname, addresses. repeat split; assumption.
      + right. intros (h & a & Hh & Ha & _). congruence.
    - right. intros (h & a & Hh & _). discriminate Hh. }
  set (out := runScan fuel w url wcagLevel s).
  assert (Hout : out = runScan fuel w url wcagLevel s) by reflexivity.
  clearbody out. unfold runScan in Hout.
  destruct Hdec as [Ht | Hna].
  - destruct (validateTarget_accepts w url s Ht) as (hostname & Hv).
    rewrite (bind_normal _ _ _ _ _ Hv) in Hout.
    unfold bind at 1, perform at 1 in Hout.
    destruct (puppeteer_launch w) as [[]|e].
    + unfold bind at 1, setLocals at 1 in Hout. unfold tryFinally in Hout.
      match type of Hout with context [tryCatch _ _ ?s0] =>
        destruct (scan_body_resolves fuel w url (defaultLevel wcagLevel) s0 Hfuel)
          as (r & s1 & Hb & _) end.
      rewrite Hb in Hout. unfold perform in Hout.
      destruct (browser_close w) as [[]|e]; subst out.
      * left. repeat split; try assumption. exists r. reflexivity.
      * right. split; [intros (_ & _ & H); discriminate H|]. eexists. reflexivity.
    + subst out. right. split; [intros (_ & H & _); discriminate H|]. eexists. reflexivity.
  - destruct (validateTarget_refuses w url s Hna) as (e & s' & Hv & _).
    rewrite (bind_throw _ _ _ _ _ Hv) in Hout. subst out.
    right. split; [intros (H & _); exact (Hna H)|]. eexists. reflexivity.
Qed.

(** X12. The job of a scan route calls [findByIdAndUpdate] once or twice,
    whatever the database answers. The first call sets the status
    "complete" exactly when the target was accepted, the browser started
    and the browser closed, and the status "error" otherwise. A second
    call is made exactly when the first set "complete" and was rejected:
    it sets "error" with the message of that rejection, so the result of a
    finished scan is given up. The chain of promises is fulfilled exactly
    when the last call was. *)
Theorem scan_job_updates fuel w url wcagLevel s update :
  2 <= fuel ->
  exists settled first rest,
    scanJob update (fst (runScan fuel w url wcagLevel s)) = (settled, first :: rest) /\
    (isComplete first = true <->
       targetAccepted w url /\ puppeteer_launch w = Ok tt /\ browser_close w = Ok tt) /\
    (isComplete first = false -> update_status (call_update first) = "error") /\
    (isComplete first = false \/ call_fulfilled first = true -> rest = []) /\
    (isComplete first = true -> call_fulfilled first = false ->
       exists e second,
         update 0 (call_update first) = Err e /\ rest = [second] /\
         call_update second = errorUpdate e) /\
    (settled = Normal tt <-> call_fulfilled (last rest first) = true).
Proof.
  intros Hfuel.
  destruct (runScan_outcome fuel w url wcagLevel s Hfuel)
    as [(Ht & Hl & Hc & result & ->) | (Hno & error & ->)]; cbn [scanJob].
  - destruct (update 0 (completeUpdate result)) as [[]|e] eqn:H0.
    + do 3 eexists. split; [reflexivity|]. cbn.
      repeat split; try tauto; try discriminate.
    + unfold onScanError.
      destruct (update 1 (errorUpdate e)) as [[]|e'] eqn:H1; do 3 eexists;
        (split; [reflexivity|]); cbn;
        (split; [tauto|]); (split; [discriminate|]);
        (split; [intros [H|H]; discriminate H|]);
        (split; [intros _ _; exists e; eexists; rewrite H0; repeat split|]);
        split; try discriminate; reflexivity.
  - unfold onScanError.
    destruct (update 0 (errorUpdate error)) as [[]|e'] eqn:H0; do 3 eexists;
      (split; [reflexivity|]); cbn;
      (split; [split; [discriminate | intros H; exfalso; exact (Hno H)]|]);
      (split; [reflexivity|]); (split; [reflexivity|]);
      (split; [discriminate|]);
      split; try discriminate; reflexivity.
Qed.

Lemma scan_job_updates_witness :
  2 <= 2 /\
  exists settled first rest,
    scanJob failsOnce
      (fst (runScan 2 timeoutWorld "https://slow.example" JsUndefined initialState))
      = (settled, first :: rest) /\
    (isComplete first = true <->
       targetAccepted timeoutWorld "https://slow.example" /\
       puppeteer_launch timeoutWorld = Ok tt /\ browser_close timeoutWorld = Ok tt) /\
    (isComplete first = false -> update_status (call_update first) = "error") /\
    (isComplete first = false \/ call_fulfilled first = true -> rest = []) /\
    (isComplete first = true -> call_fulfilled first = false ->
       exists e second,
         failsOnce 0 (call_update first) = Err e /\ rest = [second] /\
         call_update second = errorUpdate e) /\
    (settled = Normal tt <-> call_fulfilled (last rest first) = true).
Proof.
  assert (Hf : 2 <= 2) by lia.
  split; [exact Hf|].
  exact (scan_job_updates 2 timeoutWorld "https://slow.example" JsUndefined
           initialState failsOnce Hf).
Defined.

(* ===================================================================== *)
(** ** The report store and the scan routes *)
(* ===================================================================== *)

Lemma canScanToday_allows db now email :
  canScanToday db now email = true ->
  forall r, In r db -> isPublicBy email r = true -> (now - createdAt r > DAY_MS)%Z.
Proof.
  unfold canScanToday, findLastPublic.
  pose proof (newest_spec (filter (isPublicBy email) db)) as Hn.
  destruct (newest (filter (isPublicBy email) db)) as [last|].
  - destruct Hn as [_ Hmax]. intros H r Hr Hp. apply Z.gtb_lt in H.
    specialize (Hmax r (proj2 (filter_In _ _ _) (conj Hr Hp))). lia.
  - intros _ r Hr Hp.
    assert (Hf : In r (filter (isPublicBy email) db)) by (apply filter_In; split; assumption).
    rewrite Hn in Hf. destruct Hf.
Qed.

(** X13. [canScanToday] allows a requester exactly when every public report
    stored under that address is more than 24 hours old. So a first-time
    requester is allowed, and neither the reports of other addresses nor
    reports of another type count. *)
Theorem canScanToday_iff db now email :
  canScanToday db now email = true <->
  forall r, In r db -> isPublicBy email r = true -> (now - createdAt r > DAY_MS)%Z.
Proof.
  split; [apply canScanToday_allows|].
  unfold canScanToday, findLastPublic.
  pose proof (newest_spec (filter (isPublicBy email) db)) as Hn.
  destruct (newest (filter (isPublicBy email) db)) as [last|]; [|reflexivity].
  destruct Hn as [Hin _]. apply filter_In in Hin. destruct Hin as [Hin Hpub].
  intros H. specialize (H last Hin Hpub). apply Z.gtb_lt. lia.
Qed.

Lemma isPublicBy_pending now url email :
  isPublicBy email (pendingReport now url email "public") = true.
Proof. unfold isPublicBy, pendingReport. cbn. now rewrite String.eqb_refl. Qed.

(** X14. Two public requests by the same address: once one was accepted at
    time [now], a request at time [now'] with a URL is accepted exactly when
    [now' - now] exceeds 24 hours, whatever the store held before, and is
    answered 429 with the store unchanged otherwise. *)
Theorem second_public_scan db now url email id db' now' url' :
  Js.truthy (Some url') = true ->
  publicScan db now (Some url) (Some email) = (ReportId id, db') ->
  publicScan db' now' (Some url') (Some email) =
    if (now' - now >? DAY_MS)%Z
    then (ReportId (List.length db'), saveReport db' now' url' email "public")
    else (TooManyRequests, db').
Proof.
  intros Hu' Hfirst. unfold publicScan in Hfirst.
  destruct (negb (Js.truthy (Some url)) || negb (Js.truthy (Some email))) eqn:Hmiss;
    [discriminate|].
  apply orb_false_iff in Hmiss. destruct Hmiss as [_ He]. apply negb_false_iff in He.
  destruct (canScanToday db now email) eqn:Hcan; cbn [negb] in Hfirst; [|discriminate].
  inversion Hfirst; subst id db'. clear Hfirst.
  pose proof (canScanToday_allows db now email Hcan) as Hold.
  unfold publicScan. rewrite Hu', He. cbn [negb orb].
  assert (Hday : (0 < DAY_MS)%Z) by reflexivity.
  destruct (findLastPublic_most_recent (saveReport db now url email "public") email
              (pendingReport now url email "public")) as (found & Hf & Hc).
  - unfold saveReport. apply in_or_app. right. left. reflexivity.
  - apply isPublicBy_pending.
  - intros r Hr Hp. unfold saveReport in Hr. apply in_app_or in Hr.
    destruct Hr as [Hr | [<- | []]]; [|cbn; lia].
    specialize (Hold r Hr Hp). cbn. lia.
  - unfold canScanToday. rewrite Hf, Hc. cbn [createdAt pendingReport].
    destruct (now' - now >? DAY_MS)%Z; reflexivity.
Qed.

Lemma second_public_scan_witness :
  Js.truthy (Some "https://example.org") = true /\
  publicScan [] 1000 (Some "https://example.com") (Some "a@example.org")
    = (ReportId 0, [pendingReport 1000 "https://example.com" "a@example.org" "public"]) /\
  publicScan [pendingReport 1000 "https://example.com" "a@example.org" "public"]
    (1000 + DAY_MS) (Some "https://example.org") (Some "a@example.org")
  = if (1000 + DAY_MS - 1000 >? DAY_MS)%Z
    then (ReportId
            (List.length [pendingReport 1000 "https://example.com" "a@example.org" "public"]),
          saveReport [pendingReport 1000 "https://example.com" "a@example.org" "public"]
            (1000 + DAY_MS) "https://example.org" "a@example.org" "public")
    else (TooManyRequests,
          [pendingReport 1000 "https://example.com" "a@example.org" "public"]).
Proof.
  split; [reflexivity|]. split; [reflexivity|].
  exact (second_public_scan [] 1000 "https://example.com" "a@example.org" 0
           [pendingReport 1000 "https://example.com" "a@example.org" "public"]
           (1000 + DAY_MS) "https://example.org" eq_refl eq_refl).
Defined.

(** X15. The identifier that a scan route answers with finds, through
    [getReportById], the pending report just stored for that URL and
    address; the reports stored before keep their identifiers and
    contents, and the store grows by exactly one report. *)
Theorem scan_id_round_trip db now url email id db' :
  publicScan db now (Some url) (Some email) = (ReportId id, db') \/
  adminScan db now (Some url) (Some email) = (ReportId id, db') ->
  (exists type, getReportById db' id = Some (pendingReport now url email type)) /\
  (forall i, i < List.length db -> getReportById db' i = getReportById db i) /\
  List.length db' = S (List.length db).
Proof.
  intros H.
  assert (Hshape : exists type, id = List.length db /\ db' = saveReport db now url email type).
  { destruct H as [H | H]; [unfold publicScan in H | unfold adminScan in H];
      destruct (negb (Js.truthy (Some url)) || negb (Js.truthy (Some email)));
      try discriminate.
    - destruct (negb (canScanToday db now email)); [discriminate|].
      inversion H. exists "public". split; reflexivity.
    - inversion H. exists "admin". split; reflexivity. }
  destruct Hshape as (type & -> & ->). unfold getReportById, saveReport.
  split; [|split].
  - exists type. rewrite nth_error_app2 by lia. rewrite Nat.sub_diag. reflexivity.
  - intros i Hi. now rewrite nth_error_app1.
  - rewrite length_app. cbn. lia.
Qed.

Lemma scan_id_round_trip_witness :
  (publicScan sampleStore 5000 (Some "https://example.com") (Some "b@example.org")
     = (ReportId 1, saveReport sampleStore 5000 "https://example.com" "b@example.org" "public") \/
   adminScan sampleStore 5000 (Some "https://example.com") (Some "b@example.org")
     = (ReportId 1, saveReport sampleStore 5000 "https://example.com" "b@example.org" "public")) /\
  (exists type,
     getReportById
       (saveReport sampleStore 5000 "https://example.com" "b@example.org" "public") 1
     = Some (pendingReport 5000 "https://example.com" "b@example.org" type)) /\
  (forall i, i < List.length sampleStore ->
     getReportById
       (saveReport sampleStore 5000 "https://example.com" "b@example.org" "public") i
     = getReportById sampleStore i) /\
  List.length (saveReport sampleStore 5000 "https://example.com" "b@example.org" "public")
    = S (List.length sampleStore).
Proof.
  assert (H : publicScan sampleStore 5000 (Some "https://example.com") (Some "b@example.org")
                = (ReportId 1,
                   saveReport sampleStore 5000 "https://example.com" "b@example.org" "public") \/
              adminScan sampleStore 5000 (Some "https://example.com") (Some "b@example.org")
                = (ReportId 1,
                   saveReport sampleStore 5000 "https://example.com" "b@example.org" "public")).
  { left. reflexivity. }
  split; [exact H|].
  exact (scan_id_round_trip sampleStore 5000 "https://example.com" "b@example.org" 1
           (saveReport sampleStore 5000 "https://example.com" "b@example.org" "public") H).
Defined.








(* ===================================================================== *)
(** ** The connection to the database *)
(* ===================================================================== *)


